(** * Diet tracker (app.js): entry merging and derived metrics

    A shallow embedding of the core of [app.js]: the persisted-state loaders,
    the metrics engine (latest weight, calories, streak, BMI), the quick-entry
    replace-by-date path, and the JSON backup export / restore path; then
    the other handlers that change the store (deletion, clearing, restore
    from pasted text) and what the page computes from it (weekly figures,
    dashboard, BMI card, order of the history table, CSV export,
    notifications).

    Modelling conventions.
    - JavaScript values are the inductive [jsval]; numbers are IEEE-754
      binary64 values (Rocq primitive floats), strings are the byte strings
      of their UTF-8 encoding, ordered by their UTF-16 code units as [<]
      and [>] order them.
    - Every object read by the program comes out of [JSON.parse] or out of an
      object literal of the program, so no two object values are ever the same
      reference: identity comparisons between objects are [false].
    - An element of the global [entries] array is an object; it is modelled
      by the values of the five properties the program reads ([JUndef] for a
      property the object does not have).
    - Built-ins whose behaviour is not fixed by this file ([JSON.parse],
      [JSON.stringify], [parseFloat], [parseInt], [String.prototype.trim],
      [Date] parsing of arbitrary values) are fields of the record
      [platform]; every theorem holds for every platform.  So is the
      completion of [refreshAllUI()], which redraws the page and may throw:
      what follows it in a handler runs only when it completes.
    - A [Date] is its local time value in milliseconds, or the invalid date.
      The local zone has a fixed UTC offset (no daylight-saving jumps), and
      [new Date()] denotes one instant for the duration of a call. *)

From Stdlib Require Import ZArith String Ascii List Bool Floats Lia.
From Stdlib Require Import Permutation Sorted FinFun.
From Stdlib Require Import DecimalString DecimalN.
From Stdlib Require Uint63.
Import ListNotations.

Set Warnings "-register-all".

Local Open Scope string_scope.
Local Open Scope Z_scope.

(* ================================================================== *)
(** * JavaScript values *)

Inductive jsval : Type :=
| JUndef
| JNull
| JBool (b : bool)
| JNum (x : float)
| JStr (s : string)
| JArr (items : list jsval)
| JObj (props : list (string * jsval)).
(* [JObj] lists the own properties of an object in creation order; reading
   a property takes the first pair of that name. *)

(** Completion of a computation that may hit an uncaught [TypeError], or a
    loop whose iteration budget ran out. *)
Inductive result (A : Type) : Type :=
| Ok (a : A)
| Throws
| OutOfFuel.
Arguments Ok {A} a.
Arguments Throws {A}.
Arguments OutOfFuel {A}.

Definition rbind {A B : Type} (r : result A) (k : A -> result B) : result B :=
  match r with
  | Ok a => k a
  | Throws => Throws
  | OutOfFuel => OutOfFuel
  end.

Notation "'do' x <- r ; k" := (rbind r (fun x => k))
  (at level 10, x name, r at level 100, k at level 200).

Module JS.

(** [!!v] *)
Definition truthy (v : jsval) : bool :=
  match v with
  | JUndef | JNull => false
  | JBool b => b
  | JNum x => negb (PrimFloat.eqb x 0%float || PrimFloat.is_nan x)
  | JStr s => negb (String.eqb s "")
  | JArr _ | JObj _ => true
  end.

Definition nullish (v : jsval) : bool :=
  match v with
  | JUndef | JNull => true
  | _ => false
  end.

Fixpoint lookup (k : string) (ps : list (string * jsval)) : jsval :=
  match ps with
  | [] => JUndef
  | (k', v) :: ps' => if String.eqb k' k then v else lookup k ps'
  end.

(** [v.k] for a receiver that is neither [null] nor [undefined], and a
    property name [k] other than the built-in ones of strings and arrays
    ([length], indices), which the program never reads. *)
Definition prop_of (v : jsval) (k : string) : jsval :=
  match v with
  | JObj ps => lookup k ps
  | _ => JUndef
  end.

(** [v.k] in general: reading a property of [null] or [undefined] throws. *)
Definition get_prop (v : jsval) (k : string) : result jsval :=
  if nullish v then Throws else Ok (prop_of v k).

(** [typeof v === "number" && !isNaN(v)] *)
Definition is_real_number (v : jsval) : bool :=
  match v with
  | JNum x => negb (PrimFloat.is_nan x)
  | _ => false
  end.

(** [a || b] *)
Definition or_else (a b : jsval) : jsval := if truthy a then a else b.

(** [a === b] *)
Definition strict_eq (a b : jsval) : bool :=
  match a, b with
  | JUndef, JUndef | JNull, JNull => true
  | JBool x, JBool y => Bool.eqb x y
  | JNum x, JNum y => PrimFloat.eqb x y
  | JStr x, JStr y => String.eqb x y
  | _, _ => false
  end.

(** SameValueZero, the key equality of [Map] and [Set]. *)
Definition same_value_zero (a b : jsval) : bool :=
  match a, b with
  | JUndef, JUndef | JNull, JNull => true
  | JBool x, JBool y => Bool.eqb x y
  | JNum x, JNum y =>
      PrimFloat.eqb x y || (PrimFloat.is_nan x && PrimFloat.is_nan y)
  | JStr x, JStr y => String.eqb x y
  | _, _ => false
  end.

(** [Array.isArray(v)] *)
Definition isArray (v : jsval) : bool :=
  match v with
  | JArr _ => true
  | _ => false
  end.

(** A [Map] in insertion order: [set] on a present key keeps its place. *)
Fixpoint map_set {V : Type} (k : jsval) (v : V) (m : list (jsval * V))
  : list (jsval * V) :=
  match m with
  | [] => [(k, v)]
  | (k', v') :: m' =>
      if same_value_zero k' k then (k', v) :: m'
      else (k', v') :: map_set k v m'
  end.

Definition map_values {V : Type} (m : list (jsval * V)) : list V :=
  List.map snd m.

(** A [Set] in insertion order. *)
Definition set_has (s : list jsval) (v : jsval) : bool :=
  existsb (fun x => same_value_zero x v) s.

Definition set_add (s : list jsval) (v : jsval) : list jsval :=
  if set_has s v then s else s ++ [v].

Definition set_of_list (l : list jsval) : list jsval :=
  fold_left set_add l [].

(** [Array.prototype.sort(comparefn)], as the stable insertion sort: [x]
    stays in front of [y] unless [comparefn(x, y) > 0].  The comparator is
    given by the sign it returns ([None] for [NaN], which sorts as [0]); it
    may throw.  For a comparator that is consistent on the elements this is
    the order every conforming engine produces. *)
Section Sort.
Context {A : Type} (comparefn : A -> A -> result (option Z)).

Fixpoint sort_insert (x : A) (l : list A) : result (list A) :=
  match l with
  | [] => Ok [x]
  | y :: l' =>
      do c <- comparefn x y;
      match c with
      | Some v =>
          if 0 <? v then (do r <- sort_insert x l'; Ok (y :: r))
          else Ok (x :: l)
      | None => Ok (x :: l)
      end
  end.

Fixpoint sort (l : list A) : result (list A) :=
  match l with
  | [] => Ok []
  | x :: l' => do s <- sort l'; sort_insert x s
  end.
End Sort.

End JS.

(* ================================================================== *)
(** * The order of strings

    A string is held as the bytes of its UTF-8 encoding; [<] and [>] on
    strings compare the UTF-16 code units, which order the characters
    beyond U+FFFF (two surrogate units, 0xD800-0xDFFF) before those from
    U+E000 to U+FFFF. *)

(** The payload of a continuation byte [10xxxxxx]. *)
Definition continuation (c : ascii) : option N :=
  let n := N_of_ascii c in
  if (128 <=? n)%N && (n <? 192)%N then Some (n - 128)%N else None.

(** The code units of a code point: itself, or a surrogate pair. *)
Definition units_of_code_point (cp : N) : list N :=
  if (cp <? 65536)%N then [cp]
  else [(55296 + (cp - 65536) / 1024)%N; (56320 + (cp - 65536) mod 1024)%N].

(** The UTF-16 code units of a string.  A byte that does not start a
    sequence of the announced length stands for itself. *)
Fixpoint utf16 (s : string) : list N :=
  match s with
  | EmptyString => []
  | String c0 s1 =>
      let b0 := N_of_ascii c0 in
      let stray := b0 :: utf16 s1 in
      if (b0 <? 192)%N then stray
      else
        match s1 with
        | String c1 s2 =>
            match continuation c1 with
            | Some x1 =>
                if (b0 <? 224)%N
                then ((b0 - 192) * 64 + x1)%N :: utf16 s2
                else
                  match s2 with
                  | String c2 s3 =>
                      match continuation c2 with
                      | Some x2 =>
                          if (b0 <? 240)%N
                          then ((b0 - 224) * 4096 + x1 * 64 + x2)%N
                               :: utf16 s3
                          else
                            match s3 with
                            | String c3 s4 =>
                                match continuation c3 with
                                | Some x3 =>
                                    (units_of_code_point
                                       ((b0 - 240) * 262144 + x1 * 4096
                                        + x2 * 64 + x3)%N
                                     ++ utf16 s4)%list
                                | None => stray
                                end
                            | EmptyString => stray
                            end
                      | None => stray
                      end
                  | EmptyString => stray
                  end
            | None => stray
            end
        | EmptyString => stray
        end
  end.

(** Lexicographic comparison of code units. *)
Fixpoint compare_units (a b : list N) : comparison :=
  match a, b with
  | [], [] => Eq
  | [], _ :: _ => Lt
  | _ :: _, [] => Gt
  | x :: a', y :: b' =>
      match (x ?= y)%N with
      | Eq => compare_units a' b'
      | c => c
      end
  end.

(** [x < y] on strings.  Two byte strings with the same code units, which
    the encodings of two different JavaScript strings never are, are told
    apart by their bytes, so that the order is total on byte strings. *)
Definition string_lt (x y : string) : bool :=
  match compare_units (utf16 x) (utf16 y) with
  | Lt => true
  | Gt => false
  | Eq => String.ltb x y
  end.

(* ================================================================== *)
(** * Calendar and [Date] *)

Module Calendar.

Definition msPerDay : Z := 86400000.

(** Day number (days since 1970-01-01) of the proleptic Gregorian date
    [y]-[m]-[d], for a month [m] in 1..12 and any integer [d]. *)
Definition days_from_civil (y m d : Z) : Z :=
  let y' := if m <=? 2 then y - 1 else y in
  let era := y' / 400 in
  let yoe := y' - era * 400 in
  let mp := if 2 <? m then m - 3 else m + 9 in
  let doy := (153 * mp + 2) / 5 + d - 1 in
  let doe := yoe * 365 + yoe / 4 - yoe / 100 + doy in
  era * 146097 + doe - 719468.

(** Year, month (1..12) and day of month of a day number. *)
Definition civil_from_days (z : Z) : Z * Z * Z :=
  let z' := z + 719468 in
  let era := z' / 146097 in
  let doe := z' - era * 146097 in
  let yoe := (doe - doe / 1460 + doe / 36524 - doe / 146096) / 365 in
  let doy := doe - (365 * yoe + yoe / 4 - yoe / 100) in
  let mp := (5 * doy + 2) / 153 in
  let d := doy - (153 * mp + 2) / 5 + 1 in
  let m := if mp <? 10 then mp + 3 else mp - 9 in
  let y := yoe + era * 400 in
  (if m <=? 2 then y + 1 else y, m, d).

(** [MakeDay(year, month, date)] for integers; [month] is 0-based and may
    lie outside 0..11. *)
Definition MakeDay (year month dt : Z) : Z :=
  let ym := year + month / 12 in
  let mn := month mod 12 in
  days_from_civil ym (mn + 1) 1 + dt - 1.

(** Largest magnitude of a time value, [TimeClip]. *)
Definition maxTime : Z := 8640000000000000.

End Calendar.

(** A [Date] object: its local time value, or [None] for the invalid date. *)
Definition Date : Type := option Z.

Module DateObj.
Import Calendar.

Definition timeClip (t : Z) : Date :=
  if Z.abs t <=? maxTime then Some t else None.

Definition Day (t : Z) : Z := t / msPerDay.
Definition TimeWithinDay (t : Z) : Z := t mod msPerDay.

(** [getFullYear()], [getMonth()], [getDate()]; [None] is [NaN]. *)
Definition getFullYear (d : Date) : option Z :=
  option_map (fun t => fst (fst (civil_from_days (Day t)))) d.
Definition getMonth (d : Date) : option Z :=
  option_map (fun t => snd (fst (civil_from_days (Day t))) - 1) d.
Definition getDate (d : Date) : option Z :=
  option_map (fun t => snd (civil_from_days (Day t))) d.

(** [new Date(y, m, d)] for integer arguments. *)
Definition ofYMD (y m d : Z) : Date :=
  let year := if (0 <=? y) && (y <=? 99) then 1900 + y else y in
  timeClip (MakeDay year m d * msPerDay).

(** [date.setDate(dt)]: same year, month and time of day, day of month
    [dt]; [None] for a [NaN] argument. *)
Definition setDate (d : Date) (dt : option Z) : Date :=
  match d, dt with
  | Some t, Some n =>
      let '(y, m, _) := civil_from_days (Day t) in
      timeClip (MakeDay y (m - 1) n * msPerDay + TimeWithinDay t)
  | _, _ => None
  end.

(** [a - b] on dates: the sign-carrying difference, [None] for [NaN]. *)
Definition diff (a b : Date) : option Z :=
  match a, b with
  | Some x, Some y => Some (x - y)
  | _, _ => None
  end.

End DateObj.

(** [String(n)] for an integer-valued number. *)
Definition string_of_Z (n : Z) : string :=
  match n with
  | Zneg p => "-" ++ NilZero.string_of_uint (N.to_uint (Npos p))
  | _ => NilZero.string_of_uint (N.to_uint (Z.to_N n))
  end.

(** [String(n).padStart(2, "0")]; [None] is [NaN]. *)
Definition pad2 (n : option Z) : string :=
  match n with
  | Some k =>
      let s := string_of_Z k in
      if (String.length s <? 2)%nat then "0" ++ s else s
  | None => "NaN"
  end.

Definition string_of_num (n : option Z) : string :=
  match n with
  | Some k => string_of_Z k
  | None => "NaN"
  end.

(** [formatDateToYMD], app.js lines 83-88. *)
Definition formatDateToYMD (date : Date) : string :=
  let year := DateObj.getFullYear date in
  let month := pad2 (option_map (fun m => m + 1) (DateObj.getMonth date)) in
  let day := pad2 (DateObj.getDate date) in
  string_of_num year ++ "-" ++ month ++ "-" ++ day.

(** [getTodayDateString], app.js lines 78-81, at the instant [now]. *)
Definition getTodayDateString (now : Date) : string := formatDateToYMD now.

(** [s.split("-")] *)
Fixpoint split_dash_aux (acc : string) (s : string) : list string :=
  match s with
  | EmptyString => [acc]
  | String c s' =>
      if Ascii.eqb c "-" then acc :: split_dash_aux "" s'
      else split_dash_aux (acc ++ String c "") s'
  end.

Definition split_dash (s : string) : list string := split_dash_aux "" s.

(** [Number(p)] for a part made of one to four decimal digits. *)
Definition small_number (p : string) : option Z :=
  if (String.length p <=? 4)%nat then
    option_map (fun u => Z.of_N (N.of_uint u)) (NilZero.uint_of_string p)
  else None.

(** The three numbers [dateFromYMD] destructures, when each of the first
    three parts is made of one to four decimal digits. *)
Definition regular_ymd (s : string) : option (Z * Z * Z) :=
  match split_dash s with
  | p1 :: p2 :: p3 :: _ =>
      match small_number p1, small_number p2, small_number p3 with
      | Some y, Some m, Some d => Some (y, m, d)
      | _, _, _ => None
      end
  | _ => None
  end.

(* ================================================================== *)
(** * Data model and state *)

(** One element of [entries]. *)
Record entry : Type := mkEntry {
  date : jsval;
  weight : jsval;
  activityType : jsval;
  notes : jsval;
  durationMinutes : jsval
}.

(** The object an entry is, with its properties in the order in which the
    program's object literals create them. *)
Definition entry_to_js (e : entry) : jsval :=
  JObj [("date", date e); ("weight", weight e);
        ("activityType", activityType e); ("notes", notes e);
        ("durationMinutes", durationMinutes e)].

(** Messages shown with [alert]. *)
Inductive alert : Type :=
| AlertBadJson                 (* the backup is not valid JSON *)
| AlertRestoreDone (n : nat)   (* restore finished, the store holds n records *)
| AlertInvalidWeight           (* enter a valid weight or leave it empty *)
| AlertSaved.                  (* saved *)

(** The module state: the globals [entries] and [userSettings], the two
    [localStorage] items, and the alerts shown so far (oldest first). *)
Record state : Type := mkState {
  entries : list entry;
  userSettings : jsval;
  storedEntries : option string;
  storedSettings : option string;
  alerts : list alert
}.

Definition show_alert (a : alert) (st : state) : state :=
  mkState (entries st) (userSettings st) (storedEntries st)
          (storedSettings st) (alerts st ++ [a]).

(* ================================================================== *)
(** * Platform built-ins *)

Record platform : Type := mkPlatform {
  (** [JSON.parse(text)]; [None] when it throws a [SyntaxError]. *)
  JSON_parse : string -> option jsval;
  (** [JSON.stringify(v)] and [JSON.stringify(v, null, 2)]. *)
  JSON_stringify : jsval -> string;
  JSON_stringify_pretty : jsval -> string;
  (** [s.trim()], [parseFloat(s)], [parseInt(s, 10)]. *)
  trim : string -> string;
  parseFloat : string -> float;
  parseInt10 : string -> float;
  (** [Number(s)] for a string and [Number(o)] for an array or object. *)
  stringToNumber : string -> float;
  objectToNumber : jsval -> float;
  (** [a > b] when [a] and [b] are not both strings. *)
  coercing_gt : jsval -> jsval -> bool;
  (** [new Date(v)] for a value that is not an array or an object. *)
  dateOfValue : jsval -> Date;
  (** [new Date(o)] for an array or an object: it is converted to a
      primitive first, which throws a [TypeError] when the object has no
      callable [toString] or [valueOf] giving one. *)
  dateOfObject : jsval -> result Date;
  (** [new Date(y, m - 1, d)] for the parts of a string that [regular_ymd]
      does not cover (fewer than three parts, a part that is empty, signed,
      fractional, not a number, longer than four digits). *)
  irregularDate : string -> Date;
  (** The completion of [refreshAllUI()], app.js lines 932-943, on the
      page of the run.  It redraws the page from the two globals and the
      document, and changes none of [state]; it throws where one of the
      views does (a date that has no [split], notes that have no [trim],
      ...). *)
  refreshAllUI : state -> result unit;
  (** The empty text is not JSON. *)
  JSON_parse_empty : JSON_parse "" = None
}.

(* ================================================================== *)
(** * The program *)

Section Program.
Context (P : platform).

(** [Number(v)] *)
Definition ToNumber (v : jsval) : float :=
  match v with
  | JUndef => PrimFloat.nan
  | JNull => 0%float
  | JBool b => if b then 1%float else 0%float
  | JNum x => x
  | JStr s => stringToNumber P s
  | JArr _ | JObj _ => objectToNumber P v
  end.

(** [a > b]: two strings are compared by their UTF-16 code units. *)
Definition js_gt (a b : jsval) : bool :=
  match a, b with
  | JStr x, JStr y => string_lt y x
  | _, _ => coercing_gt P a b
  end.

(* ------------------------------------------------------------------ *)
(** ** Local storage helpers, app.js lines 25-74 *)

(** [JSON.parse(text)] as a computation: a [SyntaxError] is a throw. *)
Definition parseJson (text : string) : result jsval :=
  match JSON_parse P text with
  | Some v => Ok v
  | None => Throws
  end.

(** [try { body } catch (e) { console.error(...); return fallback; }]: the
    value returned, and whether [console.error] ran. *)
Definition try_catch_log {A : Type} (body : result A) (fallback : A)
  : A * bool :=
  match body with
  | Ok v => (v, false)
  | _ => (fallback, true)
  end.

(** [loadEntries]: the array loaded, and whether [console.error] ran.
    [raw] is [localStorage.getItem(ENTRIES_STORAGE_KEY)]. *)
Definition loadEntries (raw : option string) : list jsval * bool :=
  try_catch_log
    (match raw with
     | None => Ok []
     | Some r =>
         if String.eqb r "" then Ok []
         else
           do parsed <- parseJson r;
           Ok (match parsed with
               | JArr items => items
               | _ => []
               end)
     end)
    [].

Definition saveEntries (list : list entry) (st : state) : state :=
  mkState (entries st) (userSettings st)
          (Some (JSON_stringify P (JArr (List.map entry_to_js list))))
          (storedSettings st) (alerts st).

Definition defaultSettings : jsval :=
  JObj [("firstName", JStr ""); ("heightCm", JNull);
        ("weighInDay", JNull); ("profilePicUrl", JStr "")].

(** [loadSettings]: the record loaded, and whether [console.error] ran. *)
Definition loadSettings (raw : option string) : jsval * bool :=
  try_catch_log
    (match raw with
     | None => Ok defaultSettings
     | Some r =>
         if String.eqb r "" then Ok defaultSettings
         else
           do parsed <- parseJson r;
           do firstName <- JS.get_prop parsed "firstName";
           do heightCm <- JS.get_prop parsed "heightCm";
           do weighInDay <- JS.get_prop parsed "weighInDay";
           do profilePicUrl <- JS.get_prop parsed "profilePicUrl";
           Ok (JObj [("firstName", JS.or_else firstName (JStr ""));
                     ("heightCm",
                      JS.or_else (JNum (ToNumber heightCm)) JNull);
                     ("weighInDay",
                      match weighInDay with
                      | JNum _ => weighInDay
                      | _ => JNull
                      end);
                     ("profilePicUrl",
                      JS.or_else profilePicUrl (JStr ""))])
     end)
    defaultSettings.

Definition saveSettings (settings : jsval) (st : state) : state :=
  mkState (entries st) (userSettings st) (storedEntries st)
          (Some (JSON_stringify P settings)) (alerts st).

(* ------------------------------------------------------------------ *)
(** ** Date helpers, app.js lines 90-94 *)

(** [dateFromYMD(ymd)] at the instant [now]; a truthy value that is not a
    string has no [split] method. *)
Definition dateFromYMD (now : Date) (ymd : jsval) : result Date :=
  if negb (JS.truthy ymd) then Ok now
  else match ymd with
       | JStr s =>
           Ok (match regular_ymd s with
               | Some (y, m, d) => DateObj.ofYMD y (m - 1) d
               | None => irregularDate P s
               end)
       | _ => Throws
       end.

(* ------------------------------------------------------------------ *)
(** ** Metrics, app.js lines 160-211 *)

(** One step of the [forEach] of [getLatestWeightUpToDate]; the accumulator
    is [(latestWeight, latestDate)]. *)
Definition latest_step (limitDateStr : jsval) (acc : jsval * jsval)
  (e : entry) : jsval * jsval :=
  if negb (JS.is_real_number (weight e)) then acc
  else if JS.truthy limitDateStr && js_gt (date e) limitDateStr then acc
  else if negb (JS.truthy (snd acc)) || js_gt (date e) (snd acc)
       then (weight e, date e)
       else acc.

Definition getLatestWeightUpToDate (es : list entry) (limitDateStr : jsval)
  : jsval :=
  fst (fold_left (latest_step limitDateStr) es (JNull, JNull)).

Definition getMetForActivity (activity : jsval) : float :=
  match activity with
  | JStr s =>
      if String.eqb s "הליכה" then 4.0%float
      else if String.eqb s "ריצה" then 10.0%float
      else if String.eqb s "רכיבה" then 8.0%float
      else 5.0%float
  | _ => 5.0%float
  end.

(** [calculateEntryCalories(entry)]; [None] is [null]. *)
Definition calculateEntryCalories (es : list entry) (e : entry)
  : option float :=
  match durationMinutes e with
  | JNum duration =>
      if PrimFloat.is_nan duration then None
      else if negb (JS.truthy (JNum duration))
              || PrimFloat.leb duration 0%float then None
      else
        let weightToUse :=
          if JS.is_real_number (weight e) then weight e
          else getLatestWeightUpToDate es (date e) in
        if negb (JS.truthy weightToUse) then None
        else match weightToUse with
             | JNum w =>
                 if PrimFloat.is_nan w || PrimFloat.leb w 0%float then None
                 else
                   let met :=
                     getMetForActivity
                       (JS.or_else (activityType e) (JStr "")) in
                   let calories := (met * w * (duration / 60))%float in
                   if PrimFloat.ltb 0%float calories then Some calories
                   else None
             | _ => None (* not reached: the weight is a number or null *)
             end
  | _ => None
  end.

(* ------------------------------------------------------------------ *)
(** ** Streak, app.js lines 301-347 *)

(** The comparator [(a, b) => dateFromYMD(a) - dateFromYMD(b)]. *)
Definition compareByDateAsc (now : Date) (a b : jsval)
  : result (option Z) :=
  do da <- dateFromYMD now a;
  do db <- dateFromYMD now b;
  Ok (DateObj.diff da db).

(** The [while (true)] loop: [fuel] bounds the number of iterations. *)
Fixpoint streak_loop (fuel : nat) (uniqueDates : list jsval)
  (cursor : Date) (streak : nat) : result nat :=
  match fuel with
  | O => OutOfFuel
  | S fuel' =>
      let cursor' :=
        DateObj.setDate cursor
          (option_map (fun d => d - 1) (DateObj.getDate cursor)) in
      let prevStr := formatDateToYMD cursor' in
      if JS.set_has uniqueDates (JStr prevStr)
      then streak_loop fuel' uniqueDates cursor' (S streak)
      else Ok streak
  end.

(** [calculateCurrentStreak()] at the instant [now]. *)
Definition calculateCurrentStreak (fuel : nat) (now : Date)
  (es : list entry) : result nat :=
  match es with
  | [] => Ok O
  | _ =>
      let uniqueDates := JS.set_of_list (List.map date es) in
      do sortedDatesDesc <-
        JS.sort (fun a b => compareByDateAsc now b a) uniqueDates;
      let todayStr := getTodayDateString now in
      let yesterday :=
        DateObj.setDate now
          (option_map (fun d => d - 1) (DateObj.getDate now)) in
      let yesterdayStr := formatDateToYMD yesterday in
      let mostRecentLogDate := List.hd JUndef sortedDatesDesc in
      do mostRecentDateObj <- dateFromYMD now mostRecentLogDate;
      if negb (JS.strict_eq mostRecentLogDate (JStr todayStr))
         && negb (JS.strict_eq mostRecentLogDate (JStr yesterdayStr))
      then Ok O
      else
        do cursor <- dateFromYMD now mostRecentLogDate;
        streak_loop fuel uniqueDates cursor 1%nat
  end.

(* ------------------------------------------------------------------ *)
(** ** BMI, app.js lines 349-380 *)

Definition cat_underweight : string := "תת־משקל".
Definition cat_normal : string := "טווח תקין".
Definition cat_overweight : string := "עודף משקל".
Definition cat_obese : string := "השמנה".

Definition bmi_category (bmi : float) : string :=
  if PrimFloat.ltb bmi 18.5%float then cat_underweight
  else if PrimFloat.ltb bmi 25%float then cat_normal
  else if PrimFloat.ltb bmi 30%float then cat_overweight
  else cat_obese.

(** [calculateCurrentBmi()]; [None] is [null], [Some (value, category)] is
    the object returned. *)
Definition calculateCurrentBmi (now : Date) (es : list entry)
  (settings : jsval) : result (option (float * string)) :=
  match es with
  | [] => Ok None
  | _ =>
      if negb (JS.truthy settings) then Ok None
      else match JS.prop_of settings "heightCm" with
           | JNum heightCm =>
               if PrimFloat.is_nan heightCm
                  || PrimFloat.leb heightCm 0%float then Ok None
               else
                 let entriesWithWeight :=
                   filter (fun e => JS.is_real_number (weight e)) es in
                 match entriesWithWeight with
                 | [] => Ok None
                 | e0 :: _ =>
                     do sortedByDate <-
                       JS.sort (fun a b =>
                                  compareByDateAsc now (date a) (date b))
                               entriesWithWeight;
                     let latest := List.last sortedByDate e0 in
                     let heightM := (heightCm / 100)%float in
                     let bmi :=
                       (ToNumber (weight latest) / (heightM * heightM))%float in
                     Ok (Some (bmi, bmi_category bmi))
                 end
           | _ => Ok None
           end
  end.

(* ------------------------------------------------------------------ *)
(** ** Export and restore, app.js lines 771-783 and 856-926 *)

(** The text [exportFullBackupJson] hands to the exporter; [exportedAt] is
    [new Date().toISOString()]. *)
Definition backupEnvelope (exportedAt : string) (st : state) : jsval :=
  JObj [("version", JNum 1%float); ("exportedAt", JStr exportedAt);
        ("userSettings", userSettings st);
        ("logs", JArr (List.map entry_to_js (entries st)))].

Definition exportFullBackupJson (exportedAt : string) (st : state) : string :=
  JSON_stringify_pretty P (backupEnvelope exportedAt st).

(** Lines 883-892: the weight of an imported record. *)
Definition importedWeight (w : jsval) : jsval :=
  match w with
  | JNum x => JNum x
  | JStr s =>
      if negb (String.eqb (trim P s) "") then
        let parsedWeight := parseFloat P s in
        if negb (PrimFloat.is_nan parsedWeight) then JNum parsedWeight
        else JNull
      else JNull
  | _ => JNull
  end.

(** Lines 894-903: the duration of an imported record. *)
Definition importedDuration (v : jsval) : jsval :=
  match v with
  | JNum x => JNum x
  | JStr s =>
      if negb (String.eqb (trim P s) "") then
        let d := parseInt10 P (trim P s) in
        if negb (PrimFloat.is_nan d) then JNum d else JNull
      else JNull
  | _ => JNull
  end.

(** Lines 905-911: the record stored for an imported one. *)
Definition importedEntry (inLog : jsval) : entry :=
  mkEntry (JS.prop_of inLog "date")
          (importedWeight (JS.prop_of inLog "weight"))
          (JS.or_else (JS.prop_of inLog "activityType") (JStr ""))
          (JS.or_else (JS.prop_of inLog "notes") (JStr ""))
          (importedDuration (JS.prop_of inLog "durationMinutes")).

(** The guard of line 881, negated: the record is merged. *)
Definition importable (inLog : jsval) : bool :=
  JS.truthy inLog && JS.truthy (JS.prop_of inLog "date").

(** The body of [parsed.logs.forEach], lines 880-912. *)
Definition mergeLog (logsMap : list (jsval * entry)) (inLog : jsval)
  : list (jsval * entry) :=
  if negb (importable inLog) then logsMap
  else JS.map_set (JS.prop_of inLog "date") (importedEntry inLog) logsMap.

(** [new Date(v)] *)
Definition newDate (v : jsval) : result Date :=
  match v with
  | JArr _ | JObj _ => dateOfObject P v
  | _ => Ok (dateOfValue P v)
  end.

(** The comparator of line 918, [new Date(b.date) - new Date(a.date)]. *)
Definition compareNewestFirst (a b : entry) : result (option Z) :=
  do db <- newDate (date b);
  do da <- newDate (date a);
  Ok (DateObj.diff db da).

(** Lines 874-915 on the array [logs]: the values of the merged map, which
    line 915 assigns to [entries]. *)
Definition mergedValues (es : list entry) (logs : list jsval)
  : list entry :=
  let logsMap :=
    fold_left (fun m e => JS.map_set (date e) e m) es [] in
  JS.map_values (fold_left mergeLog logs logsMap).

(** The sort of line 918 on the merged values. *)
Definition sortMerged (es : list entry) (logs : list jsval)
  : result (list entry) :=
  JS.sort compareNewestFirst (mergedValues es logs).

(** Lines 874-918 on the array [logs]: the value of [entries] they leave.
    When the comparator throws, the sort ends before it writes anything
    back, and [entries] holds the merged values in the order of the map. *)
Definition mergeLogs (es : list entry) (logs : list jsval) : list entry :=
  match sortMerged es logs with
  | Ok sorted => sorted
  | _ => mergedValues es logs
  end.

(** The end of a restore, lines 924-925: the alert, then [refreshAllUI()],
    whose completion is that of the restore. *)
Definition restoreDone (st : state) : result unit * state :=
  let st' := show_alert (AlertRestoreDone (List.length (entries st))) st in
  (refreshAllUI P st', st').

(** [restoreFullBackupJsonFromText(jsonText)]: the completion and the state
    it leaves.  An uncaught [TypeError] leaves the state reached so far: the
    state as it was when [parsed] is [null], and the store assigned but
    neither saved nor announced when the sort of line 918 throws. *)
Definition restoreFullBackupJsonFromText (jsonText : string) (st : state)
  : result unit * state :=
  match JSON_parse P jsonText with
  | None => (Ok tt, show_alert AlertBadJson st)
  | Some parsed =>
      match JS.get_prop parsed "userSettings" with
      | Ok imported =>
          let st1 :=
            if JS.truthy imported then
              saveSettings imported
                (mkState (entries st) imported (storedEntries st)
                         (storedSettings st) (alerts st))
            else st in
          match JS.prop_of parsed "logs" with
          | JArr logs =>
              let es := mergeLogs (entries st1) logs in
              let st2 :=
                mkState es (userSettings st1) (storedEntries st1)
                        (storedSettings st1) (alerts st1) in
              match sortMerged (entries st1) logs with
              | Ok _ => restoreDone (saveEntries es st2)
              | _ => (Throws, st2)
              end
          | _ => restoreDone st1
          end
      | _ => (Throws, st)
      end
  end.

(* ------------------------------------------------------------------ *)
(** ** Quick entry, app.js lines 985-1044 *)

(** The values of the form controls; [None] for a control that is not in
    the document. *)
Record entryForm : Type := mkEntryForm {
  weightInput : option string;
  durationInput : option string;
  dateInput : string;
  activityTypeInput : string;
  notesInput : string
}.

(** Lines 1029-1031: replace the entry of the same date, or add one. *)
Definition addOrReplace (newEntry : entry) (es : list entry) : list entry :=
  filter (fun e => negb (JS.strict_eq (date e) (date newEntry))) es
  ++ [newEntry].

(** The submit handler of the entry form at the instant [now].  The entry
    is stored and saved, then [refreshAllUI()] runs (line 1034), and the
    alert that it was saved (line 1040) is shown when that completes. *)
Definition submitEntryForm (now : Date) (f : entryForm) (st : state)
  : state :=
  let weightRaw :=
    match weightInput f with Some v => trim P v | None => "" end in
  let hasWeight := negb (String.eqb weightRaw "") in
  let weightVal := if hasWeight then JNum (parseFloat P weightRaw) else JNull in
  if hasWeight
     && (negb (JS.truthy weightVal)
         || match weightVal with
            | JNum w => PrimFloat.is_nan w || PrimFloat.leb w 0%float
            | _ => false
            end)
  then show_alert AlertInvalidWeight st
  else
    let dateVal :=
      if String.eqb (dateInput f) "" then getTodayDateString now
      else dateInput f in
    let durationMinutes :=
      match durationInput f with
      | Some v =>
          if negb (String.eqb (trim P v) "") then
            let d := parseInt10 P (trim P v) in
            if negb (PrimFloat.is_nan d) && PrimFloat.ltb 0%float d
            then JNum d else JNull
          else JNull
      | None => JNull
      end in
    let weightVal :=
      if hasWeight then weightVal
      else
        let latest := getLatestWeightUpToDate (entries st) (JStr dateVal) in
        if JS.is_real_number latest then latest else JNull in
    let newEntry :=
      mkEntry (JStr dateVal) weightVal (JStr (activityTypeInput f))
              (JStr (notesInput f)) durationMinutes in
    let es := addOrReplace newEntry (entries st) in
    let st' :=
      saveEntries es
        (mkState es (userSettings st) (storedEntries st)
                 (storedSettings st) (alerts st)) in
    match refreshAllUI P st' with
    | Ok _ => show_alert AlertSaved st'
    | _ => st'
    end.

End Program.

(* ================================================================== *)
(** * Runs of the program *)

(** The two mutations of the entry store the user can trigger besides
    deletion: submitting the quick-entry form and restoring a backup. *)
Inductive action : Type :=
| QuickEntry (now : Date) (f : entryForm)
| RestoreBackup (jsonText : string).

(** Handlers run to completion one after the other; an uncaught exception
    ends the handler and leaves the state it reached. *)
Definition step (P : platform) (a : action) (st : state) : state :=
  match a with
  | QuickEntry now f => submitEntryForm P now f st
  | RestoreBackup jsonText => snd (restoreFullBackupJsonFromText P jsonText st)
  end.

Definition run (P : platform) (acts : list action) (st : state) : state :=
  fold_left (fun s a => step P a s) acts st.

(* ================================================================== *)
(** * Properties of stores *)

(** I1: no two entries of the store share a date (under the key equality
    of [Map]; on strings this is equality). *)
Definition dates_unique (es : list entry) : Prop :=
  ForallOrdPairs
    (fun a b => JS.same_value_zero (date a) (date b) = false) es.

(** An entry shaped as the program's own object literals shape it: a
    non-empty date string, a weight and a duration that are numbers or
    [null], an activity label and notes that are strings. *)
Definition number_or_null (v : jsval) : bool :=
  match v with
  | JNum _ | JNull => true
  | _ => false
  end.

Definition is_string (v : jsval) : bool :=
  match v with
  | JStr _ => true
  | _ => false
  end.

Definition entry_shaped (e : entry) : bool :=
  is_string (date e) && JS.truthy (date e)
  && number_or_null (weight e)
  && is_string (activityType e)
  && is_string (notes e)
  && number_or_null (durationMinutes e).

(** A weight or a duration as the data model has it: absent, or a positive
    real number. *)
Definition positive_real (v : jsval) : bool :=
  match v with
  | JNull => true
  | JNum x => PrimFloat.ltb 0%float x && PrimFloat.ltb x PrimFloat.infinity
  | _ => false
  end.

(** An entry of the data model: shaped as above, its weight and its
    duration absent or positive. *)
Definition model_entry (e : entry) : bool :=
  entry_shaped e && positive_real (weight e)
  && positive_real (durationMinutes e).



(** Zeros of either sign. *)
Definition SFzero (x : spec_float) : bool :=
  match x with
  | S754_zero _ => true
  | _ => false
  end.

(** The last record of [logs] that is merged under a key equal to [d]. *)
Definition for_date (d : jsval) (inLog : jsval) : bool :=
  importable inLog
  && JS.same_value_zero (JS.prop_of inLog "date") d.

Definition lastLogFor (d : jsval) (logs : list jsval) : option jsval :=
  find (for_date d) (rev logs).

(** The invariant of the [Map] built by the restore: keys are pairwise
    different, and a key behaves as the date of its value. *)
Definition map_ok (m : list (jsval * entry)) : Prop :=
  ForallOrdPairs
    (fun p q => JS.same_value_zero (fst p) (fst q) = false) m
  /\ Forall (fun p => forall x, JS.same_value_zero (fst p) x
                               = JS.same_value_zero (date (snd p)) x) m.

(* ================================================================== *)
(** * The calorie rule as the specification words it

    "Weight source: the entry's own weight if present and positive, else
    [latest_weight_up_to(snapshot, entry.date)]; if no weight resolves,
    returns none.  Formula: MET x weight_kg x (duration_minutes / 60);
    returns none if the result is not strictly positive." *)



(** The weight [calculateEntryCalories] works with, lines 201-204. *)
Definition weightToUse (P : platform) (es : list entry) (e : entry)
  : jsval :=
  if JS.is_real_number (weight e) then weight e
  else getLatestWeightUpToDate P es (date e).

(** The time value [dateFromYMD] gives a date; 0 when the date is invalid
    or the call throws. *)
Definition dateTime (P : platform) (now : Date) (v : jsval) : Z :=
  match dateFromYMD P now v with
  | Ok (Some t) => t
  | _ => 0
  end.

Definition entryTime (P : platform) (now : Date) (e : entry) : Z :=
  dateTime P now (date e).

(* ================================================================== *)
(** * Calendar days of the data model

    Entry dates are ISO [YYYY-MM-DD] strings: the days from 1000-01-01 to
    9999-12-31. *)

Definition firstDay : Z := Eval vm_compute in Calendar.days_from_civil 1000 1 1.
Definition lastDay : Z := Eval vm_compute in Calendar.days_from_civil 9999 12 31.

Definition valid_day (d : Z) : Prop := firstDay <= d <= lastDay.

(** The date string of a day number, as [formatDateToYMD] writes it. *)
Definition ymd_of_day (d : Z) : string :=
  formatDateToYMD (Some (d * Calendar.msPerDay)).

(** [f] holds on the [n] integers from [z] on. *)
Fixpoint check_upto (f : Z -> bool) (n : nat) (z : Z) : bool :=
  match n with
  | O => true
  | S k => f z && check_upto f k (z + 1)
  end.

Fixpoint no_dash (s : string) : bool :=
  match s with
  | EmptyString => true
  | String c s' => negb (Ascii.eqb c "-") && no_dash s'
  end.

(** A number of the date prints without a dash and reads back. *)
Definition part_ok (pad : bool) (n : Z) : bool :=
  let s := if pad then pad2 (Some n) else string_of_Z n in
  no_dash s && negb (String.eqb s "")
  && match small_number s with
     | Some k => k =? n
     | None => false
     end.

(* ================================================================== *)
(** * Sample data

    A small store, a backup of it, and a platform whose parser knows a few
    texts; used to exhibit concrete runs. *)

Definition sampleSettings : jsval :=
  JObj [("firstName", JStr "Dana"); ("heightCm", JNum 170%float);
        ("weighInDay", JNum 0%float); ("profilePicUrl", JStr "")].

Definition sampleEntry1 : entry :=
  mkEntry (JStr "2024-01-01") (JNum 80%float) (JStr "") (JStr "x") JNull.

Definition sampleEntry2 : entry :=
  mkEntry (JStr "2024-01-08") (JNum 78%float) (JStr "ריצה") (JStr "")
          (JNum 30%float).

Definition sampleState : state :=
  mkState [sampleEntry1; sampleEntry2] sampleSettings None None [].


(** Ten thirty in the morning of 2024-03-01, and entries logged on that
    day and on the two days before it. *)
Definition sampleNow : Z :=
  Calendar.days_from_civil 2024 3 1 * Calendar.msPerDay + 37800000.

Definition streakEntries : list entry :=
  [mkEntry (JStr "2024-02-28") (JNum 80%float) (JStr "") (JStr "") JNull;
   mkEntry (JStr "2024-03-01") JNull (JStr "ריצה") (JStr "")
           (JNum 30%float);
   mkEntry (JStr "2024-02-29") JNull (JStr "") (JStr "") JNull].

Definition sampleLog : jsval :=
  JObj [("date", JStr "2024-01-01"); ("weight", JStr "79.5")].

Definition sampleExportedAt : string := "2024-01-09T08:00:00.000Z".

Definition samplePlatform : platform :=
  mkPlatform
    (fun text =>
       if String.eqb text "backup"
       then Some (backupEnvelope sampleExportedAt sampleState)
       else if String.eqb text "logs-only"
       then Some (JObj [("logs", JArr [sampleLog])])
       else if String.eqb text "settings-only"
       then Some (JObj [("userSettings", JObj [("firstName", JStr "Noa")])])
       else if String.eqb text "null" then Some JNull
       else if String.eqb text "null-settings"
       then Some (JObj [("userSettings", JNull); ("logs", JStr "none")])
       else None)
    (fun _ => "stored")
    (fun _ => "backup")
    (fun s => s)
    (fun s => if String.eqb s "79.5" then 79.5%float else PrimFloat.nan)
    (fun s => if String.eqb s "30" then 30%float else PrimFloat.nan)
    (fun _ => PrimFloat.nan)
    (fun _ => PrimFloat.nan)
    (fun _ _ => false)
    (fun _ => None)
    (fun _ => Ok None)
    (fun _ => None)
    (fun _ => Ok tt)
    eq_refl.


(* ================================================================== *)
(** * The other handlers and views *)

(** Messages of [restoreFromText]. *)
Inductive pasteAlert : Type :=
| PasteNotABackup     (* the pasted text does not look like a backup *)
| PasteUnreadable.    (* the pasted text could not be read *)

(** Notifications of [checkAndSendNotifications]. *)
Inductive notification : Type :=
| WeighInToday (firstName : jsval)   (* today is your weigh-in day *)
| MissedYesterday.                   (* you missed yesterday's weigh-in *)

(** What [refreshBmiDisplay] shows. *)
Inductive bmiHint : Type :=
| HintEnterWeight   (* enter a weight to compute the BMI *)
| HintSetHeight.    (* set your height in the settings *)

Inductive bmiColour : Type :=
| Yellow | Green | Orange | Red.

(** The numbers [refreshDashboardSummary] formats; [None] is the dash. *)
Record dashboard : Type := mkDashboard {
  shownCurrentWeight : option float;
  shownTotalLoss : option float;
  shownEntriesWeek : nat;
  shownStreak : nat;
  shownCaloriesWeek : float
}.

(** Number formatting, left to the engine: [String(x)] for a number other
    than zero, and [String(o)] for an array or object. *)
Record formatting : Type := mkFormatting {
  numberToString : float -> string;
  objectToString : jsval -> string
}.

(** [`${v}`] *)
Definition templateString (F : formatting) (v : jsval) : string :=
  match v with
  | JUndef => "undefined"
  | JNull => "null"
  | JBool b => if b then "true" else "false"
  | JNum x => if PrimFloat.eqb x 0%float then "0" else numberToString F x
  | JStr s => s
  | JArr _ | JObj _ => objectToString F v
  end.

Definition dquote : ascii := ascii_of_nat 34.
Definition newline : string := String (ascii_of_nat 10) "".

(** The UTF-8 bytes of U+FEFF. *)
Definition byteOrderMark : string :=
  String (ascii_of_nat 239) (String (ascii_of_nat 187)
    (String (ascii_of_nat 191) "")).

(** The replacement of [csvRow]: every double quote is written twice. *)
Fixpoint doubleQuotes (s : string) : string :=
  match s with
  | EmptyString => EmptyString
  | String c s' =>
      if Ascii.eqb c dquote then String c (String c (doubleQuotes s'))
      else String c (doubleQuotes s')
  end.

(** [array.filter(i => i !== array[k])] on an array of distinct objects. *)
Fixpoint remove_at {A : Type} (k : nat) (l : list A) : list A :=
  match l, k with
  | [], _ => []
  | _ :: l', O => l'
  | x :: l', S k' => x :: remove_at k' l'
  end.

(** [d.getDay()]: 1970-01-01 was a Thursday. *)
Definition getDay (d : Date) : option Z :=
  option_map (fun t => (DateObj.Day t + 4) mod 7) d.

(** The number a small non-negative integer is; [None] is [NaN]. *)
Definition numberOf (n : option Z) : float :=
  match n with
  | Some z => PrimFloat.of_uint63 (Uint63.of_Z z)
  | None => PrimFloat.nan
  end.

(** [a < b] and [a <= b] on dates: false when either is invalid. *)
Definition dateLt (a b : Date) : bool :=
  match a, b with
  | Some x, Some y => x <? y
  | _, _ => false
  end.

Definition dateLe (a b : Date) : bool :=
  match a, b with
  | Some x, Some y => x <=? y
  | _, _ => false
  end.

(** [array.filter(f)] for a callback that may throw. *)
Fixpoint filterR {A : Type} (f : A -> result bool) (l : list A)
  : result (list A) :=
  match l with
  | [] => Ok []
  | x :: l' =>
      do b <- f x;
      do r <- filterR f l';
      Ok (if b then x :: r else r)
  end.

(** [array.map(f)] for a callback that may throw. *)
Fixpoint mapR {A B : Type} (f : A -> result B) (l : list A)
  : result (list B) :=
  match l with
  | [] => Ok []
  | x :: l' =>
      do y <- f x;
      do r <- mapR f l';
      Ok (y :: r)
  end.

Section Handlers.
Context (P : platform).

(** [hasEntryOnDate(dateStr)], app.js lines 96-98. *)
Definition hasEntryOnDate (es : list entry) (dateStr : jsval) : bool :=
  existsb (fun e => JS.strict_eq (date e) dateStr) es.

(** [deleteEntry(entryToDelete)], app.js lines 517-525.  The history table
    hands over an object of the array: it is given by its position [k].
    [confirmed] is the answer to [confirm]. *)
Definition deleteEntry (confirmed : bool) (k : nat) (st : state) : state :=
  if negb confirmed then st
  else
    let es := remove_at k (entries st) in
    saveEntries P es
      (mkState es (userSettings st) (storedEntries st) (storedSettings st)
               (alerts st)).

(** The settings object of the clear-data handler, line 1119. *)
Definition clearedSettings : jsval :=
  JObj [("firstName", JStr ""); ("heightCm", JNull); ("weighInDay", JNull)].

(** The click handler of the clear-data button, app.js lines 1116-1124. *)
Definition clearAllData (confirmed : bool) (st : state) : state :=
  if confirmed then
    saveSettings P clearedSettings
      (saveEntries P []
         (mkState [] clearedSettings (storedEntries st) (storedSettings st)
                  (alerts st)))
  else st.

(** [restoreFromText()], app.js lines 1230-1249; [pasted] is what [prompt]
    returns.  The result is the alert of this function, if any, and the
    state left.  Whatever the restore throws (the sort of line 918, the
    refresh of line 925) is caught like a text that does not parse, with
    the state as the restore left it.  The call of [updateProfilePic] that
    follows a restore that completed repeats the last step of the refresh
    that just completed on the same globals. *)
Definition restoreFromText (pasted : option string) (st : state)
  : option pasteAlert * state :=
  match pasted with
  | None => (None, st)
  | Some jsonText =>
      if String.eqb jsonText "" then (None, st)
      else match JSON_parse P jsonText with
           | None => (Some PasteUnreadable, st)
           | Some parsedData =>
               if JS.truthy parsedData
                  && JS.truthy (JS.prop_of parsedData "logs")
               then match restoreFullBackupJsonFromText P jsonText st with
                    | (Ok _, st') => (None, st')
                    | (_, st') => (Some PasteUnreadable, st')
                    end
               else (Some PasteNotABackup, st)
           end
  end.

(** The object [copyBackupToClipboard] serialises, app.js lines 1184-1188,
    and the text it copies, line 1190. *)
Definition clipboardEnvelope (exportedAt : string) (st : state) : jsval :=
  JObj [("version", JNum 1%float); ("exportedAt", JStr exportedAt);
        ("logs", JArr (List.map entry_to_js (entries st)))].

Definition copyBackupText (exportedAt : string) (st : state) : string :=
  JSON_stringify_pretty P (clipboardEnvelope exportedAt st).

(** [checkAndSendNotifications()], app.js lines 621-658: the notifications
    created, in order.  [supported] is ["Notification" in window] and
    [permission] is [Notification.permission]. *)
Definition checkAndSendNotifications (supported : bool)
  (permission : string) (now : Date) (st : state)
  : result (list notification) :=
  if negb supported then Ok []
  else if negb (String.eqb permission "granted") then Ok []
  else
    let todayStr := getTodayDateString now in
    do first <-
      (if negb (hasEntryOnDate (entries st) (JStr todayStr)) then
         let todayDay := getDay now in
         do weighInDay <- JS.get_prop (userSettings st) "weighInDay";
         if JS.strict_eq weighInDay (JNum (numberOf todayDay)) then
           Ok [WeighInToday
                 (JS.or_else (JS.prop_of (userSettings st) "firstName")
                             (JStr ""))]
         else Ok []
       else Ok []);
    let yesterday :=
      DateObj.setDate now
        (option_map (fun d => d - 1) (DateObj.getDate now)) in
    let yesterdayDay := getDay yesterday in
    let yesterdayStr := formatDateToYMD yesterday in
    do weighInDay <- JS.get_prop (userSettings st) "weighInDay";
    if JS.strict_eq weighInDay (JNum (numberOf yesterdayDay))
       && negb (hasEntryOnDate (entries st) (JStr yesterdayStr))
    then
      if negb (hasEntryOnDate (entries st) (JStr todayStr))
      then Ok (first ++ [MissedYesterday])%list
      else Ok first
    else Ok first.

(** The window of the weekly figures, lines 217-219 and 282-284: the
    midnight that starts today, and the one six days before. *)
Definition weekWindow (now : Date) : result (Date * Date) :=
  do today <- dateFromYMD P now (JStr (getTodayDateString now));
  Ok (today,
      DateObj.setDate today
        (option_map (fun d => d - 6) (DateObj.getDate today))).

(** [calculateCaloriesThisWeek()], app.js lines 214-233. *)
Definition calculateCaloriesThisWeek (now : Date) (es : list entry)
  : result float :=
  match es with
  | [] => Ok 0%float
  | _ =>
      do w <- weekWindow now;
      let '(today, sevenDaysAgo) := w in
      fold_left
        (fun acc e =>
           do total <- acc;
           do d <- dateFromYMD P now (date e);
           if dateLt d sevenDaysAgo || dateLt today d then Ok total
           else match calculateEntryCalories P es e with
                | Some cals => Ok (total + cals)%float
                | None => Ok total
                end)
        es (Ok 0%float)
  end.

(** The entries of the last seven days, lines 286-289. *)
Definition entriesThisWeek (now : Date) (es : list entry)
  : result (list entry) :=
  do w <- weekWindow now;
  let '(today, sevenDaysAgo) := w in
  filterR (fun e =>
             do d <- dateFromYMD P now (date e);
             Ok (dateLe sevenDaysAgo d && dateLe d today))
          es.

(** [refreshDashboardSummary()], app.js lines 235-299, with the five
    elements in the document: the numbers it formats. *)
Definition dashboardSummary (fuel : nat) (now : Date) (es : list entry)
  : result dashboard :=
  match es with
  | [] => Ok (mkDashboard None None 0 0 0%float)
  | _ =>
      do weights <-
        match filter (fun e => JS.is_real_number (weight e)) es with
        | [] => Ok (None, None)
        | e0 :: rest =>
            do sortedByDate <-
              JS.sort (fun a b => compareByDateAsc P now (date a) (date b))
                      (e0 :: rest);
            let earliest := List.hd e0 sortedByDate in
            let latest := List.last sortedByDate e0 in
            Ok (Some (ToNumber P (weight latest)),
                Some (ToNumber P (weight earliest)
                      - ToNumber P (weight latest))%float)
        end;
      do week <- entriesThisWeek now es;
      do streak <- calculateCurrentStreak P fuel now es;
      do caloriesWeek <- calculateCaloriesThisWeek now es;
      Ok (mkDashboard (fst weights) (snd weights) (List.length week)
                      streak caloriesWeek)
  end.

(** [refreshBmiDisplay()], app.js lines 382-426, with the three elements in
    the document: the hint shown when there is no BMI, or the value, the
    category text and the card colour. *)
Definition refreshBmiDisplay (now : Date) (es : list entry)
  (settings : jsval) : result (bmiHint + float * string * bmiColour) :=
  do r <- calculateCurrentBmi P now es settings;
  match r with
  | None =>
      if JS.truthy settings
         && match JS.prop_of settings "heightCm" with
            | JNum h =>
                negb (PrimFloat.is_nan h) && PrimFloat.ltb 0%float h
            | _ => false
            end
      then Ok (inl HintEnterWeight)
      else Ok (inl HintSetHeight)
  | Some (bmi, category) =>
      Ok (inr (bmi, category,
               if PrimFloat.ltb bmi 18.5%float then Yellow
               else if PrimFloat.ltb bmi 25%float then Green
               else if PrimFloat.ltb bmi 30%float then Orange
               else Red))
  end.

(** The array [sorted] whose elements [refreshHistoryTable], app.js lines
    430-515, turns into the rows of the history table, from top to bottom;
    the empty store gives the one row that says so, and no entry. *)
Definition historyOrder (now : Date) (es : list entry)
  : result (list entry) :=
  match es with
  | [] => Ok []
  | _ => JS.sort (fun a b => compareByDateAsc P now (date b) (date a)) es
  end.

End Handlers.

(** One line of [exportToCsv], app.js lines 834-845, for an entry object
    [e]. *)
Definition csvRow (F : formatting) (e : jsval) : result string :=
  do note <-
    match JS.or_else (JS.prop_of e "notes") (JStr "") with
    | JStr s => Ok (doubleQuotes s)
    | _ => Throws
    end;
  let weightOut :=
    if JS.is_real_number (JS.prop_of e "weight") then JS.prop_of e "weight"
    else JStr "" in
  let duration := JS.or_else (JS.prop_of e "duration") (JNum 0%float) in
  let calories := JS.or_else (JS.prop_of e "calories") (JNum 0%float) in
  Ok (templateString F (JS.prop_of e "date") ++ ","
      ++ templateString F weightOut ++ ","
      ++ templateString F (JS.prop_of e "activityType") ++ ","
      ++ templateString F duration ++ ","
      ++ templateString F calories ++ ","
      ++ String dquote note ++ String dquote "").

Definition csvHeader : string :=
  "Date,Weight (kg),Activity,Duration (min),Calories,Notes".

(** [exportToCsv()], app.js lines 818-853 (the later of the two
    declarations of that name, which is the one in force), on the objects
    of the array [entries]: the text handed to the exporter, or [None] when
    it alerts that there is no data. *)
Definition exportToCsv (F : formatting) (objects : list jsval)
  : result (option string) :=
  match objects with
  | [] => Ok None
  | _ =>
      do rows <- mapR (csvRow F) objects;
      Ok (Some (byteOrderMark ++ String.concat newline (csvHeader :: rows)))
  end.

(** The store-changing handlers, one after the other. *)
Inductive event : Type :=
| Submit (now : Date) (f : entryForm)
| RestoreFile (jsonText : string)
| RestorePaste (pasted : option string)
| Delete (confirmed : bool) (k : nat)
| Clear (confirmed : bool).

Definition handle (P : platform) (ev : event) (st : state) : state :=
  match ev with
  | Submit now f => submitEntryForm P now f st
  | RestoreFile jsonText =>
      snd (restoreFullBackupJsonFromText P jsonText st)
  | RestorePaste pasted => snd (restoreFromText P pasted st)
  | Delete confirmed k => deleteEntry P confirmed k st
  | Clear confirmed => clearAllData P confirmed st
  end.

Definition handleAll (P : platform) (evs : list event) (st : state)
  : state :=
  fold_left (fun s ev => handle P ev s) evs st.

(** The persisted items hold the serialised globals. *)
Definition entries_in_sync (P : platform) (st : state) : Prop :=
  storedEntries st
  = Some (JSON_stringify P (JArr (List.map entry_to_js (entries st)))).

Definition settings_in_sync (P : platform) (st : state) : Prop :=
  storedSettings st = Some (JSON_stringify P (userSettings st)).

(** The candidates of [getLatestWeightUpToDate(limitDateStr)]: the entries
    it does not skip. *)
Definition eligible (P : platform) (limitDateStr : jsval) (e : entry)
  : bool :=
  JS.is_real_number (weight e)
  && negb (JS.truthy limitDateStr && js_gt P (date e) limitDateStr).

(** A date that is a non-empty string. *)
Definition string_date (e : entry) : bool :=
  is_string (date e) && JS.truthy (date e).

(** A weight and a duration that are numbers or [null]. *)
Definition numeric_fields (e : entry) : bool :=
  number_or_null (weight e) && number_or_null (durationMinutes e).

(** The date the entry form submits, line 999: the value of the date
    field, or today's date string when it is empty. *)
Definition submittedDate (now : Date) (f : entryForm) : string :=
  if String.eqb (dateInput f) "" then getTodayDateString now
  else dateInput f.

(** The entries dated within the seven days that end on the day [today],
    for a store [es] whose dates are the days [ds]. *)
Definition weekOf (today : Z) (es : list entry) (ds : list Z)
  : list entry :=
  List.map fst
    (filter (fun p => (today - 6 <=? snd p) && (snd p <=? today))
            (combine es ds)).

(** An entry paired with the [Date] made of its date: the [Date] lies in
    the window from [lo] to [hi], both included; the [Date] is invalid. *)
Definition datedWithin (lo hi : Date) (p : entry * Date) : bool :=
  dateLe lo (snd p) && dateLe (snd p) hi.

Definition datedInvalid (p : entry * Date) : bool :=
  match snd p with
  | Some _ => false
  | None => true
  end.

(** The calories of the entries [week], each computed against the store
    [all], added up in the order of the list. *)
Definition caloriesOf (P : platform) (all week : list entry) : float :=
  fold_left
    (fun total e =>
       match calculateEntryCalories P all e with
       | Some cals => (total + cals)%float
       | None => total
       end)
    week 0%float.

(** A value that is not an array or an object: as a key of a [Map] it is
    found again. *)
Definition primitive (v : jsval) : bool :=
  match v with
  | JArr _ | JObj _ => false
  | _ => true
  end.

(** A backup text whose records, if it parses to an object with a [logs]
    array, have dates that are not objects: the sort of line 918 converts
    the dates it is given with [new Date], which can throw on an object. *)
Definition plain_dates (P : platform) (jsonText : string) : Prop :=
  forall parsed logs,
    JSON_parse P jsonText = Some parsed ->
    JS.prop_of parsed "logs" = JArr logs ->
    Forall (fun inLog => primitive (JS.prop_of inLog "date") = true) logs.

Definition plain_event (P : platform) (ev : event) : Prop :=
  match ev with
  | RestoreFile jsonText => plain_dates P jsonText
  | RestorePaste (Some jsonText) => plain_dates P jsonText
  | _ => True
  end.

(** The state the entry form has saved when it calls [refreshAllUI()]: the
    state [st'] it leaves, before the alert. *)
Definition beforeAlert (st st' : state) : state :=
  mkState (entries st') (userSettings st') (storedEntries st')
          (storedSettings st') (alerts st).

(** Some value of the map has a date strictly equal to [d]. *)
Definition covers (m : list (jsval * entry)) (d : jsval) : Prop :=
  exists p, In p m /\ JS.strict_eq (date (snd p)) d = true.

(** What the merge of [logs] leaves under the key of a pair of the map:
    the record built from the last of the [logs] merged under that key, or
    the value that was there. *)
Definition merged_pair (P : platform) (logs : list jsval)
  (p : jsval * entry) : jsval * entry :=
  (fst p,
   match lastLogFor (fst p) logs with
   | Some r => importedEntry P r
   | None => snd p
   end).

(** A platform on which [new Date] throws on every object, and whose parser
    reads one text: a backup of two records, the first dated by an object
    whose [toString] is not a function. *)
Definition throwingPlatform : platform :=
  mkPlatform
    (fun text =>
       if String.eqb text "object-date"
       then Some (JObj [("logs",
                         JArr [JObj [("date",
                                      JObj [("toString", JNum 0%float)])];
                               JObj [("date", JStr "2024-01-01")]])])
       else None)
    (fun _ => "stored")
    (fun _ => "backup")
    (fun s => s)
    (fun _ => PrimFloat.nan)
    (fun _ => PrimFloat.nan)
    (fun _ => PrimFloat.nan)
    (fun _ => PrimFloat.nan)
    (fun _ _ => false)
    (fun _ => None)
    (fun _ => Throws)
    (fun _ => None)
    (fun _ => Ok tt)
    eq_refl.

(** A formatting of numbers and objects for the sample data. *)
Definition sampleFormatting : formatting :=
  mkFormatting (fun _ => "78") (fun _ => "[object Object]").

(** A platform whose parser reads the clipboard backup of the sample
    store. *)
Definition clipboardPlatform : platform :=
  mkPlatform
    (fun text =>
       if String.eqb text "clipboard"
       then Some (clipboardEnvelope sampleExportedAt sampleState)
       else None)
    (fun _ => "stored")
    (fun _ => "clipboard")
    (fun s => s)
    (fun _ => PrimFloat.nan)
    (fun _ => PrimFloat.nan)
    (fun _ => PrimFloat.nan)
    (fun _ => PrimFloat.nan)
    (fun _ _ => false)
    (fun _ => None)
    (fun _ => Ok None)
    (fun _ => None)
    (fun _ => Ok tt)
    eq_refl.


(* ================================================================== *)
(** * Facts about binary64 comparisons *)

Lemma SFcompare_antisym (x y : spec_float) :
  SFcompare y x = option_map CompOpp (SFcompare x y).
Proof.
  destruct x as [sx|sx| |sx mx ex], y as [sy|sy| |sy my ey]; simpl;
    try reflexivity;
    try (destruct sx; reflexivity); try (destruct sy; reflexivity);
    try (destruct sx, sy; reflexivity).
  destruct sx, sy; simpl; try reflexivity;
    rewrite (Z.compare_antisym ex ey);
    destruct (ex ?= ey)%Z; simpl; try reflexivity.
  - rewrite CompOpp_involutive. f_equal.
    exact (Pos.compare_cont_antisym my mx Eq).
  - f_equal. symmetry. exact (Pos.compare_cont_antisym mx my Eq).
Qed.

Lemma SFcompare_Eq_char (x y : spec_float) :
  SFcompare x y = Some Eq <->
  (SFzero x = true /\ SFzero y = true) \/ (x = y /\ x <> S754_nan).
Proof.
  destruct x as [sx|sx| |sx mx ex], y as [sy|sy| |sy my ey]; simpl;
    try (split; [discriminate | intros [[? ?]|[? ?]]; congruence]);
    try (split; [destruct sx; discriminate
                | intros [[? ?]|[? ?]]; congruence]);
    try (split; [destruct sy; discriminate
                | intros [[? ?]|[? ?]]; congruence]).
  - split; auto.
  - destruct sx, sy; split; intros H; try discriminate;
      try (right; split; congruence);
      try (destruct H as [[? ?]|[? ?]]; congruence).
  - split.
    + intros H. right. split; [|discriminate].
      destruct sx, sy; try discriminate;
        destruct (Z.compare_spec ex ey); try discriminate; subst;
        injection H as H.
      * apply (f_equal CompOpp) in H. rewrite CompOpp_involutive in H.
        simpl in H. apply Pos.compare_eq in H. congruence.
      * apply Pos.compare_eq in H. congruence.
    + intros [[? ?]|[E _]]; [discriminate|].
      injection E as -> -> ->.
      rewrite Z.compare_refl.
      change (PosDef.Pos.compare_cont Eq my my) with (Pos.compare my my).
      rewrite Pos.compare_refl. destruct sy; reflexivity.
Qed.

Lemma float_eqb_sym (x y : float) : PrimFloat.eqb x y = PrimFloat.eqb y x.
Proof.
  rewrite !eqb_spec. unfold SFeqb. rewrite (SFcompare_antisym (Prim2SF x)).
  destruct (SFcompare (Prim2SF x) (Prim2SF y)) as [[]|]; reflexivity.
Qed.

Lemma float_eqb_trans (x y z : float) :
  PrimFloat.eqb x y = true -> PrimFloat.eqb y z = true ->
  PrimFloat.eqb x z = true.
Proof.
  rewrite !eqb_spec. unfold SFeqb.
  destruct (SFcompare (Prim2SF x) (Prim2SF y)) as [[]|] eqn:E1;
    try discriminate.
  destruct (SFcompare (Prim2SF y) (Prim2SF z)) as [[]|] eqn:E2;
    try discriminate.
  intros _ _.
  apply SFcompare_Eq_char in E1, E2.
  assert (E3 : SFcompare (Prim2SF x) (Prim2SF z) = Some Eq).
  { apply SFcompare_Eq_char.
    destruct E1 as [[a b]|[a b]], E2 as [[c d]|[c d]].
    - left; auto.
    - left. rewrite <- c. auto.
    - left. rewrite a. auto.
    - right. split; congruence. }
  rewrite E3. reflexivity.
Qed.

Lemma float_leb_ltb (x y : float) :
  PrimFloat.leb x y = true -> PrimFloat.ltb y x = false.
Proof.
  rewrite leb_spec, ltb_spec. unfold SFleb, SFltb.
  rewrite (SFcompare_antisym (Prim2SF x)).
  destruct (SFcompare (Prim2SF x) (Prim2SF y)) as [[]|]; simpl; congruence.
Qed.

Lemma float_eqb_not_nan (x y : float) :
  PrimFloat.eqb x y = true ->
  PrimFloat.is_nan x = false /\ PrimFloat.is_nan y = false.
Proof.
  intros H. unfold PrimFloat.is_nan.
  split; apply negb_false_iff.
  - apply float_eqb_trans with y; auto. rewrite float_eqb_sym; auto.
  - apply float_eqb_trans with x; auto. rewrite float_eqb_sym; auto.
Qed.

(* ================================================================== *)
(** * Key equality *)

Lemma svz_sym (a b : jsval) :
  JS.same_value_zero a b = JS.same_value_zero b a.
Proof.
  destruct a, b; simpl; try reflexivity.
  - destruct b, b0; reflexivity.
  - rewrite (float_eqb_sym x x0), (andb_comm (PrimFloat.is_nan x)).
    reflexivity.
  - apply String.eqb_sym.
Qed.

Lemma svz_trans (a b c : jsval) :
  JS.same_value_zero a b = true -> JS.same_value_zero b c = true ->
  JS.same_value_zero a c = true.
Proof.
  destruct a, b; simpl; try discriminate; destruct c; simpl;
    try discriminate; auto.
  - destruct b, b0, b1; simpl; congruence.
  - intros H1 H2.
    apply orb_true_iff in H1, H2. apply orb_true_iff.
    destruct H1 as [H1|H1], H2 as [H2|H2].
    + left. eapply float_eqb_trans; eauto.
    + apply float_eqb_not_nan in H1. apply andb_true_iff in H2.
      destruct H1, H2. congruence.
    + apply float_eqb_not_nan in H2. apply andb_true_iff in H1.
      destruct H1, H2. congruence.
    + right. apply andb_true_iff in H1, H2. apply andb_true_iff.
      tauto.
  - intros H1 H2. apply String.eqb_eq in H1, H2. apply String.eqb_eq.
    congruence.
Qed.

Lemma svz_congr_l (a b x : jsval) :
  JS.same_value_zero a b = true ->
  JS.same_value_zero a x = JS.same_value_zero b x.
Proof.
  intros H.
  destruct (JS.same_value_zero a x) eqn:E1,
           (JS.same_value_zero b x) eqn:E2; auto.
  - rewrite svz_sym in H. rewrite (svz_trans _ _ _ H E1) in E2. discriminate.
  - rewrite (svz_trans _ _ _ H E2) in E1. discriminate.
Qed.

Lemma svz_string_l (a : jsval) (s : string) :
  JS.same_value_zero a (JStr s) = JS.strict_eq a (JStr s).
Proof. destruct a; reflexivity. Qed.

(* ================================================================== *)
(** * The sort *)

Section SortFacts.
Context {A : Type} (comparefn : A -> A -> result (option Z)).

Lemma sort_insert_perm (x : A) (l r : list A) :
  JS.sort_insert comparefn x l = Ok r -> Permutation (x :: l) r.
Proof.
  revert r. induction l as [|y l IH]; simpl; intros r H.
  - injection H as <-. apply Permutation_refl.
  - destruct (comparefn x y) as [[v|]| |]; simpl in H; try discriminate.
    + destruct (0 <? v).
      * destruct (JS.sort_insert comparefn x l) as [r'| |];
          simpl in H; try discriminate.
        injection H as <-.
        eapply perm_trans; [apply perm_swap|].
        apply perm_skip. apply IH. reflexivity.
      * injection H as <-. apply Permutation_refl.
    + injection H as <-. apply Permutation_refl.
Qed.

Lemma sort_perm (l s : list A) :
  JS.sort comparefn l = Ok s -> Permutation l s.
Proof.
  revert s. induction l as [|x l IH]; simpl; intros s H.
  - injection H as <-. apply perm_nil.
  - destruct (JS.sort comparefn l) as [s'| |]; simpl in H; try discriminate.
    eapply perm_trans; [apply perm_skip, IH; reflexivity|].
    apply sort_insert_perm. exact H.
Qed.

(** The sort returns when the comparator returns on the elements it is
    given. *)
Lemma sort_insert_returns_in (D : A -> Prop) (x : A) (l : list A) :
  (forall a b, D a -> D b -> exists c, comparefn a b = Ok c) ->
  D x -> Forall D l -> exists r, JS.sort_insert comparefn x l = Ok r.
Proof.
  intros Hc Hx. induction l as [|y l IH]; simpl; intros Hl.
  - eauto.
  - inversion Hl as [|? ? Hy Hl']; subst.
    destruct (Hc x y Hx Hy) as [[v|] ->]; simpl; eauto.
    destruct (0 <? v); eauto.
    destruct (IH Hl') as [r ->]. simpl. eauto.
Qed.

Lemma sort_returns_in (D : A -> Prop) (l : list A) :
  (forall a b, D a -> D b -> exists c, comparefn a b = Ok c) ->
  Forall D l -> exists s, JS.sort comparefn l = Ok s.
Proof.
  intros Hc. induction l as [|x l IH]; simpl; intros Hl.
  - eauto.
  - inversion Hl as [|? ? Hx Hl']; subst.
    destruct (IH Hl') as [s Hs]. rewrite Hs. simpl.
    apply (sort_insert_returns_in D); auto.
    eapply Permutation_Forall; [apply sort_perm; exact Hs|exact Hl'].
Qed.

Hypothesis comparefn_returns : forall a b, exists c, comparefn a b = Ok c.

Lemma sort_insert_returns (x : A) (l : list A) :
  exists r, JS.sort_insert comparefn x l = Ok r.
Proof.
  induction l as [|y l [r IH]]; simpl.
  - eauto.
  - destruct (comparefn_returns x y) as [[v|] ->]; simpl; eauto.
    destruct (0 <? v); eauto. rewrite IH. simpl. eauto.
Qed.

Lemma sort_returns (l : list A) : exists s, JS.sort comparefn l = Ok s.
Proof.
  induction l as [|x l [s IH]]; simpl.
  - eauto.
  - rewrite IH. simpl. apply sort_insert_returns.
Qed.

End SortFacts.

(* ================================================================== *)
(** * The map of the restore *)

Lemma map_set_in_other (k k2 : jsval) (v v2 : entry) (m : list (jsval * entry)) :
  In (k, v) m -> JS.same_value_zero k k2 = false ->
  In (k, v) (JS.map_set k2 v2 m).
Proof.
  induction m as [|[k' v'] m IH]; simpl; [tauto|].
  intros [E|H] Hk.
  - injection E as -> ->. rewrite Hk. left. reflexivity.
  - destruct (JS.same_value_zero k' k2); simpl; auto.
Qed.

Lemma map_set_in_inv (k k2 : jsval) (v v2 : entry) (m : list (jsval * entry)) :
  In (k, v) (JS.map_set k2 v2 m) ->
  In (k, v) m \/ (v = v2 /\ (k = k2 \/ JS.same_value_zero k k2 = true)).
Proof.
  induction m as [|[k' v'] m IH]; simpl.
  - intros [E|[]]. injection E as <- <-. right. auto.
  - destruct (JS.same_value_zero k' k2) eqn:Hk; simpl.
    + intros [E|H]; auto. injection E as <- <-. right. auto.
    + intros [E|H]; auto. destruct (IH H) as [?|?]; auto.
Qed.

Lemma map_set_has_new (k2 : jsval) (v2 : entry) (m : list (jsval * entry)) :
  exists k, In (k, v2) (JS.map_set k2 v2 m)
            /\ (k = k2 \/ JS.same_value_zero k k2 = true).
Proof.
  induction m as [|[k' v'] m [k [Hin Hk]]]; simpl.
  - exists k2. auto.
  - destruct (JS.same_value_zero k' k2) eqn:E.
    + exists k'. simpl. auto.
    + exists k. simpl. auto.
Qed.

Lemma map_set_keys (k2 : jsval) (v2 : entry) (m : list (jsval * entry)) (p : jsval * entry) :
  In p (JS.map_set k2 v2 m) ->
  (exists q, In q m /\ fst q = fst p) \/ fst p = k2.
Proof.
  induction m as [|[k' v'] m IH]; simpl.
  - intros [<-|[]]. right. reflexivity.
  - destruct (JS.same_value_zero k' k2) eqn:Hk; simpl.
    + intros [<-|H]; left.
      * exists (k', v'). auto.
      * exists p. auto.
    + intros [<-|H].
      * left. exists (k', v'). auto.
      * destruct (IH H) as [[q [Hq Hf]]|?]; auto. left. exists q. auto.
Qed.

Lemma map_set_ok (v2 : entry) (m : list (jsval * entry)) :
  map_ok m -> map_ok (JS.map_set (date v2) v2 m).
Proof.
  intros [Hu Hk]. induction m as [|[k' v'] m IH]; simpl.
  - split.
    + constructor; constructor.
    + constructor; [|constructor]. simpl. intros x. reflexivity.
  - inversion Hu as [|? ? Hhd Htl]; subst.
    inversion Hk as [|? ? Hk1 Hk2]; subst. simpl in Hk1.
    destruct (JS.same_value_zero k' (date v2)) eqn:E.
    + split.
      * constructor; auto.
      * constructor; auto. simpl. intros x.
        rewrite (svz_congr_l _ _ x E). reflexivity.
    + destruct (IH Htl Hk2) as [IHu IHk].
      split.
      * constructor; auto.
        apply Forall_forall. intros p Hp. simpl.
        destruct (map_set_keys _ _ _ _ Hp) as [[q [Hq Hf]]|Hf].
        -- rewrite <- Hf. rewrite Forall_forall in Hhd. apply (Hhd q Hq).
        -- rewrite Hf. exact E.
      * constructor; auto.
Qed.

Lemma map_ok_nil : map_ok [].
Proof. split; constructor. Qed.

Lemma map_ok_values (m : list (jsval * entry)) :
  map_ok m -> dates_unique (JS.map_values m).
Proof.
  intros [Hu Hk]. unfold dates_unique, JS.map_values.
  induction m as [|[k v] m IH]; simpl.
  - constructor.
  - inversion Hu as [|? ? Hhd Htl]; subst.
    inversion Hk as [|? ? Hk1 Hk2]; subst. simpl in Hk1.
    constructor; auto.
    apply Forall_forall. intros e He.
    apply in_map_iff in He. destruct He as [[k' v'] [<- Hin]]. simpl.
    rewrite Forall_forall in Hhd, Hk2.
    specialize (Hhd _ Hin). specialize (Hk2 _ Hin). simpl in Hhd, Hk2.
    rewrite <- Hk1. rewrite svz_sym. rewrite <- Hk2. rewrite svz_sym.
    exact Hhd.
Qed.

Lemma map_set_fresh (k : jsval) (v : entry) (m : list (jsval * entry)) :
  Forall (fun p => JS.same_value_zero (fst p) k = false) m ->
  JS.map_set k v m = (m ++ [(k, v)])%list.
Proof.
  induction m as [|[k' v'] m IH]; simpl; intros H; [reflexivity|].
  inversion H as [|? ? H1 H2]; subst. simpl in H1. rewrite H1.
  rewrite IH; auto.
Qed.

Lemma map_set_overrides (k2 : jsval) (v2 : entry) (m : list (jsval * entry))
  (k : jsval) (v : entry) :
  map_ok m -> In (k, v) (JS.map_set k2 v2 m) ->
  JS.same_value_zero k k2 = true -> v = v2.
Proof.
  intros [Hu _]. induction m as [|[k' v'] m IH]; simpl.
  - intros [E|[]] _. congruence.
  - inversion Hu as [|? ? Hhd Htl]; subst.
    destruct (JS.same_value_zero k' k2) eqn:E; simpl.
    + intros [E1|Hin] Hk; [congruence|].
      rewrite Forall_forall in Hhd. specialize (Hhd _ Hin). simpl in Hhd.
      rewrite (svz_congr_l _ _ k E) in Hhd.
      rewrite svz_sym in Hhd. congruence.
    + intros [E1|Hin] Hk; [|auto].
      injection E1 as -> ->. congruence.
Qed.

(* ================================================================== *)
(** * Uniqueness of dates *)

Lemma dates_unique_perm (l l' : list entry) :
  Permutation l l' -> dates_unique l -> dates_unique l'.
Proof.
  unfold dates_unique. induction 1 as [|x l l' Hp IH|x y l|l l' l'' ? IH1 ? IH2].
  - auto.
  - intros H. inversion H as [|? ? Hhd Htl]; subst.
    constructor; auto. eapply Permutation_Forall; eauto.
  - intros H. inversion H as [|? ? Hhd Htl]; subst.
    inversion Htl as [|? ? Hhd' Htl']; subst.
    inversion Hhd as [|? ? Hxy Hrest]; subst.
    constructor.
    + constructor; auto. rewrite svz_sym. exact Hxy.
    + constructor; auto.
  - auto.
Qed.

Lemma dates_unique_snoc (l : list entry) (x : entry) :
  dates_unique (l ++ [x])%list <->
  dates_unique l
  /\ Forall (fun a => JS.same_value_zero (date a) (date x) = false) l.
Proof.
  unfold dates_unique. induction l as [|y l IH]; simpl.
  - split; intros; [split|]; constructor; constructor.
  - split.
    + intros H. inversion H as [|? ? Hhd Htl]; subst.
      apply IH in Htl. destruct Htl as [H1 H2].
      apply Forall_app in Hhd. destruct Hhd as [Ha Hb].
      inversion Hb; subst.
      split; constructor; auto.
    + intros [H1 H2]. inversion H1 as [|? ? Hhd Htl]; subst.
      inversion H2 as [|? ? Hx Hrest]; subst.
      constructor.
      * apply Forall_app. split; auto.
      * apply IH. auto.
Qed.

Lemma dates_unique_filter (f : entry -> bool) (l : list entry) :
  dates_unique l -> dates_unique (filter f l).
Proof.
  unfold dates_unique. induction l as [|x l IH]; simpl; intros H; auto.
  inversion H as [|? ? Hhd Htl]; subst.
  destruct (f x); auto.
  constructor; auto.
  rewrite Forall_forall in *. intros e He. apply filter_In in He.
  apply Hhd. tauto.
Qed.

Lemma dates_unique_in (l : list entry) (a b : entry) :
  dates_unique l -> In a l -> In b l ->
  JS.same_value_zero (date a) (date b) = true -> a = b.
Proof.
  unfold dates_unique. induction l as [|x l IH]; simpl; [tauto|].
  intros H Ha Hb E. inversion H as [|? ? Hhd Htl]; subst.
  rewrite Forall_forall in Hhd.
  destruct Ha as [->|Ha], Hb as [->|Hb]; auto.
  - rewrite (Hhd _ Hb) in E. discriminate.
  - rewrite svz_sym in E. rewrite (Hhd _ Ha) in E. discriminate.
Qed.

(* ================================================================== *)
(** * The merge of a restore *)

Section MergeFacts.
Context (P : platform).

(** The entries after the merge are the values of the map, reordered. *)
Lemma mergeLogs_perm (es : list entry) (logs : list jsval) :
  Permutation
    (JS.map_values
       (fold_left (mergeLog P) logs
          (fold_left (fun m e => JS.map_set (date e) e m) es [])))
    (mergeLogs P es logs).
Proof.
  unfold mergeLogs, sortMerged. fold (mergedValues P es logs).
  destruct (JS.sort (compareNewestFirst P) (mergedValues P es logs))
    as [s| |] eqn:Hs; try apply Permutation_refl.
  eapply sort_perm. exact Hs.
Qed.

(** The comparator of the restore returns on dates that are not objects. *)
Lemma compareNewestFirst_returns (a b : entry) :
  primitive (date a) = true -> primitive (date b) = true ->
  exists c, compareNewestFirst P a b = Ok c.
Proof.
  unfold compareNewestFirst, newDate.
  destruct (date a), (date b); simpl; try discriminate; eauto.
Qed.

Lemma sortMerged_returns (es : list entry) (logs : list jsval) :
  Forall (fun e => primitive (date e) = true) (mergedValues P es logs) ->
  exists s, sortMerged P es logs = Ok s.
Proof.
  intros H. unfold sortMerged.
  apply (sort_returns_in _ (fun e => primitive (date e) = true)); auto.
  intros a b. apply compareNewestFirst_returns.
Qed.

Lemma existing_map_ok (es : list entry) (m : list (jsval * entry)) :
  map_ok m -> map_ok (fold_left (fun m e => JS.map_set (date e) e m) es m).
Proof.
  revert m. induction es as [|e es IH]; simpl; intros m H; auto.
  apply IH. apply map_set_ok. exact H.
Qed.

Lemma mergeLog_ok (m : list (jsval * entry)) (inLog : jsval) :
  map_ok m -> map_ok (mergeLog P m inLog).
Proof.
  intros H. unfold mergeLog. destruct (importable inLog); simpl; auto.
  apply (map_set_ok (importedEntry P inLog)). exact H.
Qed.

Lemma merged_map_ok (logs : list jsval) (m : list (jsval * entry)) :
  map_ok m -> map_ok (fold_left (mergeLog P) logs m).
Proof.
  revert m. induction logs as [|l logs IH]; simpl; intros m H; auto.
  apply IH. apply mergeLog_ok. exact H.
Qed.

Lemma mergeLogs_unique (es : list entry) (logs : list jsval) :
  dates_unique (mergeLogs P es logs).
Proof.
  eapply dates_unique_perm; [apply mergeLogs_perm|].
  apply map_ok_values. apply merged_map_ok. apply existing_map_ok.
  apply map_ok_nil.
Qed.

Lemma existing_map_unique (es : list entry) :
  dates_unique es ->
  fold_left (fun m e => JS.map_set (date e) e m) es []
  = List.map (fun e => (date e, e)) es.
Proof.
  induction es as [|x es IH] using rev_ind; intros H; [reflexivity|].
  apply dates_unique_snoc in H. destruct H as [H1 H2].
  rewrite fold_left_app. simpl. rewrite IH by exact H1.
  rewrite map_app. simpl. apply map_set_fresh.
  apply Forall_forall. intros p Hp. apply in_map_iff in Hp.
  destruct Hp as [e [<- He]]. simpl.
  rewrite Forall_forall in H2. apply H2. exact He.
Qed.

(** A pair whose key no record of [logs] carries stays in the map. *)
Lemma merged_keeps (logs : list jsval) (m : list (jsval * entry))
  (k : jsval) (v : entry) :
  In (k, v) m ->
  Forall (fun inLog =>
            JS.same_value_zero (JS.prop_of inLog "date") k = false) logs ->
  In (k, v) (fold_left (mergeLog P) logs m).
Proof.
  revert m. induction logs as [|l logs IH]; simpl; intros m Hin H; auto.
  inversion H as [|? ? H1 H2]; subst.
  apply IH; auto. unfold mergeLog.
  destruct (importable l); simpl; auto.
  apply map_set_in_other; auto. rewrite svz_sym. exact H1.
Qed.

(** Every value of the merged map is an old value or an imported record. *)
Lemma merged_origin (logs : list jsval) (m : list (jsval * entry))
  (k : jsval) (v : entry) :
  In (k, v) (fold_left (mergeLog P) logs m) ->
  In v (JS.map_values m)
  \/ exists inLog, In inLog logs /\ importable inLog = true
                   /\ v = importedEntry P inLog.
Proof.
  revert m. induction logs as [|l logs IH]; simpl; intros m H.
  - left. unfold JS.map_values. apply in_map_iff. exists (k, v). auto.
  - destruct (IH _ H) as [Hv|[inLog [H1 [H2 H3]]]].
    + unfold mergeLog in Hv. destruct (importable l) eqn:El; simpl in Hv.
      * unfold JS.map_values in Hv. apply in_map_iff in Hv.
        destruct Hv as [[k' v'] [E Hin]]. simpl in E. subst v'.
        apply map_set_in_inv in Hin. destruct Hin as [Hin|[-> _]].
        -- left. unfold JS.map_values. apply in_map_iff.
           exists (k', v). auto.
        -- right. exists l. auto.
      * auto.
    + right. exists inLog. auto.
Qed.

Lemma existing_map_values (es : list entry) (m : list (jsval * entry))
  (v : entry) :
  In v (JS.map_values (fold_left (fun m e => JS.map_set (date e) e m) es m)) ->
  In v (JS.map_values m) \/ In v es.
Proof.
  revert m. induction es as [|e es IH]; simpl; intros m H; auto.
  destruct (IH _ H) as [Hv|Hv]; auto.
  unfold JS.map_values in Hv. apply in_map_iff in Hv.
  destruct Hv as [[k' v'] [E Hin]]. simpl in E. subst v'.
  apply map_set_in_inv in Hin. destruct Hin as [Hin|[-> _]]; auto.
  left. unfold JS.map_values. apply in_map_iff. exists (k', v). auto.
Qed.

(** Every merged value is an entry of the store or an imported record. *)
Lemma mergedValues_origin (es : list entry) (logs : list jsval)
  (v : entry) :
  In v (mergedValues P es logs) ->
  In v es
  \/ exists inLog, In inLog logs /\ importable inLog = true
                   /\ v = importedEntry P inLog.
Proof.
  unfold mergedValues, JS.map_values. intros H. apply in_map_iff in H.
  destruct H as [[k v'] [E Hin]]. simpl in E. subst v'.
  destruct (merged_origin _ _ _ _ Hin) as [Hold|Hnew]; auto.
  apply existing_map_values in Hold. destruct Hold as [[]|Hold]. auto.
Qed.

(** The sort of the restore returns when neither the store nor the backup
    holds a date that is an object. *)
Lemma sortMerged_returns_primitive (es : list entry) (logs : list jsval) :
  Forall (fun e => primitive (date e) = true) es ->
  Forall (fun inLog => primitive (JS.prop_of inLog "date") = true) logs ->
  exists s, sortMerged P es logs = Ok s.
Proof.
  intros He Hl. apply sortMerged_returns. apply Forall_forall.
  intros v Hv. rewrite Forall_forall in He, Hl.
  destruct (mergedValues_origin _ _ _ Hv) as [Hin|[l [Hin [_ ->]]]]; auto.
  simpl. auto.
Qed.

(** The record stored under a key equal to [d] is built from the last
    record of [logs] merged under such a key. *)
Lemma merged_last_wins (logs : list jsval) (m : list (jsval * entry))
  (d r : jsval) :
  map_ok m -> lastLogFor d logs = Some r ->
  (exists k, In (k, importedEntry P r) (fold_left (mergeLog P) logs m)
             /\ forall x, JS.same_value_zero k x = JS.same_value_zero d x)
  /\ forall k v, In (k, v) (fold_left (mergeLog P) logs m) ->
                 JS.same_value_zero k d = true -> v = importedEntry P r.
Proof.
  unfold lastLogFor.
  induction logs as [|l logs IH] using rev_ind; intros Hm Hr;
    [discriminate|].
  rewrite rev_app_distr in Hr. simpl in Hr.
  rewrite fold_left_app. simpl.
  set (m' := fold_left (mergeLog P) logs m) in *.
  assert (Hm' : map_ok m') by (apply merged_map_ok; exact Hm).
  unfold mergeLog. unfold for_date in Hr at 1.
  destruct (importable l) eqn:El; simpl in Hr |- *.
  - destruct (JS.same_value_zero (JS.prop_of l "date") d) eqn:Ed.
    + injection Hr as <-. split.
      * destruct (map_set_has_new (JS.prop_of l "date") (importedEntry P l) m')
          as [k [Hin Hk]].
        exists k. split; auto. intros x.
        destruct Hk as [->|Hk].
        -- apply svz_congr_l. exact Ed.
        -- rewrite (svz_congr_l _ _ x Hk). apply svz_congr_l. exact Ed.
      * intros k v Hin Hk. eapply map_set_overrides; eauto.
        apply svz_trans with d; auto. rewrite svz_sym. exact Ed.
    + destruct (IH Hm Hr) as [[k [Hin Hk]] Hall]. split.
      * exists k. split; auto. apply map_set_in_other; auto.
        rewrite Hk. rewrite svz_sym. exact Ed.
      * intros k' v Hin' Hk'.
        apply map_set_in_inv in Hin'.
        destruct Hin' as [Hin'|[_ [->|Hk2]]]; eauto.
        -- congruence.
        -- rewrite svz_sym in Hk2. rewrite (svz_congr_l _ _ _ Hk2) in Ed.
           congruence.
  - apply IH; auto.
Qed.

End MergeFacts.

(* ================================================================== *)
(** * Restoring a backup *)

Section RestoreFacts.
Context (P : platform).

(** What a restore does once the text has parsed to a value that is
    neither [null] nor [undefined]. *)
Lemma restore_parsed (jsonText : string) (parsed : jsval) (st : state) :
  JSON_parse P jsonText = Some parsed -> JS.nullish parsed = false ->
  let imported := JS.prop_of parsed "userSettings" in
  let r := restoreFullBackupJsonFromText P jsonText st in
  let st' := snd r in
  userSettings st'
  = (if JS.truthy imported then imported else userSettings st)
  /\ storedSettings st'
     = (if JS.truthy imported then Some (JSON_stringify P imported)
        else storedSettings st)
  /\ entries st'
     = match JS.prop_of parsed "logs" with
       | JArr logs => mergeLogs P (entries st) logs
       | _ => entries st
       end
  /\ match JS.prop_of parsed "logs" with
     | JArr logs =>
         match sortMerged P (entries st) logs with
         | Ok _ =>
             storedEntries st'
             = Some (JSON_stringify P
                       (JArr (List.map entry_to_js
                                (mergeLogs P (entries st) logs))))
             /\ alerts st'
                = (alerts st
                   ++ [AlertRestoreDone (List.length (entries st'))])%list
             /\ fst r = refreshAllUI P st'
         | _ =>
             storedEntries st' = storedEntries st
             /\ alerts st' = alerts st
             /\ fst r = Throws
         end
     | _ =>
         storedEntries st' = storedEntries st
         /\ alerts st'
            = (alerts st
               ++ [AlertRestoreDone (List.length (entries st))])%list
         /\ fst r = refreshAllUI P st'
     end.
Proof.
  intros Hp Hn. unfold restoreFullBackupJsonFromText, JS.get_prop.
  rewrite Hp, Hn. cbn [rbind].
  destruct (JS.truthy (JS.prop_of parsed "userSettings"));
    destruct (JS.prop_of parsed "logs") as [| | | | |logs|];
    cbn [entries userSettings storedEntries storedSettings alerts
         saveSettings];
    try (unfold restoreDone; simpl; auto 10; fail);
    destruct (sortMerged P (entries st) logs);
    unfold restoreDone; simpl; auto 10.
Qed.

Lemma restore_entries_cases (jsonText : string) (st : state) :
  entries (snd (restoreFullBackupJsonFromText P jsonText st)) = entries st
  \/ exists logs,
       entries (snd (restoreFullBackupJsonFromText P jsonText st))
       = mergeLogs P (entries st) logs.
Proof.
  destruct (JSON_parse P jsonText) as [parsed|] eqn:Hp.
  - destruct (JS.nullish parsed) eqn:Hn.
    + left. unfold restoreFullBackupJsonFromText, JS.get_prop.
      rewrite Hp, Hn. reflexivity.
    + destruct (restore_parsed jsonText parsed st Hp Hn)
        as (_ & _ & He & _).
      rewrite He. destruct (JS.prop_of parsed "logs"); eauto.
  - left. unfold restoreFullBackupJsonFromText. rewrite Hp. reflexivity.
Qed.

Lemma addOrReplace_unique (newEntry : entry) (s : string) (es : list entry) :
  date newEntry = JStr s ->
  dates_unique es -> dates_unique (addOrReplace newEntry es).
Proof.
  intros Hd H. unfold addOrReplace. apply dates_unique_snoc. split.
  - apply dates_unique_filter. exact H.
  - apply Forall_forall. intros e He. apply filter_In in He.
    destruct He as [_ He]. rewrite Hd in *. rewrite svz_string_l.
    apply negb_true_iff. exact He.
Qed.

Lemma submitEntryForm_unique (now : Date) (f : entryForm) (st : state) :
  dates_unique (entries st) ->
  dates_unique (entries (submitEntryForm P now f st)).
Proof.
  intros H. unfold submitEntryForm.
  match goal with
  | |- context [if ?c then show_alert AlertInvalidWeight st else _] =>
      destruct c
  end.
  - exact H.
  - cbv zeta. destruct (refreshAllUI P _); simpl;
      (eapply addOrReplace_unique; [reflexivity|exact H]).
Qed.

Lemma step_unique (a : action) (st : state) :
  dates_unique (entries st) -> dates_unique (entries (step P a st)).
Proof.
  intros H. destruct a as [now f|jsonText]; simpl.
  - apply submitEntryForm_unique. exact H.
  - destruct (restore_entries_cases jsonText st) as [->|[logs ->]].
    + exact H.
    + apply mergeLogs_unique.
Qed.

End RestoreFacts.

(** C1. Invariant I1 (date uniqueness): from a store in which no two
    entries share a date, every sequence of quick-entry submissions
    (replace by date) and backup restores (merge) leaves a store with at
    most one entry per date. *)
Theorem date_uniqueness_invariant (P : platform) (acts : list action)
  (st : state) :
  dates_unique (entries st) -> dates_unique (entries (run P acts st)).
Proof.
  unfold run. revert st. induction acts as [|a acts IH]; simpl; intros st H.
  - exact H.
  - apply IH. apply step_unique. exact H.
Qed.

Lemma date_uniqueness_invariant_witness :
  dates_unique (entries sampleState)
  /\ dates_unique
       (entries
          (run samplePlatform
             [QuickEntry (DateObj.ofYMD 2024 0 9)
                (mkEntryForm (Some "79.5") (Some "30") "2024-01-08"
                             "הליכה" "");
              RestoreBackup "logs-only"]
             sampleState)).
Proof.
  assert (H : dates_unique (entries sampleState)).
  { unfold dates_unique. simpl. repeat constructor. }
  split; [exact H|].
  apply (date_uniqueness_invariant samplePlatform _ sampleState). exact H.
Defined.

(** C2. Merge non-destructiveness: restoring a backup whose [logs] array
    covers the dates D leaves every entry of the store (a store satisfies
    I1) whose date is not in D present and unchanged. *)
Theorem merge_import_preserves_other_dates (P : platform)
  (jsonText : string) (parsed : jsval) (logs : list jsval) (st : state)
  (e : entry) :
  JSON_parse P jsonText = Some parsed ->
  JS.nullish parsed = false ->
  JS.prop_of parsed "logs" = JArr logs ->
  dates_unique (entries st) ->
  In e (entries st) ->
  Forall (fun inLog =>
            JS.same_value_zero (JS.prop_of inLog "date") (date e) = false)
         logs ->
  In e (entries (snd (restoreFullBackupJsonFromText P jsonText st))).
Proof.
  intros Hp Hn Hl Hu He Hd.
  destruct (restore_parsed P jsonText parsed st Hp Hn) as (_ & _ & E & _).
  rewrite E, Hl.
  eapply Permutation_in; [apply mergeLogs_perm|].
  unfold JS.map_values. apply in_map_iff. exists (date e, e). split; auto.
  apply merged_keeps; auto.
  rewrite existing_map_unique by exact Hu.
  apply in_map_iff. exists e. auto.
Qed.

Lemma merge_import_preserves_other_dates_witness :
  In sampleEntry2
     (entries (snd (restoreFullBackupJsonFromText samplePlatform "logs-only"
                      sampleState))).
Proof.
  apply (merge_import_preserves_other_dates samplePlatform "logs-only"
           (JObj [("logs", JArr [sampleLog])]) [sampleLog] sampleState
           sampleEntry2).
  - reflexivity.
  - reflexivity.
  - reflexivity.
  - unfold dates_unique. simpl. repeat constructor.
  - simpl. auto.
  - repeat constructor.
Defined.



(** C7. Malformed-import atomicity: when the text does not parse as JSON,
    the restore reports the malformed-JSON error and returns; the entries,
    the settings and both persisted items are exactly as before. *)
Theorem malformed_import_is_atomic (P : platform) (jsonText : string)
  (st : state) :
  JSON_parse P jsonText = None ->
  let r := restoreFullBackupJsonFromText P jsonText st in
  fst r = Ok tt
  /\ entries (snd r) = entries st
  /\ userSettings (snd r) = userSettings st
  /\ storedEntries (snd r) = storedEntries st
  /\ storedSettings (snd r) = storedSettings st
  /\ alerts (snd r) = (alerts st ++ [AlertBadJson])%list.
Proof.
  intros Hp r. unfold r, restoreFullBackupJsonFromText. rewrite Hp.
  simpl. auto 10.
Qed.

Lemma malformed_import_is_atomic_witness :
  let r := restoreFullBackupJsonFromText samplePlatform "{not json"
             sampleState in
  fst r = Ok tt
  /\ entries (snd r) = entries sampleState
  /\ userSettings (snd r) = userSettings sampleState
  /\ storedEntries (snd r) = storedEntries sampleState
  /\ storedSettings (snd r) = storedSettings sampleState
  /\ alerts (snd r) = (alerts sampleState ++ [AlertBadJson])%list.
Proof.
  apply (malformed_import_is_atomic samplePlatform "{not json" sampleState).
  reflexivity.
Defined.




(* ================================================================== *)
(** * Loading persisted state *)

(** C9. Corrupt-storage recovery.  [loadEntries] returns the stored array
    when the item parses as a JSON array, and the empty array when the
    item is missing, does not parse (the error goes to the console only),
    or parses to something that is not an array.  [loadSettings] returns
    the default record (empty name, [null] height, [null] weigh-in day,
    empty picture link) when the item is missing or does not parse, the
    error going to the console only.  Both are total: no exception leaves
    them. *)
Theorem corrupt_storage_recovery (P : platform) :
  (loadEntries P None = ([], false)
   /\ (forall r items,
          JSON_parse P r = Some (JArr items) ->
          loadEntries P (Some r) = (items, false))
   /\ (forall r,
          JSON_parse P r = None ->
          fst (loadEntries P (Some r)) = []
          /\ (r <> "" -> snd (loadEntries P (Some r)) = true))
   /\ (forall r v,
          JSON_parse P r = Some v -> JS.isArray v = false ->
          loadEntries P (Some r) = ([], false)))
  /\ (loadSettings P None = (defaultSettings, false)
      /\ (forall r,
             JSON_parse P r = None ->
             fst (loadSettings P (Some r)) = defaultSettings
             /\ (r <> "" -> snd (loadSettings P (Some r)) = true))
      /\ (forall r,
             JSON_parse P r = Some JNull ->
             loadSettings P (Some r) = (defaultSettings, true))).
Proof.
  split.
  - split; [reflexivity|]. split; [|split].
    + intros r items Hp. unfold loadEntries, parseJson.
      destruct (String.eqb_spec r "") as [->|Hne].
      * rewrite (JSON_parse_empty P) in Hp. discriminate.
      * rewrite Hp. reflexivity.
    + intros r Hp. unfold loadEntries, parseJson. rewrite Hp.
      destruct (String.eqb_spec r "") as [->|Hne]; simpl; split; auto;
        congruence.
    + intros r v Hp Ha. unfold loadEntries, parseJson.
      destruct (String.eqb_spec r "") as [->|Hne].
      * rewrite (JSON_parse_empty P) in Hp. discriminate.
      * rewrite Hp. destruct v; simpl in *; try reflexivity. discriminate.
  - split; [reflexivity|]. split.
    + intros r Hp. unfold loadSettings, parseJson. rewrite Hp.
      destruct (String.eqb_spec r "") as [->|Hne]; simpl; split; auto;
        congruence.
    + intros r Hp. unfold loadSettings, parseJson.
      destruct (String.eqb_spec r "") as [->|Hne].
      * rewrite (JSON_parse_empty P) in Hp. discriminate.
      * rewrite Hp. reflexivity.
Qed.

Lemma corrupt_storage_recovery_witness :
  loadEntries samplePlatform (Some "{not json") = ([], true)
  /\ loadSettings samplePlatform (Some "{not json") = (defaultSettings, true)
  /\ loadSettings samplePlatform (Some "null") = (defaultSettings, true).
Proof.
  destruct (corrupt_storage_recovery samplePlatform)
    as [(_ & _ & He & _) (_ & Hs & Hn)].
  destruct (He "{not json" eq_refl) as [He1 He2].
  destruct (Hs "{not json" eq_refl) as [Hs1 Hs2].
  split; [|split].
  - rewrite (surjective_pairing (loadEntries samplePlatform _)).
    rewrite He1, He2; [reflexivity|discriminate].
  - rewrite (surjective_pairing (loadSettings samplePlatform _)).
    rewrite Hs1, Hs2; [reflexivity|discriminate].
  - apply Hn. reflexivity.
Defined.

(* ================================================================== *)
(** * Export then restore *)

Lemma dates_unique_NoDup (l : list entry) :
  Forall (fun e => JS.same_value_zero (date e) (date e) = true) l ->
  dates_unique l -> NoDup l.
Proof.
  unfold dates_unique. induction l as [|x l IH]; intros Hr Hu.
  - constructor.
  - inversion Hr as [|? ? Hx Hl]; subst.
    inversion Hu as [|? ? Hhd Htl]; subst.
    constructor; auto.
    intros Hin. rewrite Forall_forall in Hhd.
    rewrite (Hhd _ Hin) in Hx. discriminate.
Qed.

Lemma shaped_date_refl (e : entry) :
  entry_shaped e = true -> JS.same_value_zero (date e) (date e) = true.
Proof.
  unfold entry_shaped. destruct (date e); simpl; try discriminate.
  intros _. apply String.eqb_refl.
Qed.

Lemma lastLogFor_exists (d : jsval) (logs : list jsval) (l : jsval) :
  In l logs -> for_date d l = true ->
  exists r, lastLogFor d logs = Some r /\ In r logs /\ for_date d r = true.
Proof.
  intros Hin Hf. unfold lastLogFor.
  destruct (find (for_date d) (rev logs)) as [r|] eqn:E.
  - apply find_some in E. destruct E as [E1 E2].
    exists r. repeat split; auto. apply in_rev. exact E1.
  - apply in_rev in Hin. rewrite (find_none _ _ E l Hin) in Hf.
    discriminate.
Qed.

Lemma or_else_string (s : string) :
  JS.or_else (JStr s) (JStr "") = JStr s.
Proof.
  unfold JS.or_else. simpl. destruct (String.eqb_spec s "") as [->|];
    reflexivity.
Qed.

Section RoundTrip.
Context (P : platform).

Lemma shaped_roundtrip (e : entry) :
  entry_shaped e = true ->
  importable (entry_to_js e) = true
  /\ importedEntry P (entry_to_js e) = e
  /\ JS.prop_of (entry_to_js e) "date" = date e.
Proof.
  destruct e as [d w a n dm]. unfold entry_shaped. simpl.
  destruct d as [| | | |s| |]; simpl; try discriminate.
  destruct (String.eqb s "") eqn:Es; simpl; try discriminate.
  destruct w; simpl; try discriminate;
    destruct a; simpl; try discriminate;
    destruct n; simpl; try discriminate;
    destruct dm; simpl; try discriminate; intros _;
    unfold importable, importedEntry; simpl; rewrite Es; simpl;
    rewrite !or_else_string; auto.
Qed.

(** Merging the exported records of [es] into a store whose dates all
    occur in [es] yields the entries of [es]. *)
Lemma merge_of_export (es es0 : list entry) :
  dates_unique es ->
  forallb entry_shaped es = true ->
  (forall e0, In e0 es0 ->
     exists e, In e es /\ JS.same_value_zero (date e0) (date e) = true) ->
  Permutation (mergeLogs P es0 (List.map entry_to_js es)) es.
Proof.
  intros Hu Hs Hsub. rewrite forallb_forall in Hs.
  set (logs := List.map entry_to_js es).
  set (m0 := fold_left (fun m e => JS.map_set (date e) e m) es0 []).
  assert (Hm0 : map_ok m0) by (apply existing_map_ok, map_ok_nil).
  assert (Hlast : forall e, In e es ->
            lastLogFor (date e) logs = Some (entry_to_js e)).
  { intros e He.
    destruct (shaped_roundtrip e (Hs e He)) as (Hi & _ & Hd).
    destruct (lastLogFor_exists (date e) logs (entry_to_js e))
      as (r & Hr & Hin & Hf).
    - apply in_map. exact He.
    - unfold for_date. rewrite Hi, Hd. apply shaped_date_refl. auto.
    - rewrite Hr. f_equal. apply in_map_iff in Hin.
      destruct Hin as [e' [<- He']]. f_equal.
      destruct (shaped_roundtrip e' (Hs e' He')) as (_ & _ & Hd').
      unfold for_date in Hf. apply andb_true_iff in Hf.
      destruct Hf as [_ Hf]. rewrite Hd' in Hf.
      eapply dates_unique_in; eauto. }
  assert (Hsubset : forall x, In x (mergeLogs P es0 logs) -> In x es).
  { intros x Hx.
    eapply Permutation_in in Hx;
      [|apply Permutation_sym, mergeLogs_perm].
    fold m0 in Hx. unfold JS.map_values in Hx. apply in_map_iff in Hx.
    destruct Hx as [[k v] [<- Hin]]. simpl.
    destruct (merged_origin P logs m0 k v Hin) as [Hold|[l [Hl [_ ->]]]].
    - unfold m0 in Hold. apply existing_map_values in Hold.
      destruct Hold as [[]|Hold].
      destruct (Hsub v Hold) as [e [He Hd]].
      destruct (merged_last_wins P logs m0 (date e) (entry_to_js e) Hm0
                  (Hlast e He)) as [_ Hall].
      pose proof (merged_map_ok P logs m0 Hm0) as [_ Hk].
      rewrite Forall_forall in Hk. specialize (Hk _ Hin). simpl in Hk.
      rewrite (Hall k v Hin); [|rewrite Hk; exact Hd].
      destruct (shaped_roundtrip e (Hs e He)) as (_ & -> & _). exact He.
    - apply in_map_iff in Hl. destruct Hl as [e [<- He]].
      destruct (shaped_roundtrip e (Hs e He)) as (_ & -> & _). exact He. }
  apply NoDup_Permutation.
  - apply dates_unique_NoDup; [|apply mergeLogs_unique].
    apply Forall_forall. intros x Hx. apply shaped_date_refl. auto.
  - apply dates_unique_NoDup; auto.
    apply Forall_forall. intros x Hx. apply shaped_date_refl. auto.
  - intros x. split; [apply Hsubset|].
    intros Hx.
    destruct (merged_last_wins P logs m0 (date x) (entry_to_js x) Hm0
                (Hlast x Hx)) as [[k [Hin _]] _].
    destruct (shaped_roundtrip x (Hs x Hx)) as (_ & Hi & _).
    rewrite Hi in Hin.
    eapply Permutation_in; [apply mergeLogs_perm|].
    fold m0. unfold JS.map_values. apply in_map_iff.
    exists (k, x). auto.
Qed.

(** The sort of that merge returns: the dates it converts are strings. *)
Lemma sort_of_export (es es0 : list entry) :
  dates_unique es ->
  forallb entry_shaped es = true ->
  (forall e0, In e0 es0 ->
     exists e, In e es /\ JS.same_value_zero (date e0) (date e) = true) ->
  exists sorted, sortMerged P es0 (List.map entry_to_js es) = Ok sorted.
Proof.
  intros Hu Hs Hsub. apply sortMerged_returns.
  apply Forall_forall. intros v Hv.
  assert (Hin : In v es).
  { eapply Permutation_in; [apply merge_of_export; eauto|].
    eapply Permutation_in; [apply mergeLogs_perm|]. exact Hv. }
  rewrite forallb_forall in Hs. specialize (Hs v Hin).
  unfold entry_shaped in Hs. destruct (date v); try discriminate.
  reflexivity.
Qed.

Lemma model_entries_shaped (es : list entry) :
  forallb model_entry es = true -> forallb entry_shaped es = true.
Proof.
  rewrite !forallb_forall. intros Hm e He.
  specialize (Hm e He). unfold model_entry in Hm.
  apply andb_true_iff in Hm. destruct Hm as [Hm _].
  apply andb_true_iff in Hm. destruct Hm as [Hm _]. exact Hm.
Qed.

End RoundTrip.

(** C8. Export/import round trip.  Take a store that satisfies I1 and whose
    entries are those of the data model (a non-empty date string, a weight
    and a duration that are absent or positive reals, an activity label and
    notes that are strings), and settings that are an object.  Suppose the
    engine's parser reads the text that [JSON.stringify] writes for the
    envelope of that store and those settings back as that envelope.  Then
    restoring the text [exportFullBackupJson] produces, into the same store
    or into any store whose dates all occur in the backup (an empty one, for
    instance), leaves the same set of entries and the same settings, in the
    globals and in the persisted items; and the restore completes exactly
    when the refresh of the page that ends it does. *)
Theorem export_import_roundtrip (P : platform) (exportedAt : string)
  (st st0 : state) :
  dates_unique (entries st) ->
  forallb model_entry (entries st) = true ->
  JS.truthy (userSettings st) = true ->
  JSON_parse P
    (JSON_stringify_pretty P
       (JObj [("version", JNum 1%float); ("exportedAt", JStr exportedAt);
              ("userSettings", userSettings st);
              ("logs", JArr (List.map entry_to_js (entries st)))]))
  = Some (JObj [("version", JNum 1%float); ("exportedAt", JStr exportedAt);
                ("userSettings", userSettings st);
                ("logs", JArr (List.map entry_to_js (entries st)))]) ->
  (forall e0, In e0 (entries st0) ->
     exists e, In e (entries st)
               /\ JS.same_value_zero (date e0) (date e) = true) ->
  let r :=
    restoreFullBackupJsonFromText P (exportFullBackupJson P exportedAt st)
      st0 in
  fst r = refreshAllUI P (snd r)
  /\ Permutation (entries (snd r)) (entries st)
  /\ userSettings (snd r) = userSettings st
  /\ storedEntries (snd r)
     = Some (JSON_stringify P
               (JArr (List.map entry_to_js (entries (snd r)))))
  /\ storedSettings (snd r) = Some (JSON_stringify P (userSettings st)).
Proof.
  intros Hu Hm Ht Hp Hsub r.
  pose proof (model_entries_shaped _ Hm) as Hs.
  pose proof (merge_of_export P (entries st) (entries st0) Hu Hs Hsub)
    as Hperm.
  destruct (sort_of_export P (entries st) (entries st0) Hu Hs Hsub)
    as [sorted Hsorted].
  destruct (restore_parsed P _ _ st0 Hp eq_refl) as (H1 & H2 & H3 & H4).
  fold (backupEnvelope exportedAt st) in H1, H2, H3, H4.
  fold (exportFullBackupJson P exportedAt st) in H1, H2, H3, H4.
  fold r in H1, H2, H3, H4. simpl in H1, H2, H3, H4.
  rewrite Ht in H1, H2. rewrite Hsorted in H4.
  destruct H4 as (H4 & _ & H5).
  repeat split; auto.
  - rewrite H3. exact Hperm.
  - rewrite H4, H3. reflexivity.
Qed.

Lemma export_import_roundtrip_witness :
  let r :=
    restoreFullBackupJsonFromText samplePlatform
      (exportFullBackupJson samplePlatform sampleExportedAt sampleState)
      (mkState [] JNull None None []) in
  fst r = Ok tt
  /\ Permutation (entries (snd r)) [sampleEntry1; sampleEntry2]
  /\ userSettings (snd r) = sampleSettings
  /\ storedEntries (snd r)
     = Some (JSON_stringify samplePlatform
               (JArr (List.map entry_to_js (entries (snd r)))))
  /\ storedSettings (snd r)
     = Some (JSON_stringify samplePlatform sampleSettings).
Proof.
  apply (export_import_roundtrip samplePlatform sampleExportedAt
           sampleState (mkState [] JNull None None [])).
  - unfold dates_unique. simpl. repeat constructor.
  - reflexivity.
  - reflexivity.
  - reflexivity.
  - intros e0 [].
Defined.

(* ================================================================== *)
(** * The order of strings *)

Lemma ascii_compare_trans (a b c : ascii) :
  Ascii.compare a b = Lt -> Ascii.compare b c = Lt -> Ascii.compare a c = Lt.
Proof.
  unfold Ascii.compare. rewrite !N.compare_lt_iff. lia.
Qed.

Lemma ascii_compare_refl (a : ascii) : Ascii.compare a a = Eq.
Proof. unfold Ascii.compare. apply N.compare_refl. Qed.

Lemma string_compare_refl (s : string) : String.compare s s = Eq.
Proof.
  induction s as [|a s IH]; simpl; [reflexivity|].
  rewrite ascii_compare_refl. exact IH.
Qed.

Lemma string_compare_trans (a b c : string) :
  String.compare a b = Lt -> String.compare b c = Lt ->
  String.compare a c = Lt.
Proof.
  revert b c. induction a as [|x a IH]; intros [|y b] [|z c]; simpl;
    try discriminate; auto.
  destruct (Ascii.compare x y) eqn:Exy; try discriminate;
    destruct (Ascii.compare y z) eqn:Eyz; try discriminate.
  - apply Ascii.compare_eq_iff in Exy, Eyz. subst.
    rewrite ascii_compare_refl. apply IH.
  - apply Ascii.compare_eq_iff in Exy. subst. rewrite Eyz. auto.
  - apply Ascii.compare_eq_iff in Eyz. subst. rewrite Exy. auto.
  - rewrite (ascii_compare_trans x y z Exy Eyz). auto.
Qed.

Lemma compare_units_refl (a : list N) : compare_units a a = Eq.
Proof.
  induction a as [|x a IH]; simpl; [reflexivity|].
  rewrite N.compare_refl. exact IH.
Qed.

Lemma compare_units_eq (a b : list N) : compare_units a b = Eq -> a = b.
Proof.
  revert b. induction a as [|x a IH]; intros [|y b]; simpl;
    try discriminate; auto.
  destruct (x ?= y)%N eqn:E; try discriminate.
  apply N.compare_eq_iff in E. subst. intros H. f_equal. auto.
Qed.

Lemma compare_units_antisym (a b : list N) :
  compare_units b a = CompOpp (compare_units a b).
Proof.
  revert b. induction a as [|x a IH]; intros [|y b]; simpl; auto.
  rewrite (N.compare_antisym x y).
  destruct (x ?= y)%N; simpl; auto.
Qed.

Lemma compare_units_trans (a b c : list N) :
  compare_units a b = Lt -> compare_units b c = Lt ->
  compare_units a c = Lt.
Proof.
  revert b c. induction a as [|x a IH]; intros [|y b] [|z c]; simpl;
    try discriminate; auto.
  destruct (x ?= y)%N eqn:Exy; try discriminate;
    destruct (y ?= z)%N eqn:Eyz; try discriminate.
  - apply N.compare_eq_iff in Exy, Eyz. subst.
    rewrite N.compare_refl. apply IH.
  - apply N.compare_eq_iff in Exy. subst. rewrite Eyz. auto.
  - apply N.compare_eq_iff in Eyz. subst. rewrite Exy. auto.
  - apply N.compare_lt_iff in Exy, Eyz.
    assert (E : (x ?= z)%N = Lt)
      by (apply N.compare_lt_iff; eapply N.lt_trans; eauto).
    rewrite E. auto.
Qed.

Lemma string_lt_irrefl (s : string) : string_lt s s = false.
Proof.
  unfold string_lt, String.ltb.
  rewrite compare_units_refl, string_compare_refl. reflexivity.
Qed.

Lemma string_lt_trans (a b c : string) :
  string_lt a b = true -> string_lt b c = true -> string_lt a c = true.
Proof.
  unfold string_lt, String.ltb.
  destruct (compare_units (utf16 a) (utf16 b)) eqn:E1; try discriminate;
    destruct (compare_units (utf16 b) (utf16 c)) eqn:E2; try discriminate.
  - apply compare_units_eq in E1, E2. rewrite E1, E2.
    rewrite compare_units_refl.
    destruct (String.compare a b) eqn:C1; try discriminate.
    destruct (String.compare b c) eqn:C2; try discriminate.
    rewrite (string_compare_trans a b c C1 C2). reflexivity.
  - apply compare_units_eq in E1. rewrite E1, E2. reflexivity.
  - apply compare_units_eq in E2. rewrite <- E2, E1. reflexivity.
  - rewrite (compare_units_trans _ _ _ E1 E2). reflexivity.
Qed.

Lemma string_lt_antisym (a b : string) :
  string_lt a b = false -> string_lt b a = false -> a = b.
Proof.
  unfold string_lt, String.ltb.
  rewrite (compare_units_antisym (utf16 a) (utf16 b)).
  rewrite (String.compare_antisym a b).
  destruct (compare_units (utf16 a) (utf16 b)); simpl; try discriminate.
  destruct (String.compare b a) eqn:E; simpl; try discriminate.
  intros _ _. apply String.compare_eq_iff in E. symmetry. exact E.
Qed.

(* ================================================================== *)
(** * The latest weight up to a date *)

Section LatestWeight.
Context (P : platform) (limit : jsval).

Lemma latest_step_skips (acc : jsval * jsval) (e : entry) :
  eligible P limit e = false -> latest_step P limit acc e = acc.
Proof.
  unfold eligible, latest_step. intros H.
  destruct (JS.is_real_number (weight e)); simpl in *; [|reflexivity].
  apply negb_false_iff in H. rewrite H. reflexivity.
Qed.

Lemma latest_step_takes (acc : jsval * jsval) (e : entry) :
  eligible P limit e = true ->
  latest_step P limit acc e
  = if negb (JS.truthy (snd acc)) || js_gt P (date e) (snd acc)
    then (weight e, date e) else acc.
Proof.
  unfold eligible, latest_step. intros H.
  apply andb_true_iff in H. destruct H as [H1 H2].
  apply negb_true_iff in H2. rewrite H1, H2. reflexivity.
Qed.

Lemma eligible_weight (e : entry) :
  eligible P limit e = true -> JS.is_real_number (weight e) = true.
Proof. unfold eligible. intros H. apply andb_true_iff in H. tauto. Qed.

Lemma latest_fold_none (es : list entry) :
  let acc := fold_left (latest_step P limit) es (JNull, JNull) in
  (acc = (JNull, JNull)
   /\ forall e, In e es -> eligible P limit e = false)
  \/ (JS.is_real_number (fst acc) = true
      /\ exists e, In e es /\ eligible P limit e = true).
Proof.
  induction es as [|x es IH] using rev_ind; cbv zeta in *.
  - left. split; [reflexivity|]. intros e [].
  - rewrite fold_left_app. simpl.
    destruct (eligible P limit x) eqn:Ex.
    + right. split.
      * rewrite latest_step_takes by exact Ex.
        destruct IH as [[IH _]|[IH _]].
        -- rewrite IH. simpl. apply eligible_weight. exact Ex.
        -- destruct (negb _ || _); simpl; [|exact IH].
           apply eligible_weight. exact Ex.
      * exists x. split; [apply in_or_app; right; left; reflexivity|exact Ex].
    + rewrite latest_step_skips by exact Ex.
      destruct IH as [[IH1 IH2]|[IH1 [e [He1 He2]]]].
      * left. split; [exact IH1|].
        intros e He. apply in_app_or in He.
        destruct He as [He|[<-|[]]]; auto.
      * right. split; [exact IH1|]. exists e. split; auto.
        apply in_or_app. left. exact He1.
Qed.

Lemma latest_weight_fold_max (es : list entry) :
  Forall (fun e => string_date e = true) es ->
  let acc := fold_left (latest_step P limit) es (JNull, JNull) in
  (acc = (JNull, JNull)
   /\ forall e, In e es -> eligible P limit e = false)
  \/ exists e, In e es /\ eligible P limit e = true
               /\ acc = (weight e, date e)
               /\ forall e', In e' es -> eligible P limit e' = true ->
                             js_gt P (date e') (date e) = false.
Proof.
  induction es as [|x es IH] using rev_ind; cbv zeta in *; intros Hs.
  - left. split; [reflexivity|]. intros e [].
  - apply Forall_app in Hs. destruct Hs as [Hs Hx].
    inversion Hx as [|? ? Hx' _]; subst. clear Hx.
    specialize (IH Hs). rewrite fold_left_app. simpl.
    destruct (eligible P limit x) eqn:Ex.
    + right. rewrite latest_step_takes by exact Ex.
      unfold string_date in Hx'.
      destruct (date x) as [| | | |sx| |] eqn:Edx; try discriminate.
      destruct IH as [[IH1 IH2]|[e [He1 [He2 [He3 He4]]]]].
      * rewrite IH1. simpl. exists x.
        split; [apply in_or_app; right; left; reflexivity|].
        split; [exact Ex|]. split; [rewrite Edx; reflexivity|].
        intros e' He' Ee'. apply in_app_or in He'.
        destruct He' as [He'|[<-|[]]].
        -- rewrite (IH2 _ He') in Ee'. discriminate.
        -- rewrite Edx. simpl. apply string_lt_irrefl.
      * rewrite He3. cbn [snd].
        rewrite Forall_forall in Hs. pose proof (Hs e He1) as Hde.
        unfold string_date in Hde.
        destruct (date e) as [| | | |se| |] eqn:Ede; try discriminate.
        simpl in Hde. cbn [JS.truthy js_gt]. rewrite Hde. cbn [negb orb].
        destruct (string_lt se sx) eqn:Elt.
        -- exists x.
           split; [apply in_or_app; right; left; reflexivity|].
           split; [exact Ex|]. split; [rewrite Edx; reflexivity|].
           intros e' He' Ee'. apply in_app_or in He'.
           destruct He' as [He'|[<-|[]]].
           ++ pose proof (He4 e' He' Ee') as Hle.
              pose proof (Hs e' He') as Hde'. unfold string_date in Hde'.
              destruct (date e') as [| | | |s'| |]; try discriminate.
              rewrite Edx. simpl in *.
              destruct (string_lt sx s') eqn:E2; [|reflexivity].
              rewrite (string_lt_trans se sx s' Elt E2) in Hle.
              discriminate.
           ++ rewrite Edx. simpl. apply string_lt_irrefl.
        -- exists e. split; [apply in_or_app; left; exact He1|].
           split; [exact He2|]. split; [rewrite Ede; reflexivity|].
           intros e' He' Ee'. apply in_app_or in He'.
           destruct He' as [He'|[<-|[]]].
           ++ rewrite Ede. apply He4; auto.
           ++ rewrite Edx, Ede. simpl. exact Elt.
    + rewrite latest_step_skips by exact Ex.
      destruct IH as [[IH1 IH2]|[e [He1 [He2 [He3 He4]]]]].
      * left. split; [exact IH1|].
        intros e He. apply in_app_or in He.
        destruct He as [He|[<-|[]]]; auto.
      * right. exists e. split; [apply in_or_app; left; exact He1|].
        split; [exact He2|]. split; [exact He3|].
        intros e' He' Ee'. apply in_app_or in He'.
        destruct He' as [He'|[<-|[]]]; auto.
        rewrite Ex in Ee'. discriminate.
Qed.

Lemma latest_weight_null_iff_fold (es : list entry) :
  getLatestWeightUpToDate P es limit = JNull
  <-> forall e, In e es -> eligible P limit e = false.
Proof.
  unfold getLatestWeightUpToDate.
  destruct (latest_fold_none es) as [[H1 H2]|[H1 [e [He1 He2]]]];
    cbv zeta in *.
  - rewrite H1. simpl. tauto.
  - split.
    + intros E. rewrite E in H1. discriminate.
    + intros H. rewrite (H e He1) in He2. discriminate.
Qed.

End LatestWeight.

(** X1. For a store whose dates, like the limit date, are not objects (so
    that comparing them cannot throw), [getLatestWeightUpToDate] returns
    [null] exactly when no entry has a recorded weight on or before the
    limit date; otherwise it returns a number that is not [NaN]. *)
Theorem latest_weight_null_iff (P : platform) (es : list entry)
  (limit : jsval) :
  Forall (fun e => primitive (date e) = true) es ->
  primitive limit = true ->
  (getLatestWeightUpToDate P es limit = JNull
   <-> forall e, In e es -> eligible P limit e = false)
  /\ (getLatestWeightUpToDate P es limit = JNull
      \/ JS.is_real_number (getLatestWeightUpToDate P es limit) = true).
Proof.
  intros _ _. unfold getLatestWeightUpToDate.
  destruct (latest_fold_none P limit es) as [[H1 H2]|[H1 [e [He1 He2]]]];
    cbv zeta in *.
  - rewrite H1. simpl. tauto.
  - split; [|right; exact H1]. split.
    + intros E. rewrite E in H1. discriminate.
    + intros H. rewrite (H e He1) in He2. discriminate.
Qed.

Lemma latest_weight_null_iff_witness :
  getLatestWeightUpToDate samplePlatform (entries sampleState)
    (JStr "2023-12-31") = JNull
  /\ JS.is_real_number
       (getLatestWeightUpToDate samplePlatform (entries sampleState)
          (JStr "2024-01-05")) = true.
Proof.
  split.
  - apply (latest_weight_null_iff samplePlatform (entries sampleState)
             (JStr "2023-12-31")).
    + repeat constructor.
    + reflexivity.
    + intros e [<-|[<-|[]]]; reflexivity.
  - destruct (latest_weight_null_iff samplePlatform (entries sampleState)
                (JStr "2024-01-05")) as [_ [H|H]].
    + repeat constructor.
    + reflexivity.
    + discriminate H.
    + exact H.
Defined.

(** X2. When the dates of the store are non-empty strings, the limit date
    is not an object, and some entry has a recorded weight on or before the
    limit date, the result of [getLatestWeightUpToDate] is the weight of
    such an entry of the greatest date: no other such entry has a date
    that is greater, as [>] orders strings. *)
Theorem latest_weight_of_greatest_date (P : platform) (es : list entry)
  (limit : jsval) :
  Forall (fun e => string_date e = true) es ->
  primitive limit = true ->
  (exists e, In e es /\ eligible P limit e = true) ->
  exists e, In e es /\ eligible P limit e = true
            /\ getLatestWeightUpToDate P es limit = weight e
            /\ forall e', In e' es -> eligible P limit e' = true ->
                          js_gt P (date e') (date e) = false.
Proof.
  intros Hs _ [e0 [H0 E0]]. unfold getLatestWeightUpToDate.
  destruct (latest_weight_fold_max P limit es Hs)
    as [[_ H2]|[e [He1 [He2 [He3 He4]]]]]; cbv zeta in *.
  - rewrite (H2 e0 H0) in E0. discriminate.
  - exists e. rewrite He3. auto.
Qed.

Lemma latest_weight_of_greatest_date_witness :
  exists e, In e (entries sampleState)
            /\ eligible samplePlatform (JStr "2024-01-05") e = true
            /\ getLatestWeightUpToDate samplePlatform (entries sampleState)
                 (JStr "2024-01-05") = weight e
            /\ forall e', In e' (entries sampleState) ->
                          eligible samplePlatform (JStr "2024-01-05") e'
                          = true ->
                          js_gt samplePlatform (date e') (date e) = false.
Proof.
  apply (latest_weight_of_greatest_date samplePlatform
           (entries sampleState) (JStr "2024-01-05")).
  - repeat constructor.
  - reflexivity.
  - exists sampleEntry1. split; [left; reflexivity|reflexivity].
Defined.

(* ================================================================== *)
(** * Calories of an entry *)














Section CaloriesFacts.
Context (P : platform).

Lemma latest_step_shape (limit : jsval) (acc : jsval * jsval) (e : entry) :
  fst acc = JNull \/ JS.is_real_number (fst acc) = true ->
  fst (latest_step P limit acc e) = JNull
  \/ JS.is_real_number (fst (latest_step P limit acc e)) = true.
Proof.
  intros H. unfold latest_step.
  destruct (JS.is_real_number (weight e)) eqn:Ew; simpl; auto.
  destruct (JS.truthy limit && js_gt P (date e) limit); auto.
  destruct (negb (JS.truthy (snd acc)) || js_gt P (date e) (snd acc)); auto.
Qed.

(** [getLatestWeightUpToDate] returns [null] or a number that is not NaN. *)
Lemma getLatestWeightUpToDate_shape (es : list entry) (limit : jsval) :
  getLatestWeightUpToDate P es limit = JNull
  \/ JS.is_real_number (getLatestWeightUpToDate P es limit) = true.
Proof.
  unfold getLatestWeightUpToDate.
  assert (H : forall acc,
             fst acc = JNull \/ JS.is_real_number (fst acc) = true ->
             fst (fold_left (latest_step P limit) es acc) = JNull
             \/ JS.is_real_number
                  (fst (fold_left (latest_step P limit) es acc)) = true).
  { induction es as [|e es IH]; simpl; intros acc Hacc; auto.
    apply IH. apply latest_step_shape. exact Hacc. }
  apply H. left. reflexivity.
Qed.



End CaloriesFacts.

Section OwnWeight.
Context (P : platform).




End OwnWeight.



(* ================================================================== *)
(** * Sorting by a key *)

Section SortByKey.
Context {A : Type} (comparefn : A -> A -> result (option Z)) (key : A -> Z).
Context (domain : list A).
Hypothesis comparefn_key :
  forall a b, In a domain -> In b domain ->
              comparefn a b = Ok (Some (key a - key b)).

Let key_le (a b : A) : Prop := key a <= key b.

Lemma sort_insert_sorted (x : A) (l : list A) :
  In x domain -> incl l domain -> StronglySorted key_le l ->
  exists s, JS.sort_insert comparefn x l = Ok s /\ StronglySorted key_le s.
Proof.
  intros Hx. induction l as [|y l IH]; intros Hincl Hs; simpl.
  - exists [x]. split; auto. constructor; constructor.
  - assert (Hy : In y domain) by (apply Hincl; left; reflexivity).
    assert (Hl : incl l domain)
      by (intros z Hz; apply Hincl; right; exact Hz).
    rewrite (comparefn_key x y Hx Hy). simpl.
    inversion Hs as [|? ? Hs' Hall]; subst.
    destruct (Z.ltb_spec 0 (key x - key y)) as [Hlt|Hge].
    + destruct (IH Hl Hs') as [s [E Hsorted]]. rewrite E. simpl.
      exists (y :: s). split; auto. constructor; auto.
      apply sort_insert_perm in E.
      eapply Permutation_Forall; [exact E|].
      constructor; auto. unfold key_le. lia.
    + exists (x :: y :: l). split; auto. constructor; auto.
      constructor.
      * unfold key_le. lia.
      * eapply Forall_impl; [|exact Hall]. unfold key_le. intros; lia.
Qed.

Lemma sort_sorted (l : list A) :
  incl l domain ->
  exists s, JS.sort comparefn l = Ok s /\ StronglySorted key_le s
            /\ Permutation l s.
Proof.
  induction l as [|x l IH]; intros Hincl; simpl.
  - exists []. repeat split; constructor.
  - destruct IH as (s & E & Hs & Hp).
    { intros z Hz. apply Hincl. right. exact Hz. }
    rewrite E. simpl.
    destruct (sort_insert_sorted x s) as (s' & E' & Hs'); auto.
    + apply Hincl. left. reflexivity.
    + intros z Hz. apply Hincl. right.
      eapply Permutation_in; [apply Permutation_sym; exact Hp|exact Hz].
    + exists s'. repeat split; auto.
      eapply perm_trans; [apply perm_skip; exact Hp|].
      apply sort_insert_perm with (1 := E').
Qed.

Lemma sorted_last_max (s : list A) (d : A) :
  StronglySorted key_le s -> s <> [] ->
  In (List.last s d) s /\ forall x, In x s -> key x <= key (List.last s d).
Proof.
  induction 1 as [|a l Hs IH Hall]; intros Hne; [congruence|].
  destruct l as [|b l].
  - simpl. split; auto. intros x [<-|[]]. lia.
  - destruct IH as [Hin Hmax]; [discriminate|].
    change (List.last (a :: b :: l) d) with (List.last (b :: l) d).
    split; [right; exact Hin|].
    intros x [<-|Hx]; auto.
    rewrite Forall_forall in Hall. apply (Hall _ Hin).
Qed.

Lemma sorted_head_min (s : list A) (d : A) :
  StronglySorted key_le s -> s <> [] ->
  In (List.hd d s) s /\ forall x, In x s -> key (List.hd d s) <= key x.
Proof.
  intros Hs Hne. destruct s as [|a l]; [congruence|]. simpl.
  split; auto. inversion Hs as [|? ? _ Hall]; subst.
  rewrite Forall_forall in Hall.
  intros x [<-|Hx]; [lia|]. apply Hall. exact Hx.
Qed.

End SortByKey.

(* ================================================================== *)
(** * Calendar arithmetic *)

Lemma era_bounds (doe : Z) :
  0 <= doe < 146097 ->
  let yoe := (doe - doe / 1460 + doe / 36524 - doe / 146096) / 365 in
  let doy := doe - (365 * yoe + yoe / 4 - yoe / 100) in
  let mp := (5 * doy + 2) / 153 in
  let d := doy - (153 * mp + 2) / 5 + 1 in
  0 <= yoe <= 399 /\ 0 <= mp <= 11 /\ 1 <= d <= 31.
Proof.
  intros H yoe doy mp d.
  assert (Hy : 0 <= yoe <= 399)
    by (unfold yoe; Z.div_mod_to_equations; lia).
  assert (Hdoy : 0 <= doy <= 365)
    by (unfold doy, yoe; Z.div_mod_to_equations; lia).
  assert (Hmp : 0 <= mp <= 11)
    by (unfold mp; Z.div_mod_to_equations; lia).
  split; auto. split; auto.
  unfold d, mp. Z.div_mod_to_equations. lia.
Qed.

(** [days_from_civil] inverts [civil_from_days]. *)
Lemma civil_roundtrip (z : Z) :
  let '(y, m, d) := Calendar.civil_from_days z in
  Calendar.days_from_civil y m d = z /\ 1 <= m <= 12 /\ 1 <= d <= 31.
Proof.
  unfold Calendar.civil_from_days.
  set (z' := z + 719468).
  set (era := z' / 146097).
  set (doe := z' - era * 146097).
  assert (Hdoe : 0 <= doe < 146097).
  { unfold doe, era. pose proof (Z.mod_pos_bound z' 146097 ltac:(lia)) as H.
    rewrite Z.mod_eq in H by lia. lia. }
  pose proof (era_bounds doe Hdoe) as Hok. cbv zeta in Hok.
  set (yoe := (doe - doe / 1460 + doe / 36524 - doe / 146096) / 365) in *.
  set (doy := doe - (365 * yoe + yoe / 4 - yoe / 100)) in *.
  set (mp := (5 * doy + 2) / 153) in *.
  set (d := doy - (153 * mp + 2) / 5 + 1) in *.
  destruct Hok as (Hyoe & Hmp & Hd).
  unfold Calendar.days_from_civil.
  destruct (Z.ltb_spec mp 10) as [Hlt|Hge].
  - destruct (Z.leb_spec (mp + 3) 2); [lia|].
    destruct (Z.ltb_spec 2 (mp + 3)); [|lia].
    replace (mp + 3 - 3) with mp by lia.
    replace ((yoe + era * 400) / 400) with era
      by (rewrite Z.div_add by lia; rewrite Z.div_small by lia; lia).
    replace (yoe + era * 400 - era * 400) with yoe by lia.
    unfold d, doy, doe, z'. split; [lia|]. split; lia.
  - destruct (Z.leb_spec (mp - 9) 2); [|lia].
    destruct (Z.ltb_spec 2 (mp - 9)); [lia|].
    replace (mp - 9 + 9) with mp by lia.
    replace (yoe + era * 400 + 1 - 1) with (yoe + era * 400) by lia.
    replace ((yoe + era * 400) / 400) with era
      by (rewrite Z.div_add by lia; rewrite Z.div_small by lia; lia).
    replace (yoe + era * 400 - era * 400) with yoe by lia.
    unfold d, doy, doe, z'. split; [lia|]. split; lia.
Qed.

Lemma year_of_valid_day (y m d : Z) :
  1 <= m <= 12 -> 1 <= d <= 31 ->
  firstDay - 1 <= Calendar.days_from_civil y m d <= lastDay ->
  999 <= y <= 9999.
Proof.
  intros Hm Hd. unfold Calendar.days_from_civil, firstDay, lastDay.
  destruct (Z.leb_spec m 2); destruct (Z.ltb_spec 2 m); try lia.
  all: Z.div_mod_to_equations; lia.
Qed.

Lemma days_from_civil_day (y m d : Z) :
  Calendar.days_from_civil y m d = Calendar.days_from_civil y m 1 + d - 1.
Proof. unfold Calendar.days_from_civil. lia. Qed.

Lemma MakeDay_civil (y m d : Z) :
  1 <= m <= 12 ->
  Calendar.MakeDay y (m - 1) d = Calendar.days_from_civil y m d.
Proof.
  intros Hm. unfold Calendar.MakeDay.
  rewrite (days_from_civil_day y m d).
  rewrite Z.div_small by lia. rewrite Z.mod_small by lia.
  replace (y + 0) with y by lia. replace (m - 1 + 1) with m by lia.
  reflexivity.
Qed.

Lemma Day_of_day (d : Z) : DateObj.Day (d * Calendar.msPerDay) = d.
Proof.
  unfold DateObj.Day, Calendar.msPerDay. apply Z.div_mul. lia.
Qed.

Lemma timeClip_valid (t : Z) :
  firstDay - 1 <= DateObj.Day t <= lastDay -> DateObj.timeClip t = Some t.
Proof.
  unfold DateObj.timeClip, DateObj.Day, Calendar.maxTime, Calendar.msPerDay,
    firstDay, lastDay.
  intros H. destruct (Z.leb_spec (Z.abs t) 8640000000000000); auto.
  exfalso. Z.div_mod_to_equations. lia.
Qed.

(** [d.setDate(d.getDate() - 1)] steps one day back. *)
Lemma setDate_previous (t : Z) :
  valid_day (DateObj.Day t) ->
  DateObj.setDate (Some t)
    (option_map (fun d => d - 1) (DateObj.getDate (Some t)))
  = Some (t - Calendar.msPerDay).
Proof.
  intros Hv. unfold valid_day in Hv.
  unfold DateObj.setDate, DateObj.getDate, option_map.
  pose proof (civil_roundtrip (DateObj.Day t)) as H.
  destruct (Calendar.civil_from_days (DateObj.Day t)) as [[y m] d].
  destruct H as (H1 & H2 & H3). cbn [snd].
  rewrite MakeDay_civil by exact H2.
  rewrite (days_from_civil_day y m (d - 1)).
  rewrite (days_from_civil_day y m d) in H1.
  assert (E : (Calendar.days_from_civil y m 1 + (d - 1) - 1)
              * Calendar.msPerDay + DateObj.TimeWithinDay t
              = t - Calendar.msPerDay).
  { unfold DateObj.TimeWithinDay, DateObj.Day, Calendar.msPerDay in *.
    Z.div_mod_to_equations. lia. }
  rewrite E. apply timeClip_valid.
  unfold DateObj.Day, Calendar.msPerDay in *.
  Z.div_mod_to_equations. lia.
Qed.

Lemma Day_previous (t : Z) :
  DateObj.Day (t - Calendar.msPerDay) = DateObj.Day t - 1.
Proof.
  unfold DateObj.Day, Calendar.msPerDay. Z.div_mod_to_equations. lia.
Qed.

(* ================================================================== *)
(** * Date strings *)

Lemma check_upto_correct (f : Z -> bool) (n : nat) (z : Z) :
  check_upto f n z = true ->
  forall i, z <= i < z + Z.of_nat n -> f i = true.
Proof.
  revert z. induction n as [|n IH]; intros z H i Hi.
  - lia.
  - simpl in H. apply andb_true_iff in H. destruct H as [H1 H2].
    destruct (Z.eq_dec i z) as [->|Hne]; auto.
    apply (IH (z + 1) H2). lia.
Qed.

Lemma year_part_ok (y : Z) : 0 <= y <= 9999 -> part_ok false y = true.
Proof.
  intros H. apply (check_upto_correct (part_ok false) (Z.to_nat 10000) 0).
  - vm_compute. reflexivity.
  - rewrite Z2Nat.id; lia.
Qed.

Lemma padded_part_ok (k : Z) : 0 <= k <= 99 -> part_ok true k = true.
Proof.
  intros H. apply (check_upto_correct (part_ok true) (Z.to_nat 100) 0).
  - vm_compute. reflexivity.
  - rewrite Z2Nat.id; lia.
Qed.

Lemma part_ok_inv (pad : bool) (n : Z) :
  part_ok pad n = true ->
  let s := if pad then pad2 (Some n) else string_of_Z n in
  no_dash s = true /\ s <> "" /\ small_number s = Some n.
Proof.
  unfold part_ok. intros H. cbv zeta in *.
  apply andb_true_iff in H. destruct H as [H H3].
  apply andb_true_iff in H. destruct H as [H1 H2].
  split; auto. split.
  - apply negb_true_iff in H2. apply String.eqb_neq. exact H2.
  - destruct (small_number _); [|discriminate].
    apply Z.eqb_eq in H3. congruence.
Qed.

Lemma string_app_assoc (a b c : string) : (a ++ b) ++ c = a ++ (b ++ c).
Proof. induction a as [|x a IH]; simpl; congruence. Qed.

Lemma string_app_nil_r (a : string) : a ++ "" = a.
Proof. induction a as [|x a IH]; simpl; congruence. Qed.

Lemma split_dash_aux_nodash (s acc rest : string) :
  no_dash s = true ->
  split_dash_aux acc (s ++ rest) = split_dash_aux (acc ++ s) rest.
Proof.
  revert acc. induction s as [|c s IH]; simpl; intros acc H.
  - rewrite string_app_nil_r. reflexivity.
  - apply andb_true_iff in H. destruct H as [Hc Hs].
    apply negb_true_iff in Hc. rewrite Hc. rewrite IH by exact Hs.
    rewrite string_app_assoc. reflexivity.
Qed.

Lemma split_dash_three (a b c : string) :
  no_dash a = true -> no_dash b = true -> no_dash c = true ->
  split_dash (a ++ "-" ++ b ++ "-" ++ c) = [a; b; c].
Proof.
  intros Ha Hb Hc. unfold split_dash.
  rewrite split_dash_aux_nodash by exact Ha. simpl.
  rewrite split_dash_aux_nodash by exact Hb. simpl.
  rewrite <- (string_app_nil_r c) at 1.
  rewrite split_dash_aux_nodash by exact Hc. reflexivity.
Qed.

Lemma formatDateToYMD_civil (t : Z) :
  let '(y, m, d) := Calendar.civil_from_days (DateObj.Day t) in
  formatDateToYMD (Some t)
  = string_of_Z y ++ "-" ++ pad2 (Some m) ++ "-" ++ pad2 (Some d).
Proof.
  unfold formatDateToYMD, DateObj.getFullYear, DateObj.getMonth,
    DateObj.getDate, option_map, string_of_num.
  destruct (Calendar.civil_from_days (DateObj.Day t)) as [[y m] d].
  cbn [fst snd]. replace (m - 1 + 1) with m by lia. reflexivity.
Qed.

Lemma formatDateToYMD_day (t : Z) :
  formatDateToYMD (Some t) = ymd_of_day (DateObj.Day t).
Proof.
  unfold ymd_of_day.
  pose proof (formatDateToYMD_civil t) as H1.
  pose proof (formatDateToYMD_civil (DateObj.Day t * Calendar.msPerDay))
    as H2.
  rewrite Day_of_day in H2.
  destruct (Calendar.civil_from_days (DateObj.Day t)) as [[y m] d].
  congruence.
Qed.

(** A date string of the data-model range, or of the day before it, reads
    back as the day it was written for. *)
Lemma regular_ymd_of_day (z : Z) :
  firstDay - 1 <= z <= lastDay ->
  exists y m d,
    regular_ymd (ymd_of_day z) = Some (y, m, d)
    /\ ymd_of_day z <> ""
    /\ 999 <= y <= 9999 /\ 1 <= m <= 12
    /\ Calendar.days_from_civil y m d = z.
Proof.
  intros Hz. unfold ymd_of_day.
  pose proof (formatDateToYMD_civil (z * Calendar.msPerDay)) as Hf.
  rewrite Day_of_day in Hf.
  pose proof (civil_roundtrip z) as Hc.
  destruct (Calendar.civil_from_days z) as [[y m] d].
  destruct Hc as (H1 & H2 & H3).
  assert (Hy : 999 <= y <= 9999)
    by (apply (year_of_valid_day y m d); auto; lia).
  destruct (part_ok_inv false y (year_part_ok y ltac:(lia)))
    as (Ya & Yb & Yc).
  destruct (part_ok_inv true m (padded_part_ok m ltac:(lia)))
    as (Ma & Mb & Mc).
  destruct (part_ok_inv true d (padded_part_ok d ltac:(lia)))
    as (Da & Db & Dc).
  cbv zeta in *.
  exists y, m, d. rewrite Hf. split; [|split; [|auto]].
  - unfold regular_ymd. rewrite split_dash_three by assumption.
    rewrite Yc, Mc, Dc. reflexivity.
  - destruct (string_of_Z y); [congruence|discriminate].
Qed.

Section DateFacts.
Context (P : platform) (now : Date).

Lemma dateFromYMD_of_day (z : Z) :
  firstDay - 1 <= z <= lastDay ->
  dateFromYMD P now (JStr (ymd_of_day z))
  = Ok (Some (z * Calendar.msPerDay)).
Proof.
  intros Hz.
  destruct (regular_ymd_of_day z Hz) as (y & m & d & Hr & Hne & Hy & Hm & Hd).
  unfold dateFromYMD. simpl.
  apply String.eqb_neq in Hne. rewrite Hne. simpl. rewrite Hr.
  unfold DateObj.ofYMD.
  destruct (Z.leb_spec y 99); [lia|]. rewrite andb_false_r.
  rewrite MakeDay_civil by exact Hm. rewrite Hd.
  rewrite timeClip_valid; [reflexivity|]. rewrite Day_of_day. exact Hz.
Qed.

Lemma dateTime_of_day (z : Z) :
  firstDay - 1 <= z <= lastDay ->
  dateTime P now (JStr (ymd_of_day z)) = z * Calendar.msPerDay.
Proof.
  intros Hz. unfold dateTime. rewrite dateFromYMD_of_day by exact Hz.
  reflexivity.
Qed.

End DateFacts.

Lemma ymd_of_day_inj (a b : Z) :
  firstDay - 1 <= a <= lastDay -> firstDay - 1 <= b <= lastDay ->
  ymd_of_day a = ymd_of_day b -> a = b.
Proof.
  intros Ha Hb E.
  pose proof (dateTime_of_day samplePlatform None a Ha) as H1.
  pose proof (dateTime_of_day samplePlatform None b Hb) as H2.
  rewrite E in H1. rewrite H1 in H2.
  unfold Calendar.msPerDay in H2. lia.
Qed.

(* ================================================================== *)
(** * BMI *)










(* ================================================================== *)
(** * Sets of date strings *)

Lemma svz_string_eq (y : jsval) (x : string) :
  JS.same_value_zero y (JStr x) = true <-> y = JStr x.
Proof.
  destruct y; simpl; split; try discriminate.
  - intros H. apply String.eqb_eq in H. congruence.
  - intros H. injection H as ->. apply String.eqb_refl.
Qed.

Lemma set_has_string (s : list jsval) (x : string) :
  JS.set_has s (JStr x) = true <-> In (JStr x) s.
Proof.
  unfold JS.set_has. rewrite existsb_exists. split.
  - intros [y [Hy E]]. apply svz_string_eq in E. congruence.
  - intros H. exists (JStr x). split; auto. apply svz_string_eq.
    reflexivity.
Qed.

Lemma set_of_list_strings (l : list string) (acc : list jsval) (v : jsval) :
  In v (fold_left JS.set_add (List.map JStr l) acc)
  <-> In v acc \/ In v (List.map JStr l).
Proof.
  revert acc. induction l as [|x l IH]; simpl; intros acc.
  - tauto.
  - rewrite IH. unfold JS.set_add.
    destruct (JS.set_has acc (JStr x)) eqn:E.
    + apply set_has_string in E. split; [tauto|].
      intros [H|[<-|H]]; auto.
    + rewrite in_app_iff. simpl. tauto.
Qed.

(* ================================================================== *)
(** * The streak *)

(** A finite set of days has a first gap below any of its members. *)
Lemma first_gap (ds : list Z) (m : Z) :
  In m ds ->
  exists k : nat,
    (k < List.length ds)%nat
    /\ (forall i, 1 <= i <= Z.of_nat k -> In (m - i) ds)
    /\ ~ In (m - Z.of_nat k - 1) ds.
Proof.
  intros Hm.
  assert (H : forall n : nat,
             (forall i, 0 <= i <= Z.of_nat n -> In (m - i) ds)
             \/ exists k : nat,
                  (k < n)%nat
                  /\ (forall i, 1 <= i <= Z.of_nat k -> In (m - i) ds)
                  /\ ~ In (m - Z.of_nat k - 1) ds).
  { induction n as [|n [IH|[k (Hk & H1 & H2)]]].
    - left. intros i Hi. replace (m - i) with m by lia. exact Hm.
    - destruct (In_dec Z.eq_dec (m - Z.of_nat (S n)) ds) as [Hin|Hout].
      + left. intros i Hi.
        destruct (Z.eq_dec i (Z.of_nat (S n))) as [->|Hne]; auto.
        apply IH. lia.
      + right. exists n. split; [lia|]. split.
        * intros i Hi. apply IH. lia.
        * replace (m - Z.of_nat n - 1) with (m - Z.of_nat (S n)) by lia.
          exact Hout.
    - right. exists k. split; [lia|]. auto. }
  destruct (H (List.length ds)) as [Hall|[k Hk]]; [|exists k; exact Hk].
  exfalso.
  set (l := List.map (fun i => m - Z.of_nat i) (seq 0 (S (List.length ds)))).
  assert (Hnd : NoDup l).
  { unfold l. apply Injective_map_NoDup.
    - intros a b E. lia.
    - apply seq_NoDup. }
  assert (Hincl : incl l ds).
  { intros z Hz. unfold l in Hz. apply in_map_iff in Hz.
    destruct Hz as [i [<- Hi]]. apply in_seq in Hi. apply Hall. lia. }
  pose proof (NoDup_incl_length Hnd Hincl) as Hlen.
  unfold l in Hlen. rewrite length_map, length_seq in Hlen. lia.
Qed.

Section StreakFacts.
Context (P : platform) (tnow : Z) (es : list entry) (ds : list Z).

Let now : Date := Some tnow.
Let today : Z := DateObj.Day tnow.
Let uniqueDates : list jsval := JS.set_of_list (List.map date es).

Hypothesis today_valid : valid_day today.
Hypothesis days_valid : Forall valid_day ds.
Hypothesis entry_dates :
  List.map date es = List.map (fun d => JStr (ymd_of_day d)) ds.

Lemma valid_day_wide (d : Z) : valid_day d -> firstDay - 1 <= d <= lastDay.
Proof. unfold valid_day. lia. Qed.

Lemma uniqueDates_in (v : jsval) :
  In v uniqueDates <-> exists d, In d ds /\ v = JStr (ymd_of_day d).
Proof.
  unfold uniqueDates, JS.set_of_list. rewrite entry_dates.
  rewrite <- (map_map ymd_of_day JStr).
  rewrite set_of_list_strings. rewrite map_map. simpl.
  rewrite in_map_iff. split.
  - intros [[]|[d [E H]]]. exists d. auto.
  - intros [d [H E]]. right. exists d. auto.
Qed.

Lemma uniqueDates_has (z : Z) :
  firstDay - 1 <= z <= lastDay ->
  JS.set_has uniqueDates (JStr (ymd_of_day z)) = true <-> In z ds.
Proof.
  intros Hz. rewrite set_has_string, uniqueDates_in. split.
  - intros [d [Hd E]]. injection E as E.
    rewrite Forall_forall in days_valid.
    apply ymd_of_day_inj in E; auto.
    + congruence.
    + apply valid_day_wide. auto.
  - intros H. exists z. auto.
Qed.

Lemma streak_loop_run (k : nat) :
  forall (fuel : nat) (t : Z) (streak : nat),
    (k < fuel)%nat ->
    valid_day (DateObj.Day t) ->
    (forall i, 1 <= i <= Z.of_nat k -> In (DateObj.Day t - i) ds) ->
    ~ In (DateObj.Day t - Z.of_nat k - 1) ds ->
    streak_loop fuel uniqueDates (Some t) streak = Ok (streak + k)%nat.
Proof.
  induction k as [|k IH]; intros fuel t streak Hf Hv Hin Hout;
    (destruct fuel as [|fuel]; [lia|]); cbn [streak_loop];
    rewrite setDate_previous by exact Hv;
    rewrite formatDateToYMD_day, Day_previous.
  - destruct (JS.set_has uniqueDates (JStr (ymd_of_day (DateObj.Day t - 1))))
      eqn:E.
    + apply uniqueDates_has in E; [|unfold valid_day in Hv; lia].
      exfalso. apply Hout. replace (DateObj.Day t - Z.of_nat 0 - 1)
        with (DateObj.Day t - 1) by lia. exact E.
    + f_equal. lia.
  - assert (H1 : In (DateObj.Day t - 1) ds) by (apply Hin; lia).
    assert (E : JS.set_has uniqueDates
                  (JStr (ymd_of_day (DateObj.Day t - 1))) = true).
    { apply uniqueDates_has; auto. unfold valid_day in Hv. lia. }
    rewrite E.
    rewrite (IH fuel (t - Calendar.msPerDay) (S streak)).
    + f_equal. lia.
    + lia.
    + rewrite Day_previous. rewrite Forall_forall in days_valid. auto.
    + intros i Hi. rewrite Day_previous.
      replace (DateObj.Day t - 1 - i) with (DateObj.Day t - (i + 1)) by lia.
      apply Hin. lia.
    + rewrite Day_previous.
      replace (DateObj.Day t - 1 - Z.of_nat k - 1)
        with (DateObj.Day t - Z.of_nat (S k) - 1) by lia.
      exact Hout.
Qed.

(** The head of the descending sort is the date string of the latest day. *)
Lemma most_recent_date :
  ds <> [] ->
  exists s m,
    JS.sort (fun a b => compareByDateAsc P now b a) uniqueDates = Ok s
    /\ List.hd JUndef s = JStr (ymd_of_day m)
    /\ In m ds /\ forall d, In d ds -> d <= m.
Proof.
  intros Hne.
  destruct (sort_sorted (fun a b => compareByDateAsc P now b a)
              (fun v => - dateTime P now v) uniqueDates)
    with (l := uniqueDates) as (s & Es & Hsorted & Hperm).
  { intros a b Ha Hb. apply uniqueDates_in in Ha, Hb.
    destruct Ha as [da [Hda ->]], Hb as [db [Hdb ->]].
    rewrite Forall_forall in days_valid.
    unfold compareByDateAsc, dateTime.
    rewrite !dateFromYMD_of_day by (apply valid_day_wide; auto).
    simpl. do 2 f_equal. lia. }
  { apply incl_refl. }
  assert (Hs : s <> []).
  { assert (Hd0 : exists d0, In d0 ds).
    { clear - Hne. destruct ds as [|d0 ds0]; [congruence|].
      exists d0. left. reflexivity. }
    destruct Hd0 as [d0 Hd0].
    assert (Hin : In (JStr (ymd_of_day d0)) uniqueDates).
    { apply uniqueDates_in. exists d0. split; auto. }
    intros ->. eapply Permutation_in in Hin; [|exact Hperm].
    destruct Hin. }
  destruct (sorted_head_min (fun v => - dateTime P now v) s JUndef
              Hsorted Hs) as [Hhd Hmin].
  assert (Hhd' : In (List.hd JUndef s) uniqueDates).
  { eapply Permutation_in; [apply Permutation_sym; exact Hperm|exact Hhd]. }
  apply uniqueDates_in in Hhd'. destruct Hhd' as [m [Hm Em]].
  exists s, m. repeat split; auto.
  intros d Hd.
  assert (Hx : In (JStr (ymd_of_day d)) s).
  { eapply Permutation_in; [exact Hperm|].
    apply uniqueDates_in. exists d. auto. }
  specialize (Hmin _ Hx). rewrite Em in Hmin.
  rewrite Forall_forall in days_valid.
  rewrite !dateTime_of_day in Hmin by (apply valid_day_wide; auto).
  unfold Calendar.msPerDay in Hmin. lia.
Qed.

(** The rule of [calculateCurrentStreak] on a store of valid dates. *)
Lemma streak_general (fuel : nat) :
  ds <> [] -> (List.length es <= fuel)%nat ->
  exists m,
    In m ds /\ (forall d, In d ds -> d <= m)
    /\ (m <> today -> m <> today - 1 ->
        calculateCurrentStreak P fuel now es = Ok 0%nat)
    /\ (m = today \/ m = today - 1 ->
        exists k : nat,
          calculateCurrentStreak P fuel now es = Ok (S k)
          /\ (forall i, 1 <= i <= Z.of_nat k -> In (m - i) ds)
          /\ ~ In (m - Z.of_nat k - 1) ds).
Proof.
  intros Hne Hfuel.
  destruct (most_recent_date Hne) as (s & m & Es & Ehd & Hm & Hmax).
  exists m. split; [exact Hm|]. split; [exact Hmax|].
  assert (Hmv : valid_day m).
  { pose proof days_valid as Hdv. rewrite Forall_forall in Hdv. auto. }
  assert (Hlen : List.length es = List.length ds).
  { rewrite <- (length_map date es), entry_dates, length_map. reflexivity. }
  assert (Hes : es <> []).
  { intros E. rewrite E in Hlen. clear - Hlen Hne.
    destruct ds; [congruence|discriminate]. }
  assert (Hunfold :
    calculateCurrentStreak P fuel now es
    = if negb (String.eqb (ymd_of_day m) (ymd_of_day today))
         && negb (String.eqb (ymd_of_day m) (ymd_of_day (today - 1)))
      then Ok 0%nat
      else streak_loop fuel uniqueDates (Some (m * Calendar.msPerDay)) 1).
  { unfold calculateCurrentStreak. fold uniqueDates. rewrite Es.
    clear - Hes Ehd Hmv today_valid.
    destruct es as [|e0 es0]; [congruence|]. cbn [rbind]. rewrite Ehd.
    rewrite dateFromYMD_of_day by (apply valid_day_wide; auto).
    cbn [rbind]. cbn [JS.strict_eq].
    unfold getTodayDateString, now.
    rewrite setDate_previous by exact today_valid.
    rewrite !formatDateToYMD_day, Day_previous. reflexivity. }
  rewrite Hunfold. split.
  - intros H1 H2.
    destruct (String.eqb_spec (ymd_of_day m) (ymd_of_day today)) as [E|_].
    { apply ymd_of_day_inj in E; auto using valid_day_wide. congruence. }
    destruct (String.eqb_spec (ymd_of_day m) (ymd_of_day (today - 1)))
      as [E|_]; [|reflexivity].
    apply ymd_of_day_inj in E; auto using valid_day_wide.
    + congruence.
    + unfold valid_day in today_valid. lia.
  - intros Hm'.
    assert (E : negb (String.eqb (ymd_of_day m) (ymd_of_day today))
                && negb (String.eqb (ymd_of_day m)
                                    (ymd_of_day (today - 1))) = false).
    { destruct Hm' as [->| ->]; rewrite String.eqb_refl; simpl;
        auto using andb_false_r. }
    rewrite E.
    destruct (first_gap ds m Hm) as (k & Hk & Hin & Hout).
    exists k. split; [|split; assumption].
    rewrite (streak_loop_run k); rewrite ?Day_of_day; auto.
    lia.
Qed.

End StreakFacts.

(** C5. [calculateCurrentStreak] on a store whose entry dates are ISO date
    strings ([ds] lists their days), evaluated at an instant of the day
    [today], with a loop budget of at least the number of entries.  If the
    only entry date is two days ago the streak is 0; if it is today the
    streak is 1; if the dates are today, yesterday and the day before the
    streak is 3; if they are yesterday and three days ago the streak is 1.
    In general, with [m] the most recent entry day: the streak is 0 when
    [m] is neither today nor yesterday, and otherwise it is 1 plus the
    number [k] of consecutive days right before [m] that each have an
    entry. *)
Theorem current_streak_rule (P : platform) (tnow : Z) (fuel : nat)
  (es : list entry) (ds : list Z) :
  let today := DateObj.Day tnow in
  let streak := calculateCurrentStreak P fuel (Some tnow) es in
  valid_day today ->
  Forall valid_day ds ->
  ds <> [] ->
  List.map date es = List.map (fun d => JStr (ymd_of_day d)) ds ->
  (List.length es <= fuel)%nat ->
  ((forall d, In d ds -> d = today - 2) -> streak = Ok 0%nat)
  /\ ((forall d, In d ds -> d = today) -> streak = Ok 1%nat)
  /\ (In today ds -> In (today - 1) ds -> In (today - 2) ds ->
      (forall d, In d ds -> d = today \/ d = today - 1 \/ d = today - 2) ->
      streak = Ok 3%nat)
  /\ (In (today - 1) ds -> In (today - 3) ds ->
      (forall d, In d ds -> d = today - 1 \/ d = today - 3) ->
      streak = Ok 1%nat)
  /\ exists m,
       In m ds /\ (forall d, In d ds -> d <= m)
       /\ (m <> today -> m <> today - 1 -> streak = Ok 0%nat)
       /\ (m = today \/ m = today - 1 ->
           exists k : nat,
             streak = Ok (S k)
             /\ (forall i, 1 <= i <= Z.of_nat k -> In (m - i) ds)
             /\ ~ In (m - Z.of_nat k - 1) ds).
Proof.
  intros today streak Htoday Hvalid Hne Hdates Hfuel.
  destruct (streak_general P tnow es ds Htoday Hvalid Hdates fuel Hne Hfuel)
    as (m & Hm & Hmax & Hzero & Hrun).
  fold today in Hzero, Hrun. fold streak in Hzero, Hrun.
  split; [|split; [|split; [|split]]].
  - intros Hall. apply Hzero; specialize (Hall m Hm); lia.
  - intros Hall.
    destruct Hrun as (k & -> & Hin & Hout);
      [left; apply Hall; exact Hm|].
    destruct k as [|k]; [reflexivity|].
    specialize (Hin 1 ltac:(lia)). apply Hall in Hin.
    specialize (Hall m Hm). lia.
  - intros H0 H1 H2 Hall.
    assert (Em : m = today).
    { specialize (Hmax today H0). destruct (Hall m Hm) as [?|[?|?]]; lia. }
    destruct Hrun as (k & -> & Hin & Hout); [left; exact Em|].
    subst m. destruct k as [|[|[|k]]].
    + exfalso. apply Hout.
      replace (today - Z.of_nat 0 - 1) with (today - 1) by lia. exact H1.
    + exfalso. apply Hout.
      replace (today - Z.of_nat 1 - 1) with (today - 2) by lia. exact H2.
    + reflexivity.
    + specialize (Hin 3 ltac:(lia)).
      destruct (Hall _ Hin) as [?|[?|?]]; lia.
  - intros H1 H3 Hall.
    assert (Em : m = today - 1).
    { specialize (Hmax (today - 1) H1). destruct (Hall m Hm); lia. }
    destruct Hrun as (k & -> & Hin & Hout); [right; exact Em|].
    subst m. destruct k as [|k]; [reflexivity|].
    specialize (Hin 1 ltac:(lia)). destruct (Hall _ Hin); lia.
  - exists m. auto.
Qed.

Lemma current_streak_rule_witness :
  calculateCurrentStreak samplePlatform 3 (Some sampleNow) streakEntries
  = Ok 3%nat.
Proof.
  pose (today := DateObj.Day sampleNow).
  destruct (current_streak_rule samplePlatform sampleNow 3 streakEntries
              [today - 2; today; today - 1]) as (_ & _ & H & _).
  - vm_compute. split; discriminate.
  - repeat constructor; vm_compute; discriminate.
  - discriminate.
  - vm_compute. reflexivity.
  - simpl. lia.
  - apply H.
    + right. left. reflexivity.
    + right. right. left. reflexivity.
    + left. reflexivity.
    + intros d [<-|[<-|[<-|[]]]]; auto.
Defined.

(* ================================================================== *)
(** * Strict equality *)

Lemma strict_eq_string_l (x : jsval) (s : string) :
  JS.strict_eq x (JStr s) = true <-> x = JStr s.
Proof.
  destruct x; simpl; split; try discriminate.
  - intros H. apply String.eqb_eq in H. congruence.
  - intros H. injection H as ->. apply String.eqb_refl.
Qed.

Lemma strict_eq_string_refl (s : string) :
  JS.strict_eq (JStr s) (JStr s) = true.
Proof. apply strict_eq_string_l. reflexivity. Qed.

Lemma strict_eq_svz (a b : jsval) :
  JS.strict_eq a b = true -> JS.same_value_zero a b = true.
Proof.
  destruct a, b; simpl; try discriminate; auto.
  intros ->. reflexivity.
Qed.

(** Strict equality carries over from a key to an equal key. *)
Lemma strict_eq_svz_l (a b d : jsval) :
  JS.strict_eq a d = true -> JS.same_value_zero a b = true ->
  JS.strict_eq b d = true.
Proof.
  destruct a, b; simpl; try discriminate; destruct d; simpl;
    try discriminate; auto.
  - intros H1 H2. apply Bool.eqb_prop in H1, H2. subst.
    apply Bool.eqb_reflx.
  - intros H1 H2. destruct (float_eqb_not_nan _ _ H1) as [Hn _].
    rewrite Hn in H2. simpl in H2. rewrite orb_false_r in H2.
    apply float_eqb_trans with x; auto. rewrite float_eqb_sym. exact H2.
  - intros H1 H2. apply String.eqb_eq in H1, H2. subst.
    apply String.eqb_refl.
Qed.

(* ================================================================== *)
(** * Filtering twice *)

Lemma filter_filter_neg {A : Type} (f : A -> bool) (l : list A) :
  filter f (filter (fun x => negb (f x)) l) = [].
Proof.
  induction l as [|x l IH]; simpl; auto.
  destruct (f x) eqn:E; simpl; auto. rewrite E. exact IH.
Qed.

Lemma filter_neg_idem {A : Type} (f : A -> bool) (l : list A) :
  filter (fun x => negb (f x)) (filter (fun x => negb (f x)) l)
  = filter (fun x => negb (f x)) l.
Proof.
  induction l as [|x l IH]; simpl; auto.
  destruct (f x) eqn:E; simpl; auto. rewrite E. simpl. rewrite IH.
  reflexivity.
Qed.

(* ================================================================== *)
(** * Deleting by position *)

Lemma remove_at_split {A : Type} (k : nat) (l : list A) (x : A) :
  nth_error l k = Some x ->
  exists l1 l2, l = (l1 ++ x :: l2)%list /\ remove_at k l = (l1 ++ l2)%list
                /\ List.length l1 = k.
Proof.
  revert k. induction l as [|y l IH]; intros [|k]; simpl; try discriminate.
  - intros E. injection E as ->. exists [], l. auto.
  - intros E. destruct (IH k E) as (l1 & l2 & H1 & H2 & H3).
    exists (y :: l1), l2. simpl. rewrite H2, H3. subst l. auto.
Qed.

Lemma remove_at_beyond {A : Type} (k : nat) (l : list A) :
  nth_error l k = None -> remove_at k l = l.
Proof.
  revert k. induction l as [|y l IH]; intros [|k]; simpl; try discriminate;
    auto.
  intros E. rewrite IH by exact E. reflexivity.
Qed.

Lemma remove_at_In {A : Type} (k : nat) (l : list A) (x : A) :
  In x (remove_at k l) -> In x l.
Proof.
  revert k. induction l as [|y l IH]; intros [|k]; simpl; auto.
  intros [E|H]; eauto.
Qed.

Lemma dates_unique_middle (l1 l2 : list entry) (e : entry) :
  dates_unique (l1 ++ e :: l2)%list ->
  dates_unique (l1 ++ l2)%list
  /\ Forall (fun a => JS.same_value_zero (date e) (date a) = false)
            (l1 ++ l2)%list.
Proof.
  intros H.
  apply (dates_unique_perm _ (e :: l1 ++ l2)%list) in H.
  - inversion H as [|? ? Hhd Htl]; subst. auto.
  - apply Permutation_sym, Permutation_middle.
Qed.

Lemma remove_at_unique (k : nat) (l : list entry) :
  dates_unique l -> dates_unique (remove_at k l).
Proof.
  intros H. destruct (nth_error l k) as [x|] eqn:E.
  - destruct (remove_at_split k l x E) as (l1 & l2 & H1 & H2 & _).
    rewrite H2. rewrite H1 in H. apply dates_unique_middle in H. tauto.
  - rewrite remove_at_beyond by exact E. exact H.
Qed.

(* ================================================================== *)
(** * Where the entries of a merge come from *)

Section MergeOrigin.
Context (P : platform).

Lemma mergeLogs_origin (es : list entry) (logs : list jsval) (v : entry) :
  In v (mergeLogs P es logs) ->
  In v es
  \/ exists inLog, In inLog logs /\ importable inLog = true
                   /\ v = importedEntry P inLog.
Proof.
  intros H.
  eapply Permutation_in in H; [|apply Permutation_sym, mergeLogs_perm].
  unfold JS.map_values in H. apply in_map_iff in H.
  destruct H as [[k v'] [E Hin]]. simpl in E. subst v'.
  destruct (merged_origin P logs _ k v Hin) as [Hold|Hnew]; auto.
  apply existing_map_values in Hold. destruct Hold as [[]|Hold]. auto.
Qed.

Lemma importedEntry_numeric (inLog : jsval) :
  numeric_fields (importedEntry P inLog) = true.
Proof.
  unfold numeric_fields, importedEntry, importedWeight, importedDuration.
  simpl.
  destruct (JS.prop_of inLog "weight") as [| | | |s| |]; simpl;
    try (destruct (negb (String.eqb (trim P s) "")); simpl;
         try destruct (negb (PrimFloat.is_nan (parseFloat P s))); simpl);
    destruct (JS.prop_of inLog "durationMinutes") as [| | | |s'| |]; simpl;
    try (destruct (negb (String.eqb (trim P s') "")); simpl;
         try destruct (negb (PrimFloat.is_nan
                               (parseInt10 P (trim P s')))); simpl);
    reflexivity.
Qed.

Lemma map_set_covers (v2 : entry) (m : list (jsval * entry)) (d : jsval) :
  map_ok m -> covers m d -> covers (JS.map_set (date v2) v2 m) d.
Proof.
  intros [Hu Hk] [p [Hin Hp]]. clear Hu.
  induction m as [|[k' v'] m IH]; [destruct Hin|].
  inversion Hk as [|? ? Hk1 Hk2]; subst. simpl in Hk1. simpl.
  destruct (JS.same_value_zero k' (date v2)) eqn:E.
  - destruct Hin as [<-|Hin].
    + exists (k', v2). split; [left; reflexivity|]. simpl in *.
      apply strict_eq_svz_l with (date v'); auto.
      rewrite <- Hk1. exact E.
    + exists p. split; [right; exact Hin|exact Hp].
  - destruct Hin as [<-|Hin].
    + exists (k', v'). split; [left; reflexivity|exact Hp].
    + destruct (IH Hk2 Hin) as [q [Hq1 Hq2]].
      exists q. split; [right; exact Hq1|exact Hq2].
Qed.

Lemma map_set_covers_new (v2 : entry) (m : list (jsval * entry))
  (d : jsval) :
  JS.strict_eq (date v2) d = true -> covers (JS.map_set (date v2) v2 m) d.
Proof.
  intros H. induction m as [|[k' v'] m IH]; simpl.
  - exists (date v2, v2). split; [left; reflexivity|exact H].
  - destruct (JS.same_value_zero k' (date v2)).
    + exists (k', v2). split; [left; reflexivity|exact H].
    + destruct IH as [q [Hq1 Hq2]].
      exists q. split; [right; exact Hq1|exact Hq2].
Qed.

Lemma existing_map_covers (es : list entry) (m : list (jsval * entry))
  (d : jsval) :
  map_ok m ->
  covers m d \/ (exists e, In e es /\ JS.strict_eq (date e) d = true) ->
  covers (fold_left (fun m e => JS.map_set (date e) e m) es m) d.
Proof.
  revert m. induction es as [|x es IH]; simpl; intros m Hm H.
  - destruct H as [H|[e [[] _]]]. exact H.
  - apply IH; [apply map_set_ok; exact Hm|].
    destruct H as [H|[e [[<-|He] Hd]]].
    + left. apply map_set_covers; auto.
    + left. apply map_set_covers_new. exact Hd.
    + right. exists e. auto.
Qed.

Lemma merged_covers (logs : list jsval) (m : list (jsval * entry))
  (d : jsval) :
  map_ok m -> covers m d -> covers (fold_left (mergeLog P) logs m) d.
Proof.
  revert m. induction logs as [|l logs IH]; simpl; intros m Hm H; auto.
  apply IH; [apply mergeLog_ok; exact Hm|].
  unfold mergeLog. destruct (importable l); simpl; auto.
  apply (map_set_covers (importedEntry P l)); auto.
Qed.

Lemma hasEntryOnDate_In (es : list entry) (d : jsval) :
  hasEntryOnDate es d = true
  <-> exists e, In e es /\ JS.strict_eq (date e) d = true.
Proof. unfold hasEntryOnDate. apply existsb_exists. Qed.

Lemma mergeLogs_keeps_dates (es : list entry) (logs : list jsval)
  (d : jsval) :
  hasEntryOnDate es d = true ->
  hasEntryOnDate (mergeLogs P es logs) d = true.
Proof.
  rewrite !hasEntryOnDate_In. intros H.
  destruct (merged_covers logs
              (fold_left (fun m e => JS.map_set (date e) e m) es []) d)
    as [[k v] [Hin Hd]].
  - apply existing_map_ok, map_ok_nil.
  - apply existing_map_covers; [apply map_ok_nil|]. right. exact H.
  - exists v. split; [|exact Hd].
    eapply Permutation_in; [apply mergeLogs_perm|].
    unfold JS.map_values. apply in_map_iff. exists (k, v). auto.
Qed.

End MergeOrigin.

(* ================================================================== *)
(** * The entry form *)

Section FormFacts.
Context (P : platform).

(** A submission is refused, with the store as it was, or it stores one
    entry with the submitted date in place of those of that date. *)
Lemma submitEntryForm_cases (now : Date) (f : entryForm) (st : state) :
  let st' := submitEntryForm P now f st in
  ((exists v, weightInput f = Some v /\ trim P v <> "")
   /\ st' = show_alert AlertInvalidWeight st)
  \/ exists newEntry,
       date newEntry = JStr (submittedDate now f)
       /\ numeric_fields newEntry = true
       /\ entries st' = addOrReplace newEntry (entries st)
       /\ entries_in_sync P st'
       /\ userSettings st' = userSettings st
       /\ storedSettings st' = storedSettings st
       /\ alerts st'
          = match refreshAllUI P (beforeAlert st st') with
            | Ok _ => (alerts st ++ [AlertSaved])%list
            | _ => alerts st
            end.
Proof.
  cbv zeta. unfold submitEntryForm.
  match goal with
  | |- context [if ?c then show_alert AlertInvalidWeight st else _] =>
      destruct c eqn:Ec
  end.
  - left. split; [|reflexivity].
    apply andb_true_iff in Ec. destruct Ec as [Ec _].
    apply negb_true_iff in Ec.
    destruct (weightInput f) as [v|]; [|discriminate].
    exists v. split; [reflexivity|]. apply String.eqb_neq. exact Ec.
  - right. cbv zeta.
    match goal with
    | |- context [mkEntry ?a ?b ?c ?d ?e] => exists (mkEntry a b c d e)
    end.
    split; [reflexivity|].
    split;
      [|match goal with
        | |- context [refreshAllUI P ?x] =>
            set (saved := x);
            assert (Hb1 : beforeAlert st (show_alert AlertSaved saved)
                          = saved) by reflexivity;
            assert (Hb2 : beforeAlert st saved = saved) by reflexivity;
            destruct (refreshAllUI P saved) eqn:Er
        end; rewrite ?Hb1, ?Hb2, Er; repeat split; reflexivity].
    unfold numeric_fields. cbn [weight durationMinutes].
    apply andb_true_iff. split.
    + destruct (getLatestWeightUpToDate P (entries st) _) as [| | |x| | |];
        simpl;
        repeat match goal with
               | |- context [if ?c then _ else _] => destruct c; simpl
               end; reflexivity.
    + destruct (durationInput f) as [v|]; [|reflexivity].
      repeat match goal with
             | |- context [if ?c then _ else _] => destruct c; simpl
             end; reflexivity.
Qed.

Lemma addOrReplace_keeps_dates (newEntry : entry) (s : string)
  (es : list entry) (d : jsval) :
  date newEntry = JStr s ->
  hasEntryOnDate es d = true ->
  hasEntryOnDate (addOrReplace newEntry es) d = true.
Proof.
  intros Hn. rewrite !hasEntryOnDate_In. intros [e [He Hd]].
  unfold addOrReplace.
  destruct (JS.strict_eq (date e) (date newEntry)) eqn:E.
  - exists newEntry. split; [apply in_or_app; right; left; reflexivity|].
    rewrite Hn in E. apply strict_eq_string_l in E. congruence.
  - exists e. split; [|exact Hd]. apply in_or_app. left.
    apply filter_In. rewrite E. auto.
Qed.

End FormFacts.

(** X3. On a store whose dates are not objects (so that comparing them
    with the submitted date cannot throw), the entry form either refuses
    the submission, which requires a weight field that is not blank, and
    then only shows its alert; or it saves: the store then holds exactly one
    entry of the submitted date, the entries of the other dates are the ones
    it held, in their order, and the persisted entries are those of the
    store.  The alert that the entry was saved is shown when the refresh of
    the page that follows the save completes, and no alert is shown when it
    throws. *)
Theorem submit_replaces_by_date (P : platform) (now : Date)
  (f : entryForm) (st : state) :
  Forall (fun e => primitive (date e) = true) (entries st) ->
  let st' := submitEntryForm P now f st in
  let d := JStr (submittedDate now f) in
  ((exists v, weightInput f = Some v /\ trim P v <> "")
   /\ st' = show_alert AlertInvalidWeight st)
  \/ (hasEntryOnDate (entries st') d = true
      /\ List.length
           (filter (fun e => JS.strict_eq (date e) d) (entries st')) = 1%nat
      /\ filter (fun e => negb (JS.strict_eq (date e) d)) (entries st')
         = filter (fun e => negb (JS.strict_eq (date e) d)) (entries st)
      /\ entries_in_sync P st'
      /\ alerts st'
         = match refreshAllUI P (beforeAlert st st') with
           | Ok _ => (alerts st ++ [AlertSaved])%list
           | _ => alerts st
           end).
Proof.
  intros _. cbv zeta.
  destruct (submitEntryForm_cases P now f st)
    as [H|[n (Hd & _ & He & Hs & _ & _ & Ha)]]; [left; exact H|].
  right. rewrite He. unfold addOrReplace. rewrite Hd.
  split; [|split; [|split; [|split]]]; auto.
  - apply hasEntryOnDate_In. exists n.
    split; [apply in_or_app; right; left; reflexivity|].
    rewrite Hd. apply strict_eq_string_refl.
  - rewrite filter_app. cbn [filter]. rewrite Hd, strict_eq_string_refl.
    rewrite length_app. cbn [List.length].
    rewrite filter_filter_neg. reflexivity.
  - rewrite filter_app. cbn [filter]. rewrite Hd, strict_eq_string_refl.
    cbn [negb]. rewrite app_nil_r. apply filter_neg_idem.
Qed.

(** A weight of 79.5 kg saved for 2024-01-05 into the sample store: the
    store holds its two entries and the new one, and the alert is shown. *)
Lemma submit_replaces_by_date_witness :
  let st' :=
    submitEntryForm samplePlatform None
      (mkEntryForm (Some "79.5") None "2024-01-05" "" "") sampleState in
  entries st'
  = [sampleEntry1; sampleEntry2;
     mkEntry (JStr "2024-01-05") (JNum 79.5%float) (JStr "") (JStr "") JNull]
  /\ entries_in_sync samplePlatform st'
  /\ alerts st' = [AlertSaved].
Proof.
  destruct (submit_replaces_by_date samplePlatform None
              (mkEntryForm (Some "79.5") None "2024-01-05" "" "")
              sampleState) as [[_ H]|(_ & _ & _ & H1 & H2)].
  - repeat constructor.
  - discriminate H.
  - split; [reflexivity|]. split; [exact H1|exact H2].
Defined.

(** X4. After a confirmed deletion of the entry at a position of a store
    without repeated dates, no entry of the store has the date of the
    deleted entry, the other entries are there in their order, and the
    persisted entries are those of the store. *)
Theorem delete_removes_the_date (P : platform) (k : nat) (e : entry)
  (st : state) :
  dates_unique (entries st) ->
  nth_error (entries st) k = Some e ->
  let st' := deleteEntry P true k st in
  hasEntryOnDate (entries st') (date e) = false
  /\ (exists l1 l2, entries st = (l1 ++ e :: l2)%list
                    /\ entries st' = (l1 ++ l2)%list)
  /\ entries_in_sync P st'.
Proof.
  intros Hu Hk. cbv zeta. unfold deleteEntry. simpl.
  destruct (remove_at_split k _ e Hk) as (l1 & l2 & H1 & H2 & _).
  split; [|split; [exists l1, l2; auto|reflexivity]].
  rewrite H2. rewrite H1 in Hu. apply dates_unique_middle in Hu.
  destruct Hu as [_ Hu]. rewrite Forall_forall in Hu.
  destruct (hasEntryOnDate (l1 ++ l2) (date e)) eqn:E; [|reflexivity].
  apply hasEntryOnDate_In in E. destruct E as [x [Hx Ex]].
  apply strict_eq_svz in Ex. rewrite svz_sym in Ex.
  rewrite (Hu x Hx) in Ex. discriminate.
Qed.

Lemma delete_removes_the_date_witness :
  let st' := deleteEntry samplePlatform true 0 sampleState in
  hasEntryOnDate (entries st') (date sampleEntry1) = false
  /\ (exists l1 l2, entries sampleState = (l1 ++ sampleEntry1 :: l2)%list
                    /\ entries st' = (l1 ++ l2)%list)
  /\ entries_in_sync samplePlatform st'.
Proof.
  apply (delete_removes_the_date samplePlatform 0 sampleEntry1 sampleState).
  - unfold dates_unique. simpl. repeat constructor.
  - reflexivity.
Defined.

(* ================================================================== *)
(** * Invariants of the handlers *)

Section HandlerFacts.
Context (P : platform).

Lemma truthy_not_nullish (v : jsval) :
  JS.truthy v = true -> JS.nullish v = false.
Proof. destruct v; simpl; congruence. Qed.

(** The paste path leaves the state as it is, or does what the file path
    does with the same text. *)
Lemma restoreFromText_cases (pasted : option string) (st : state) :
  (exists a, restoreFromText P pasted st = (a, st)
             /\ (a = None -> pasted = None \/ pasted = Some ""))
  \/ exists jsonText parsed,
       pasted = Some jsonText
       /\ JSON_parse P jsonText = Some parsed
       /\ JS.truthy parsed = true
       /\ JS.truthy (JS.prop_of parsed "logs") = true
       /\ restoreFromText P pasted st
          = (match fst (restoreFullBackupJsonFromText P jsonText st) with
             | Ok _ => None
             | _ => Some PasteUnreadable
             end,
             snd (restoreFullBackupJsonFromText P jsonText st)).
Proof.
  unfold restoreFromText. destruct pasted as [jsonText|].
  - destruct (String.eqb_spec jsonText "") as [->|Hne].
    + left. exists None. auto.
    + destruct (JSON_parse P jsonText) as [parsed|] eqn:Hp.
      * destruct (JS.truthy parsed) eqn:Ht; simpl.
        -- destruct (JS.truthy (JS.prop_of parsed "logs")) eqn:Hl.
           ++ right. exists jsonText, parsed.
              destruct (restoreFullBackupJsonFromText P jsonText st)
                as [[| |] st']; auto.
           ++ left. eexists. split; [reflexivity|discriminate].
        -- left. eexists. split; [reflexivity|discriminate].
      * left. eexists. split; [reflexivity|discriminate].
  - left. exists None. auto.
Qed.

(** A restore leaves the persisted settings in step with the settings. *)
Lemma restore_settings_sync (jsonText : string) (st : state) :
  settings_in_sync P st ->
  settings_in_sync P (snd (restoreFullBackupJsonFromText P jsonText st)).
Proof.
  unfold settings_in_sync. intros H.
  destruct (JSON_parse P jsonText) as [parsed|] eqn:Hp.
  - destruct (JS.nullish parsed) eqn:Hn.
    + unfold restoreFullBackupJsonFromText, JS.get_prop.
      rewrite Hp, Hn. exact H.
    + destruct (restore_parsed P jsonText parsed st Hp Hn)
        as (H1 & H2 & _). cbv zeta in H1, H2. rewrite H1, H2.
      destruct (JS.truthy (JS.prop_of parsed "userSettings")); auto.
  - unfold restoreFullBackupJsonFromText. rewrite Hp. exact H.
Qed.

(** A restore of records whose dates are not objects, into a store whose
    dates are not objects, leaves such a store, and the persisted entries
    in step with it. *)
Lemma restore_plain (jsonText : string) (st : state) :
  plain_dates P jsonText ->
  Forall (fun e => primitive (date e) = true) (entries st) ->
  let st' := snd (restoreFullBackupJsonFromText P jsonText st) in
  Forall (fun e => primitive (date e) = true) (entries st')
  /\ (entries_in_sync P st -> entries_in_sync P st').
Proof.
  intros Hplain Hprim. cbv zeta. unfold entries_in_sync.
  destruct (JSON_parse P jsonText) as [parsed|] eqn:Hp.
  - destruct (JS.nullish parsed) eqn:Hn.
    + unfold restoreFullBackupJsonFromText, JS.get_prop.
      rewrite Hp, Hn. simpl. auto.
    + destruct (restore_parsed P jsonText parsed st Hp Hn)
        as (_ & _ & H3 & H4). cbv zeta in H3, H4.
      specialize (Hplain parsed).
      destruct (JS.prop_of parsed "logs") as [| | | | |logs|].
      6: {
        specialize (Hplain logs Hp eq_refl).
        destruct (sortMerged_returns_primitive P (entries st) logs Hprim
                    Hplain) as [sorted Hsorted].
        rewrite Hsorted in H4. destruct H4 as (H4 & _ & _).
        rewrite H3, H4. split; [|reflexivity].
        apply Forall_forall. intros v Hv.
        eapply Permutation_in in Hv;
          [|apply Permutation_sym, mergeLogs_perm].
        rewrite Forall_forall in Hprim, Hplain.
        destruct (mergedValues_origin P _ _ _ Hv) as [Hin|[l [Hin [_ ->]]]];
          auto. simpl. auto. }
      all: destruct H4 as (H4 & _ & _); rewrite H3, H4; auto.
  - unfold restoreFullBackupJsonFromText. rewrite Hp. simpl. auto.
Qed.

Section EntriesInvariant.
Context (Q : list entry -> Prop).
Hypothesis Q_submit :
  forall now f st, Q (entries st) -> Q (entries (submitEntryForm P now f st)).
Hypothesis Q_merge :
  forall es logs, Q es -> Q (mergeLogs P es logs).
Hypothesis Q_remove : forall k es, Q es -> Q (remove_at k es).
Hypothesis Q_nil : Q [].

Lemma restore_invariant (jsonText : string) (st : state) :
  Q (entries st) ->
  Q (entries (snd (restoreFullBackupJsonFromText P jsonText st))).
Proof.
  intros H.
  destruct (restore_entries_cases P jsonText st) as [->|[logs ->]]; auto.
Qed.

Lemma handle_invariant (ev : event) (st : state) :
  Q (entries st) -> Q (entries (handle P ev st)).
Proof.
  intros H. destruct ev as [now f|jsonText|pasted|c k|c]; simpl.
  - apply Q_submit. exact H.
  - apply restore_invariant. exact H.
  - destruct (restoreFromText_cases pasted st)
      as [[a [-> _]]|(t & p & _ & _ & _ & _ & ->)]; simpl; auto.
    apply restore_invariant. exact H.
  - unfold deleteEntry. destruct c; simpl; auto.
  - unfold clearAllData. destruct c; simpl; auto.
Qed.

Lemma handleAll_invariant (evs : list event) (st : state) :
  Q (entries st) -> Q (entries (handleAll P evs st)).
Proof.
  unfold handleAll. revert st.
  induction evs as [|ev evs IH]; simpl; intros st H; auto.
  apply IH. apply handle_invariant. exact H.
Qed.

End EntriesInvariant.

Lemma handle_settings_sync (ev : event) (st : state) :
  settings_in_sync P st -> settings_in_sync P (handle P ev st).
Proof.
  destruct ev as [now f|jsonText|pasted|c k|c]; simpl.
  - destruct (submitEntryForm_cases P now f st)
      as [[_ ->]|[n (_ & _ & _ & _ & Hu & Hss & _)]]; [simpl; auto|].
    unfold settings_in_sync. rewrite Hu, Hss. auto.
  - apply restore_settings_sync.
  - destruct (restoreFromText_cases pasted st)
      as [[a [-> _]]|(t & p & _ & _ & _ & _ & ->)]; simpl; auto.
    apply restore_settings_sync.
  - unfold deleteEntry. destruct c; simpl; auto.
  - unfold clearAllData. destruct c; simpl; auto. reflexivity.
Qed.

Lemma handle_plain (ev : event) (st : state) :
  plain_event P ev ->
  Forall (fun e => primitive (date e) = true) (entries st) ->
  Forall (fun e => primitive (date e) = true) (entries (handle P ev st))
  /\ (entries_in_sync P st -> entries_in_sync P (handle P ev st)).
Proof.
  intros Hev Hprim.
  destruct ev as [now f|jsonText|pasted|c k|c]; simpl in Hev |- *.
  - destruct (submitEntryForm_cases P now f st)
      as [[_ ->]|[n (Hd & _ & He & Hs & _)]]; [simpl; auto|].
    split; [|auto]. rewrite He. unfold addOrReplace.
    apply Forall_app. split.
    + rewrite Forall_forall in *. intros e Hin. apply filter_In in Hin.
      apply Hprim. tauto.
    + constructor; [|constructor]. rewrite Hd. reflexivity.
  - apply restore_plain; auto.
  - destruct (restoreFromText_cases pasted st)
      as [[a [-> _]]|(t & p & -> & _ & _ & _ & ->)]; simpl; auto.
    apply restore_plain; auto.
  - unfold deleteEntry. destruct c; simpl; auto.
    split; [|reflexivity]. rewrite Forall_forall in *. intros e He.
    apply Hprim. eapply remove_at_In. exact He.
  - unfold clearAllData. destruct c; simpl; auto.
    split; [constructor|reflexivity].
Qed.

End HandlerFacts.

(** X5. No sequence of submissions, restores from a file or from pasted
    text, deletions and clearings brings two entries of one date into a
    store that had none. *)
Theorem handlers_keep_dates_unique (P : platform) (evs : list event)
  (st : state) :
  dates_unique (entries st) -> dates_unique (entries (handleAll P evs st)).
Proof.
  apply (handleAll_invariant P dates_unique).
  - intros now f s. apply submitEntryForm_unique.
  - intros es logs _. apply mergeLogs_unique.
  - intros k es. apply remove_at_unique.
  - constructor.
Qed.

Lemma handlers_keep_dates_unique_witness :
  dates_unique
    (entries
       (handleAll samplePlatform
          [RestorePaste (Some "logs-only"); Delete true 0;
           Submit (Some sampleNow) (mkEntryForm (Some "79.5") None "" "" "")]
          sampleState)).
Proof.
  apply (handlers_keep_dates_unique samplePlatform).
  unfold dates_unique. simpl. repeat constructor.
Defined.

(** X6. Every handler that changes the settings writes them to storage:
    when the persisted settings are the serialised settings, they still are
    after any sequence of submissions, restores from a file or from pasted
    text, deletions and clearings.  The same holds of the entries for a
    store and backups whose dates are not objects: a restore converts the
    dates with [new Date] to sort the merged entries before it saves them,
    and that conversion can throw on an object. *)
Theorem handlers_keep_storage_in_sync (P : platform) (evs : list event)
  (st : state) :
  (settings_in_sync P st -> settings_in_sync P (handleAll P evs st))
  /\ (entries_in_sync P st ->
      Forall (fun e => primitive (date e) = true) (entries st) ->
      Forall (plain_event P) evs ->
      entries_in_sync P (handleAll P evs st)).
Proof.
  unfold handleAll. split.
  - revert st. induction evs as [|ev evs IH]; simpl; intros st H; auto.
    apply IH. apply handle_settings_sync. exact H.
  - revert st. induction evs as [|ev evs IH]; simpl; intros st H1 H2 H3;
      auto.
    inversion H3 as [|? ? Hev Hevs]; subst.
    destruct (handle_plain P ev st Hev H2) as [Hp Hs]. apply IH; auto.
Qed.

Lemma handlers_keep_storage_in_sync_witness :
  let st := clearAllData samplePlatform true sampleState in
  let evs := [RestoreFile "backup"; Delete true 1; Clear false] in
  settings_in_sync samplePlatform (handleAll samplePlatform evs st)
  /\ entries_in_sync samplePlatform (handleAll samplePlatform evs st).
Proof.
  destruct (handlers_keep_storage_in_sync samplePlatform
              [RestoreFile "backup"; Delete true 1; Clear false]
              (clearAllData samplePlatform true sampleState)) as [H1 H2].
  split.
  - apply H1. reflexivity.
  - apply H2.
    + reflexivity.
    + constructor.
    + repeat constructor. intros parsed logs Hp Hl. simpl in Hp.
      injection Hp as <-. simpl in Hl. injection Hl as <-.
      repeat constructor.
Defined.

(** X7. Whatever a backup holds, the weight and the duration of every
    stored entry stay a number or [null]: the form and the restore coerce
    them, and no other handler writes entries. *)
Theorem handlers_keep_numeric_fields (P : platform) (evs : list event)
  (st : state) :
  Forall (fun e => numeric_fields e = true) (entries st) ->
  Forall (fun e => numeric_fields e = true) (entries (handleAll P evs st)).
Proof.
  apply (handleAll_invariant P
           (Forall (fun e => numeric_fields e = true))).
  - intros now f s H.
    destruct (submitEntryForm_cases P now f s)
      as [[_ ->]|[n (_ & Hn & -> & _)]]; [exact H|].
    unfold addOrReplace. apply Forall_app. split.
    + rewrite Forall_forall in *. intros e He. apply filter_In in He.
      apply H. tauto.
    + constructor; auto.
  - intros es logs H. apply Forall_forall. intros v Hv.
    destruct (mergeLogs_origin P es logs v Hv) as [Hin|[l [_ [_ ->]]]].
    + rewrite Forall_forall in H. auto.
    + apply importedEntry_numeric.
  - intros k es H. rewrite Forall_forall in *. intros e He.
    apply H. eapply remove_at_In. exact He.
  - constructor.
Qed.

Lemma handlers_keep_numeric_fields_witness :
  Forall (fun e => numeric_fields e = true)
    (entries
       (handleAll samplePlatform
          [RestoreFile "logs-only"; Delete true 0] sampleState)).
Proof.
  apply (handlers_keep_numeric_fields samplePlatform).
  repeat constructor.
Defined.

(** X8. Submitting an entry and restoring a backup never remove a date:
    a date that has an entry still has one after any sequence of
    submissions and restores, with deletions and clearings that were not
    confirmed. *)
Theorem dates_only_removed_on_request (P : platform) (evs : list event)
  (st : state) (d : jsval) :
  forallb (fun ev => match ev with
                     | Delete c _ | Clear c => negb c
                     | _ => true
                     end) evs = true ->
  hasEntryOnDate (entries st) d = true ->
  hasEntryOnDate (entries (handleAll P evs st)) d = true.
Proof.
  unfold handleAll. revert st.
  induction evs as [|ev evs IH]; simpl; intros st Hc H; auto.
  apply andb_true_iff in Hc. destruct Hc as [Hc1 Hc2].
  apply IH; [exact Hc2|].
  assert (Hr : forall t,
             hasEntryOnDate
               (entries (snd (restoreFullBackupJsonFromText P t st))) d
             = true).
  { intros t.
    destruct (restore_entries_cases P t st) as [->|[logs ->]]; auto.
    apply mergeLogs_keeps_dates. exact H. }
  destruct ev as [now f|jsonText|pasted|c k|c]; simpl.
  - destruct (submitEntryForm_cases P now f st)
      as [[_ ->]|[n (Hd & _ & -> & _)]]; [exact H|].
    eapply addOrReplace_keeps_dates; eauto.
  - apply Hr.
  - destruct (restoreFromText_cases P pasted st)
      as [[a [-> _]]|(t & p & _ & _ & _ & _ & ->)]; simpl; auto.
  - apply negb_true_iff in Hc1. subst c. exact H.
  - apply negb_true_iff in Hc1. subst c. exact H.
Qed.

Lemma dates_only_removed_on_request_witness :
  hasEntryOnDate
    (entries
       (handleAll samplePlatform
          [RestoreFile "logs-only"; Delete false 0;
           Submit (Some sampleNow) (mkEntryForm None None "" "" "")]
          sampleState))
    (JStr "2024-01-08") = true.
Proof.
  apply (dates_only_removed_on_request samplePlatform); reflexivity.
Defined.
(* ================================================================== *)
(** * Clearing, and restoring what was exported *)

(** X9. Clearing all data and then restoring a full backup taken before
    brings back the entries and the settings, and leaves both persisted
    items in step with them; the store is assumed free of repeated dates,
    its entries shaped as the program creates them, and the backup text
    read back by the parser as the object that was serialised. *)
Theorem clear_then_restore_backup (P : platform) (exportedAt : string)
  (st : state) :
  dates_unique (entries st) ->
  forallb entry_shaped (entries st) = true ->
  JS.truthy (userSettings st) = true ->
  JSON_parse P (exportFullBackupJson P exportedAt st)
  = Some (backupEnvelope exportedAt st) ->
  let backup := exportFullBackupJson P exportedAt st in
  let cleared := handle P (Clear true) st in
  let st' := handle P (RestoreFile backup) cleared in
  entries cleared = [] /\ userSettings cleared = clearedSettings
  /\ Permutation (entries st') (entries st)
  /\ userSettings st' = userSettings st
  /\ entries_in_sync P st' /\ settings_in_sync P st'.
Proof.
  intros Hu Hs Ht Hp. cbv zeta.
  split; [reflexivity|]. split; [reflexivity|].
  cbn [handle].
  destruct (restore_parsed P _ _ (clearAllData P true st) Hp eq_refl)
    as (H1 & H2 & H3 & H4).
  cbn [backupEnvelope JS.prop_of JS.lookup String.eqb Ascii.eqb Bool.eqb]
    in H1, H2, H3, H4.
  rewrite Ht in H1, H2.
  destruct (sort_of_export P (entries st)
              (entries (clearAllData P true st)) Hu Hs) as [sorted Hsorted].
  { intros e0 []. }
  rewrite Hsorted in H4. destruct H4 as (H4 & _ & _).
  unfold entries_in_sync, settings_in_sync.
  rewrite H1, H2, H3, H4.
  split; [|auto]. apply merge_of_export; auto.
  intros e0 [].
Qed.

Lemma clear_then_restore_backup_witness :
  let backup :=
    exportFullBackupJson samplePlatform sampleExportedAt sampleState in
  let cleared := handle samplePlatform (Clear true) sampleState in
  let st' := handle samplePlatform (RestoreFile backup) cleared in
  entries cleared = [] /\ userSettings cleared = clearedSettings
  /\ Permutation (entries st') (entries sampleState)
  /\ userSettings st' = userSettings sampleState
  /\ entries_in_sync samplePlatform st'
  /\ settings_in_sync samplePlatform st'.
Proof.
  apply (clear_then_restore_backup samplePlatform sampleExportedAt
           sampleState).
  - unfold dates_unique. simpl. repeat constructor.
  - reflexivity.
  - reflexivity.
  - reflexivity.
Defined.

(* ================================================================== *)
(** * Restoring from pasted text *)

(** X10. The alerts of [restoreFromText].  When it says that the text
    does not look like a backup, the text parsed to a value that has no
    truthy [logs] property (a backup of the settings alone, for instance),
    and the state is the one before, alerts included.  When it says that
    the text could not be read, either the text is not JSON and the state
    is the one before, or the text parsed, the restore was started and it
    threw (in the sort of the merged entries or in the refresh of the
    page): the state is then the one the restore left. *)
Theorem paste_alert_cases (P : platform) (pasted : option string)
  (st st' : state) (a : pasteAlert) :
  restoreFromText P pasted st = (Some a, st') ->
  exists jsonText,
    pasted = Some jsonText /\ jsonText <> ""
    /\ match a with
       | PasteNotABackup =>
           st' = st
           /\ exists parsed,
                JSON_parse P jsonText = Some parsed
                /\ (JS.truthy parsed = false
                    \/ JS.truthy (JS.prop_of parsed "logs") = false)
       | PasteUnreadable =>
           (JSON_parse P jsonText = None /\ st' = st)
           \/ (exists parsed,
                 JSON_parse P jsonText = Some parsed
                 /\ JS.truthy parsed = true
                 /\ JS.truthy (JS.prop_of parsed "logs") = true
                 /\ fst (restoreFullBackupJsonFromText P jsonText st)
                    <> Ok tt
                 /\ st' = snd (restoreFullBackupJsonFromText P jsonText st))
       end.
Proof.
  unfold restoreFromText. destruct pasted as [jsonText|]; [|discriminate].
  destruct (String.eqb_spec jsonText "") as [->|Hne]; [discriminate|].
  intros E. exists jsonText. split; [reflexivity|]. split; [exact Hne|].
  destruct (JSON_parse P jsonText) as [parsed|] eqn:Hp.
  - destruct (JS.truthy parsed) eqn:Ht; simpl in E.
    + destruct (JS.truthy (JS.prop_of parsed "logs")) eqn:Hl.
      * destruct (restoreFullBackupJsonFromText P jsonText st)
          as [[[]| |] s]; try discriminate;
          injection E as <- <-; right; exists parsed;
          repeat split; auto; discriminate.
      * injection E as <- <-. split; [reflexivity|]. exists parsed. auto.
    + injection E as <- <-. split; [reflexivity|]. exists parsed. auto.
  - injection E as <- <-. left. auto.
Qed.

(** Pasting a backup whose first record is dated by an object, on a
    platform where converting that date throws: the sort of the restore
    throws, the paste path says that the text could not be read, and the
    three merged entries are in the store, unsaved and unannounced. *)
Lemma paste_alert_cases_witness :
  exists jsonText,
    Some "object-date" = Some jsonText /\ jsonText <> ""
    /\ ((JSON_parse throwingPlatform jsonText = None
         /\ mkState
              [mkEntry (JStr "2024-01-01") JNull (JStr "") (JStr "") JNull;
               sampleEntry2;
               mkEntry (JObj [("toString", JNum 0%float)]) JNull (JStr "")
                       (JStr "") JNull]
              sampleSettings None None []
            = sampleState)
        \/ (exists parsed,
              JSON_parse throwingPlatform jsonText = Some parsed
              /\ JS.truthy parsed = true
              /\ JS.truthy (JS.prop_of parsed "logs") = true
              /\ fst (restoreFullBackupJsonFromText throwingPlatform
                        jsonText sampleState) <> Ok tt
              /\ mkState
                   [mkEntry (JStr "2024-01-01") JNull (JStr "") (JStr "")
                            JNull;
                    sampleEntry2;
                    mkEntry (JObj [("toString", JNum 0%float)]) JNull
                            (JStr "") (JStr "") JNull]
                   sampleSettings None None []
                 = snd (restoreFullBackupJsonFromText throwingPlatform
                          jsonText sampleState))).
Proof.
  apply (paste_alert_cases throwingPlatform (Some "object-date")
           sampleState _ PasteUnreadable).
  reflexivity.
Defined.

(** X11. The backup copied to the clipboard carries the entries and not
    the settings.  Take a store that satisfies I1 and whose entries are
    those of the data model, and suppose the engine's parser reads the text
    that [JSON.stringify] writes for the clipboard envelope of that store
    back as that envelope.  Then pasting the copied text back after
    clearing all data restores the entries and leaves the settings as the
    clearing set them; the paste path shows no alert of its own when the
    refresh of the page that ends the restore completes, and the alert
    that the text could not be read when it throws. *)
Theorem clipboard_backup_has_no_settings (P : platform)
  (exportedAt : string) (st : state) :
  dates_unique (entries st) ->
  forallb model_entry (entries st) = true ->
  JSON_parse P
    (JSON_stringify_pretty P
       (JObj [("version", JNum 1%float); ("exportedAt", JStr exportedAt);
              ("logs", JArr (List.map entry_to_js (entries st)))]))
  = Some (JObj [("version", JNum 1%float); ("exportedAt", JStr exportedAt);
                ("logs", JArr (List.map entry_to_js (entries st)))]) ->
  let r :=
    restoreFromText P (Some (copyBackupText P exportedAt st))
      (clearAllData P true st) in
  fst r = match refreshAllUI P (snd r) with
          | Ok _ => None
          | _ => Some PasteUnreadable
          end
  /\ Permutation (entries (snd r)) (entries st)
  /\ userSettings (snd r) = clearedSettings.
Proof.
  intros Hu Hm Hp. cbv zeta.
  pose proof (model_entries_shaped _ Hm) as Hs.
  fold (clipboardEnvelope exportedAt st) in Hp.
  fold (copyBackupText P exportedAt st) in Hp.
  destruct (restoreFromText_cases P
              (Some (copyBackupText P exportedAt st))
              (clearAllData P true st))
    as [[a [E _]]|(t & p & Et & Hpt & _ & _ & E)].
  { exfalso. unfold restoreFromText in E.
    destruct (String.eqb_spec (copyBackupText P exportedAt st) "")
      as [E0|_].
    { rewrite E0 in Hp. rewrite JSON_parse_empty in Hp. discriminate. }
    rewrite Hp in E.
    cbn [clipboardEnvelope JS.truthy JS.prop_of JS.lookup
         String.eqb Ascii.eqb Bool.eqb andb] in E.
    destruct (restore_parsed P _ _ (clearAllData P true st) Hp eq_refl)
      as (_ & _ & _ & H4).
    cbn [clipboardEnvelope JS.truthy JS.prop_of JS.lookup String.eqb
         Ascii.eqb Bool.eqb] in H4.
    destruct (sort_of_export P (entries st)
                (entries (clearAllData P true st)) Hu Hs)
      as [sorted Hsorted].
    { intros e0 []. }
    rewrite Hsorted in H4. destruct H4 as (_ & H4 & _).
    destruct (restoreFullBackupJsonFromText P
                (copyBackupText P exportedAt st) (clearAllData P true st))
      as [[| |] s]; injection E as _ E; subst s;
      cbn [snd] in H4; apply (f_equal (@List.length alert)) in H4;
      rewrite length_app in H4; simpl in H4; lia. }
  injection Et as <-. rewrite E. cbn [fst snd].
  destruct (restore_parsed P _ _ (clearAllData P true st) Hp eq_refl)
    as (H1 & _ & H3 & H4).
  cbn [clipboardEnvelope JS.truthy JS.prop_of JS.lookup String.eqb Ascii.eqb
       Bool.eqb] in H1, H3, H4.
  destruct (sort_of_export P (entries st)
              (entries (clearAllData P true st)) Hu Hs) as [sorted Hsorted].
  { intros e0 []. }
  rewrite Hsorted in H4. destruct H4 as (_ & _ & H4).
  rewrite H4, H1, H3. split.
  - destruct (refreshAllUI P _); reflexivity.
  - split; [|reflexivity]. apply merge_of_export; auto. intros e0 [].
Qed.

Lemma clipboard_backup_has_no_settings_witness :
  let r :=
    restoreFromText clipboardPlatform
      (Some (copyBackupText clipboardPlatform sampleExportedAt sampleState))
      (clearAllData clipboardPlatform true sampleState) in
  fst r = None
  /\ Permutation (entries (snd r)) (entries sampleState)
  /\ userSettings (snd r) = clearedSettings.
Proof.
  apply (clipboard_backup_has_no_settings clipboardPlatform
           sampleExportedAt sampleState).
  - unfold dates_unique. simpl. repeat constructor.
  - reflexivity.
  - reflexivity.
Defined.

(* ================================================================== *)
(** * Notifications *)

Lemma setDate_back_Day (t n t' : Z) :
  DateObj.setDate (Some t)
    (option_map (fun d => d - n) (DateObj.getDate (Some t))) = Some t' ->
  DateObj.Day t' = DateObj.Day t - n.
Proof.
  unfold DateObj.setDate, DateObj.getDate, option_map.
  pose proof (civil_roundtrip (DateObj.Day t)) as H.
  destruct (Calendar.civil_from_days (DateObj.Day t)) as [[y m] d].
  destruct H as (H1 & H2 & H3). cbn [snd].
  rewrite MakeDay_civil by exact H2.
  rewrite (days_from_civil_day y m (d - n)).
  rewrite (days_from_civil_day y m d) in H1.
  unfold DateObj.timeClip.
  destruct (Z.abs _ <=? Calendar.maxTime); [|discriminate].
  intros E. injection E as <-.
  unfold DateObj.TimeWithinDay, DateObj.Day, Calendar.msPerDay in *.
  Z.div_mod_to_equations. lia.
Qed.

Lemma weekday_after (r : Z) :
  0 <= r < 7 ->
  PrimFloat.eqb (numberOf (Some ((r + 1) mod 7))) (numberOf (Some r))
  = false.
Proof.
  intros H.
  assert (E : r = 0 \/ r = 1 \/ r = 2 \/ r = 3 \/ r = 4 \/ r = 5 \/ r = 6)
    by lia.
  destruct E as [->|[->|[->|[->|[->|[->| ->]]]]]]; vm_compute; reflexivity.
Qed.

(** The weekday of today and that of yesterday are different numbers. *)
Lemma weekdays_differ (now : Date) (w : jsval) :
  let yesterday :=
    DateObj.setDate now
      (option_map (fun d => d - 1) (DateObj.getDate now)) in
  JS.strict_eq w (JNum (numberOf (getDay now))) = true ->
  JS.strict_eq w (JNum (numberOf (getDay yesterday))) = true -> False.
Proof.
  intros yesterday H1 H2.
  destruct w as [| | |x| | |]; simpl in H1, H2; try discriminate.
  assert (E : PrimFloat.eqb (numberOf (getDay now))
                (numberOf (getDay yesterday)) = true).
  { apply float_eqb_trans with x; auto. rewrite float_eqb_sym. exact H1. }
  clear H1 H2.
  destruct now as [t|].
  - destruct yesterday as [t'|] eqn:Ey.
    + unfold yesterday in Ey. apply setDate_back_Day in Ey.
      unfold getDay, option_map in E. rewrite Ey in E.
      replace ((DateObj.Day t + 4) mod 7)
        with (((DateObj.Day t - 1 + 4) mod 7 + 1) mod 7) in E
        by (Z.div_mod_to_equations; lia).
      rewrite weekday_after in E; [discriminate|].
      apply Z.mod_pos_bound. lia.
    + apply float_eqb_not_nan in E. destruct E as [_ Hn].
      discriminate Hn.
  - apply float_eqb_not_nan in E. destruct E as [Hn _]. discriminate Hn.
Qed.

(** X12. A check for notifications creates at most one of them, and none
    unless notifications are supported and granted and no entry has
    today's date.  The settings are assumed to be an object, as they are
    after loading, restoring or clearing. *)
Theorem at_most_one_notification (supported : bool)
  (permission : string) (now : Date) (st : state) :
  JS.nullish (userSettings st) = false ->
  exists ns,
    checkAndSendNotifications supported permission now st = Ok ns
    /\ (List.length ns <= 1)%nat
    /\ (ns <> [] ->
        supported = true /\ permission = "granted"
        /\ hasEntryOnDate (entries st) (JStr (getTodayDateString now))
           = false).
Proof.
  intros Hn. unfold checkAndSendNotifications.
  destruct supported; cbn [negb];
    [|exists []; split; [reflexivity|split; [auto|congruence]]].
  destruct (String.eqb_spec permission "granted") as [->|Hp]; cbn [negb];
    [|exists []; split; [reflexivity|split; [auto|congruence]]].
  unfold JS.get_prop. rewrite Hn.
  set (yesterday :=
         DateObj.setDate now
           (option_map (fun d => d - 1) (DateObj.getDate now))).
  destruct (hasEntryOnDate (entries st) (JStr (getTodayDateString now)))
    eqn:Et; cbn [negb rbind].
  - exists []. split; [|split; [auto|congruence]].
    destruct (_ && _); reflexivity.
  - destruct (JS.strict_eq (JS.prop_of (userSettings st) "weighInDay")
                (JNum (numberOf (getDay now)))) eqn:E1; cbn [rbind].
    + destruct (JS.strict_eq (JS.prop_of (userSettings st) "weighInDay")
                  (JNum (numberOf (getDay yesterday)))) eqn:E2.
      * exfalso. exact (weekdays_differ now _ E1 E2).
      * cbn [andb]. eexists. split; [reflexivity|]. simpl. auto.
    + destruct (_ && _); eexists; (split; [reflexivity|]); simpl; auto.
Qed.

Lemma at_most_one_notification_witness :
  exists ns,
    checkAndSendNotifications true "granted" (Some sampleNow) sampleState
    = Ok ns
    /\ (List.length ns <= 1)%nat
    /\ (ns <> [] ->
        true = true /\ "granted" = "granted"
        /\ hasEntryOnDate (entries sampleState)
             (JStr (getTodayDateString (Some sampleNow))) = false).
Proof.
  apply (at_most_one_notification true "granted"
           (Some sampleNow) sampleState).
  reflexivity.
Defined.
(* ================================================================== *)
(** * The figures of the week *)

Lemma setDate_back (t n : Z) :
  firstDay - 1 <= DateObj.Day t - n <= lastDay ->
  DateObj.setDate (Some t)
    (option_map (fun d => d - n) (DateObj.getDate (Some t)))
  = Some (t - n * Calendar.msPerDay).
Proof.
  intros Hv.
  unfold DateObj.setDate, DateObj.getDate, option_map.
  pose proof (civil_roundtrip (DateObj.Day t)) as H.
  destruct (Calendar.civil_from_days (DateObj.Day t)) as [[y m] d].
  destruct H as (H1 & H2 & H3). cbn [snd].
  rewrite MakeDay_civil by exact H2.
  rewrite (days_from_civil_day y m (d - n)).
  rewrite (days_from_civil_day y m d) in H1.
  assert (E : (Calendar.days_from_civil y m 1 + (d - n) - 1)
              * Calendar.msPerDay + DateObj.TimeWithinDay t
              = t - n * Calendar.msPerDay).
  { unfold DateObj.TimeWithinDay, DateObj.Day, Calendar.msPerDay in *.
    Z.div_mod_to_equations. lia. }
  rewrite E. apply timeClip_valid.
  unfold DateObj.Day, Calendar.msPerDay in *.
  Z.div_mod_to_equations. lia.
Qed.

Lemma days_leb (a b : Z) :
  (a * Calendar.msPerDay <=? b * Calendar.msPerDay) = (a <=? b).
Proof.
  unfold Calendar.msPerDay.
  destruct (Z.leb_spec a b), (Z.leb_spec (a * 86400000) (b * 86400000));
    auto; lia.
Qed.

Lemma days_ltb (a b : Z) :
  (a * Calendar.msPerDay <? b * Calendar.msPerDay) = (a <? b).
Proof.
  unfold Calendar.msPerDay.
  destruct (Z.ltb_spec a b), (Z.ltb_spec (a * 86400000) (b * 86400000));
    auto; lia.
Qed.

Lemma weekWindow_returns (P : platform) (now : Date) :
  exists today sevenDaysAgo, weekWindow P now = Ok (today, sevenDaysAgo).
Proof.
  unfold weekWindow, dateFromYMD.
  destruct (negb (JS.truthy (JStr (getTodayDateString now))));
    cbn [rbind]; eauto.
Qed.

Section WeekFacts.
Context (P : platform) (tnow : Z).

Let now : Date := Some tnow.
Let today : Z := DateObj.Day tnow.

Hypothesis today_valid : valid_day today.
Hypothesis week_valid : valid_day (today - 6).

Lemma weekWindow_of_day :
  weekWindow P now
  = Ok (Some (today * Calendar.msPerDay),
        Some ((today - 6) * Calendar.msPerDay)).
Proof.
  unfold weekWindow, getTodayDateString, now.
  rewrite formatDateToYMD_day. fold today.
  rewrite dateFromYMD_of_day by (unfold valid_day in today_valid; lia).
  cbn [rbind]. rewrite setDate_back.
  - do 3 f_equal. lia.
  - rewrite Day_of_day. unfold valid_day in week_valid. lia.
Qed.

Lemma entriesThisWeek_filter (es : list entry) (ds : list Z) :
  Forall valid_day ds ->
  List.map date es = List.map (fun d => JStr (ymd_of_day d)) ds ->
  filterR
    (fun e =>
       do d <- dateFromYMD P now (date e);
       Ok (dateLe (Some ((today - 6) * Calendar.msPerDay)) d
           && dateLe d (Some (today * Calendar.msPerDay))))
    es
  = Ok (weekOf today es ds).
Proof.
  revert ds. induction es as [|e es IH]; intros [|z ds] Hv Hd;
    try discriminate; [reflexivity|].
  inversion Hv as [|? ? Hz Hv']; subst.
  simpl in Hd. injection Hd as Hd1 Hd2.
  cbn [filterR]. rewrite Hd1.
  rewrite dateFromYMD_of_day by (unfold valid_day in Hz; lia).
  cbn [rbind]. rewrite (IH ds Hv' Hd2). cbn [rbind].
  unfold weekOf. cbn [combine filter snd]. unfold dateLe.
  rewrite !days_leb.
  destruct ((today - 6 <=? z) && (z <=? today)); reflexivity.
Qed.

Lemma entriesThisWeek_window (es : list entry) (ds : list Z) :
  Forall valid_day ds ->
  List.map date es = List.map (fun d => JStr (ymd_of_day d)) ds ->
  entriesThisWeek P now es = Ok (weekOf today es ds).
Proof.
  intros Hv Hd. unfold entriesThisWeek. rewrite weekWindow_of_day.
  cbn [rbind]. apply entriesThisWeek_filter; auto.
Qed.

Lemma caloriesThisWeek_fold (all es : list entry) (ds : list Z)
  (acc : float) :
  Forall valid_day ds ->
  List.map date es = List.map (fun d => JStr (ymd_of_day d)) ds ->
  fold_left
    (fun acc e =>
       do total <- acc;
       do d <- dateFromYMD P now (date e);
       if dateLt d (Some ((today - 6) * Calendar.msPerDay))
          || dateLt (Some (today * Calendar.msPerDay)) d
       then Ok total
       else match calculateEntryCalories P all e with
            | Some cals => Ok (total + cals)%float
            | None => Ok total
            end)
    es (Ok acc)
  = Ok (fold_left
          (fun total e =>
             match calculateEntryCalories P all e with
             | Some cals => (total + cals)%float
             | None => total
             end)
          (weekOf today es ds) acc).
Proof.
  revert ds acc. induction es as [|e es IH]; intros [|z ds] acc Hv Hd;
    try discriminate; [reflexivity|].
  inversion Hv as [|? ? Hz Hv']; subst.
  simpl in Hd. injection Hd as Hd1 Hd2.
  cbn [fold_left rbind]. rewrite Hd1.
  rewrite dateFromYMD_of_day by (unfold valid_day in Hz; lia).
  cbn [rbind]. unfold dateLt. rewrite !days_ltb.
  unfold weekOf. cbn [combine filter snd].
  replace ((today - 6 <=? z) && (z <=? today))
    with (negb ((z <? today - 6) || (today <? z)))
    by (destruct (Z.ltb_spec z (today - 6)), (Z.ltb_spec today z),
          (Z.leb_spec (today - 6) z), (Z.leb_spec z today);
        simpl; auto; lia).
  destruct ((z <? today - 6) || (today <? z)); cbn [negb map fst fold_left].
  - apply (IH ds acc Hv' Hd2).
  - destruct (calculateEntryCalories P all e); apply (IH ds _ Hv' Hd2).
Qed.

Lemma caloriesThisWeek_window (es : list entry) (ds : list Z) :
  Forall valid_day ds ->
  List.map date es = List.map (fun d => JStr (ymd_of_day d)) ds ->
  calculateCaloriesThisWeek P now es
  = Ok (caloriesOf P es (weekOf today es ds)).
Proof.
  intros Hv Hd. unfold calculateCaloriesThisWeek, caloriesOf.
  destruct es as [|e0 es0] eqn:Ees.
  - destruct ds; [reflexivity|discriminate].
  - rewrite <- Ees in *. rewrite weekWindow_of_day. cbn [rbind].
    apply caloriesThisWeek_fold; auto.
Qed.

Lemma entriesThisWeek_dated (es : list entry) (dts : list Date) :
  Forall2 (fun e d => dateFromYMD P now (date e) = Ok d) es dts ->
  filterR
    (fun e =>
       do d <- dateFromYMD P now (date e);
       Ok (dateLe (Some ((today - 6) * Calendar.msPerDay)) d
           && dateLe d (Some (today * Calendar.msPerDay))))
    es
  = Ok (List.map fst
          (filter (datedWithin (Some ((today - 6) * Calendar.msPerDay))
                               (Some (today * Calendar.msPerDay)))
                  (combine es dts))).
Proof.
  induction 1 as [|e d es dts Hd _ IH]; [reflexivity|].
  cbn [filterR combine filter]. rewrite Hd. cbn [rbind].
  rewrite IH. cbn [rbind]. unfold datedWithin. cbn [snd].
  destruct (dateLe _ d && dateLe d _); reflexivity.
Qed.

Lemma caloriesThisWeek_dated (all es : list entry) (dts : list Date)
  (acc : float) :
  Forall2 (fun e d => dateFromYMD P now (date e) = Ok d) es dts ->
  fold_left
    (fun acc e =>
       do total <- acc;
       do d <- dateFromYMD P now (date e);
       if dateLt d (Some ((today - 6) * Calendar.msPerDay))
          || dateLt (Some (today * Calendar.msPerDay)) d
       then Ok total
       else match calculateEntryCalories P all e with
            | Some cals => Ok (total + cals)%float
            | None => Ok total
            end)
    es (Ok acc)
  = Ok (fold_left
          (fun total e =>
             match calculateEntryCalories P all e with
             | Some cals => (total + cals)%float
             | None => total
             end)
          (List.map fst
             (filter
                (fun p =>
                   datedWithin (Some ((today - 6) * Calendar.msPerDay))
                               (Some (today * Calendar.msPerDay)) p
                   || datedInvalid p)
                (combine es dts)))
          acc).
Proof.
  intros H. revert acc. induction H as [|e d es dts Hd _ IH]; intros acc;
    [reflexivity|].
  cbn [fold_left rbind combine filter]. rewrite Hd. cbn [rbind].
  unfold datedWithin, datedInvalid. cbn [snd].
  replace (dateLe (Some ((today - 6) * Calendar.msPerDay)) d
           && dateLe d (Some (today * Calendar.msPerDay))
           || match d with Some _ => false | None => true end)
    with (negb (dateLt d (Some ((today - 6) * Calendar.msPerDay))
                || dateLt (Some (today * Calendar.msPerDay)) d)).
  2: { destruct d as [x|]; [|reflexivity]. unfold dateLt, dateLe.
       rewrite orb_false_r.
       destruct (Z.ltb_spec x ((today - 6) * Calendar.msPerDay)),
         (Z.ltb_spec (today * Calendar.msPerDay) x),
         (Z.leb_spec ((today - 6) * Calendar.msPerDay) x),
         (Z.leb_spec x (today * Calendar.msPerDay));
         simpl; auto; lia. }
  destruct (dateLt d _ || dateLt _ d); cbn [negb map fst fold_left].
  - apply IH.
  - destruct (calculateEntryCalories P all e); apply IH.
Qed.

End WeekFacts.

(** X13. On a store of ISO date strings, evaluated at an instant of the
    day [today], [calculateCaloriesThisWeek] adds up, in store order, the
    calories of the entries dated from six days before [today] to [today],
    both included. *)
Theorem calories_this_week_window (P : platform) (tnow : Z)
  (es : list entry) (ds : list Z) :
  let today := DateObj.Day tnow in
  valid_day today -> valid_day (today - 6) ->
  Forall valid_day ds ->
  List.map date es = List.map (fun d => JStr (ymd_of_day d)) ds ->
  calculateCaloriesThisWeek P (Some tnow) es
  = Ok (caloriesOf P es (weekOf today es ds)).
Proof.
  intros today H1 H2 H3 H4. apply caloriesThisWeek_window; auto.
Qed.

Lemma calories_this_week_window_witness :
  calculateCaloriesThisWeek samplePlatform (Some sampleNow) streakEntries
  = Ok (caloriesOf samplePlatform streakEntries
          (weekOf (DateObj.Day sampleNow) streakEntries
             [DateObj.Day sampleNow - 2; DateObj.Day sampleNow;
              DateObj.Day sampleNow - 1])).
Proof.
  apply (calories_this_week_window samplePlatform sampleNow streakEntries
           [DateObj.Day sampleNow - 2; DateObj.Day sampleNow;
            DateObj.Day sampleNow - 1]).
  - vm_compute. split; discriminate.
  - vm_compute. split; discriminate.
  - repeat constructor; vm_compute; discriminate.
  - vm_compute. reflexivity.
Defined.

(** X14. The two weekly figures do not treat an unreadable date alike.
    On a store whose dates all give a [Date], valid or not, evaluated at an
    instant of the day [today]: the entries of the week are those whose
    [Date] lies from the midnight six days before [today] to the midnight
    of [today]; the calories of the week are added up over those entries
    and over the entries whose [Date] is invalid. *)
Theorem invalid_date_counts_for_calories_only (P : platform) (tnow : Z)
  (es : list entry) (dts : list Date) :
  let today := DateObj.Day tnow in
  let lo := Some ((today - 6) * Calendar.msPerDay) in
  let hi := Some (today * Calendar.msPerDay) in
  valid_day today -> valid_day (today - 6) ->
  Forall2 (fun e d => dateFromYMD P (Some tnow) (date e) = Ok d) es dts ->
  entriesThisWeek P (Some tnow) es
  = Ok (List.map fst (filter (datedWithin lo hi) (combine es dts)))
  /\ calculateCaloriesThisWeek P (Some tnow) es
     = Ok (caloriesOf P es
             (List.map fst
                (filter (fun p => datedWithin lo hi p || datedInvalid p)
                        (combine es dts)))).
Proof.
  intros today lo hi H1 H2 H3. split.
  - unfold entriesThisWeek. rewrite weekWindow_of_day by assumption.
    cbn [rbind]. apply entriesThisWeek_dated. exact H3.
  - unfold calculateCaloriesThisWeek, caloriesOf.
    destruct es as [|e0 es0] eqn:Ees.
    + inversion H3. reflexivity.
    + rewrite <- Ees in *. rewrite weekWindow_of_day by assumption.
      cbn [rbind]. apply caloriesThisWeek_dated. exact H3.
Qed.

(** The three entries of the sample week and one dated [soon], which gives
    an invalid [Date]: three entries this week, and the calories of all
    four. *)
Lemma invalid_date_counts_for_calories_only_witness :
  let soon := mkEntry (JStr "soon") (JNum 80%float) (JStr "") (JStr "")
                      (JNum 30%float) in
  entriesThisWeek samplePlatform (Some sampleNow) (streakEntries ++ [soon])
  = Ok streakEntries
  /\ calculateCaloriesThisWeek samplePlatform (Some sampleNow)
       (streakEntries ++ [soon])
     = Ok (caloriesOf samplePlatform (streakEntries ++ [soon])
             (streakEntries ++ [soon])).
Proof.
  apply (invalid_date_counts_for_calories_only samplePlatform sampleNow
           (streakEntries
            ++ [mkEntry (JStr "soon") (JNum 80%float) (JStr "") (JStr "")
                        (JNum 30%float)])
           [DateObj.ofYMD 2024 1 28; DateObj.ofYMD 2024 2 1;
            DateObj.ofYMD 2024 1 29; None]).
  - vm_compute. split; discriminate.
  - vm_compute. split; discriminate.
  - repeat constructor.
Defined.

(* ================================================================== *)
(** * The dashboard *)

Section DashboardFacts.
Context (P : platform) (tnow : Z) (es : list entry) (ds : list Z).

Let now : Date := Some tnow.
Let today : Z := DateObj.Day tnow.

Hypothesis today_valid : valid_day today.
Hypothesis days_valid : Forall valid_day ds.
Hypothesis entry_dates :
  List.map date es = List.map (fun d => JStr (ymd_of_day d)) ds.

Lemma entry_date_read (e : entry) :
  In e es -> exists z, valid_day z /\ date e = JStr (ymd_of_day z).
Proof.
  intros He. apply (in_map date) in He. rewrite entry_dates in He.
  apply in_map_iff in He. destruct He as [z [Ez Hz]].
  exists z. split; [|auto].
  rewrite Forall_forall in days_valid. auto.
Qed.

Lemma streak_returns (fuel : nat) :
  (List.length es <= fuel)%nat ->
  exists n, calculateCurrentStreak P fuel now es = Ok n.
Proof.
  intros Hfuel. destruct ds as [|d0 ds0] eqn:Eds.
  - destruct es; [|discriminate]. exists 0%nat. reflexivity.
  - rewrite <- Eds in *.
    destruct (streak_general P tnow es ds today_valid days_valid
                entry_dates fuel) as (m & _ & _ & H0 & H1); auto.
    { rewrite Eds. discriminate. }
    destruct (Z.eq_dec m (DateObj.Day tnow)) as [E|N1].
    + destruct H1 as (k & Hk & _); eauto.
    + destruct (Z.eq_dec m (DateObj.Day tnow - 1)) as [E|N2].
      * destruct H1 as (k & Hk & _); eauto.
      * eauto.
Qed.

(** The ascending sort of the weight-bearing entries returns them in the
    order of their dates. *)
Lemma weights_sorted (ews : list entry) :
  incl ews es ->
  exists s,
    JS.sort (fun a b => compareByDateAsc P now (date a) (date b)) ews = Ok s
    /\ StronglySorted (fun a b => entryTime P now a <= entryTime P now b) s
    /\ Permutation ews s.
Proof.
  intros Hincl.
  apply (sort_sorted (fun a b => compareByDateAsc P now (date a) (date b))
           (entryTime P now) es).
  - intros a b Ha Hb.
    destruct (entry_date_read a Ha) as [za [Hza Ea]].
    destruct (entry_date_read b Hb) as [zb [Hzb Eb]].
    unfold compareByDateAsc, entryTime, dateTime. rewrite Ea, Eb.
    rewrite !dateFromYMD_of_day by (unfold valid_day in *; lia).
    reflexivity.
  - exact Hincl.
Qed.

End DashboardFacts.

(** X15. The dashboard of a store of ISO date strings, evaluated at an
    instant of the day [today] with a loop budget of at least the number of
    entries.  It shows the number of entries dated within the seven days
    that end today, their calories, and the streak.  With no recorded
    weight it shows a dash for the current weight and for the total loss;
    otherwise the current weight is the weight of a weight-bearing entry of
    the latest date, and the total loss is the weight of one of the
    earliest date minus it. *)
Theorem dashboard_figures (P : platform) (tnow : Z) (fuel : nat)
  (es : list entry) (ds : list Z) :
  let today := DateObj.Day tnow in
  let now := Some tnow in
  valid_day today -> valid_day (today - 6) ->
  Forall valid_day ds ->
  List.map date es = List.map (fun d => JStr (ymd_of_day d)) ds ->
  (List.length es <= fuel)%nat ->
  exists dash,
    dashboardSummary P fuel now es = Ok dash
    /\ shownEntriesWeek dash = List.length (weekOf today es ds)
    /\ shownCaloriesWeek dash = caloriesOf P es (weekOf today es ds)
    /\ calculateCurrentStreak P fuel now es = Ok (shownStreak dash)
    /\ ((forall e, In e es -> JS.is_real_number (weight e) = false) ->
        shownCurrentWeight dash = None /\ shownTotalLoss dash = None)
    /\ ((exists e, In e es /\ JS.is_real_number (weight e) = true) ->
        exists earliest latest w0 w1,
          In earliest es /\ In latest es
          /\ weight earliest = JNum w0 /\ weight latest = JNum w1
          /\ (forall e, In e es -> JS.is_real_number (weight e) = true ->
                        entryTime P now earliest <= entryTime P now e
                        /\ entryTime P now e <= entryTime P now latest)
          /\ shownCurrentWeight dash = Some w1
          /\ shownTotalLoss dash = Some (w0 - w1)%float).
Proof.
  intros today now Ht Hw Hv Hd Hfuel.
  destruct (streak_returns P tnow es ds Ht Hv Hd fuel Hfuel) as [n Hn].
  pose proof (entriesThisWeek_window P tnow Ht Hw es ds Hv Hd) as Hweek.
  pose proof (caloriesThisWeek_window P tnow Ht Hw es ds Hv Hd) as Hcal.
  fold now in Hn, Hweek, Hcal. fold today in Hweek, Hcal.
  unfold dashboardSummary.
  destruct es as [|e0 es0] eqn:Ees.
  { destruct ds; [|discriminate]. eexists. split; [reflexivity|].
    cbn [shownEntriesWeek shownCaloriesWeek shownStreak shownCurrentWeight
         shownTotalLoss].
    split; [reflexivity|]. split; [reflexivity|]. split; [reflexivity|].
    split; [auto|]. intros [e [[] _]]. }
  rewrite <- Ees in *. clear Ees e0 es0.
  set (ews := filter (fun e => JS.is_real_number (weight e)) es).
  assert (Hews : forall e, In e ews <->
                           In e es /\ JS.is_real_number (weight e) = true)
    by (intros e; apply filter_In).
  destruct ews as [|e2 l] eqn:Eews.
  - cbn [rbind]. rewrite Hweek. cbn [rbind]. rewrite Hn. cbn [rbind].
    rewrite Hcal. cbn [rbind fst snd].
    eexists. split; [reflexivity|].
    cbn [shownEntriesWeek shownCaloriesWeek shownStreak shownCurrentWeight
         shownTotalLoss].
    split; [reflexivity|]. split; [reflexivity|]. split; [reflexivity|].
    split; [auto|]. intros [e [He1 He2]].
    destruct (proj2 (Hews e) (conj He1 He2)).
  - rewrite <- Eews in *.
    destruct (weights_sorted P tnow es ds Hv Hd ews)
      as (s & Es & Hsorted & Hperm).
    { intros e He. apply Hews in He. tauto. }
    fold now in Es, Hsorted. rewrite Es. cbn [rbind].
    rewrite Hweek. cbn [rbind]. rewrite Hn. cbn [rbind].
    rewrite Hcal. cbn [rbind fst snd].
    eexists. split; [reflexivity|].
    cbn [shownEntriesWeek shownCaloriesWeek shownStreak shownCurrentWeight
         shownTotalLoss].
    split; [reflexivity|]. split; [reflexivity|]. split; [reflexivity|].
    split.
    { intros Hnone. exfalso.
      assert (Hin : In e2 ews) by (rewrite Eews; left; reflexivity).
      apply Hews in Hin. destruct Hin as [Hin Hw2].
      rewrite (Hnone e2 Hin) in Hw2. discriminate. }
    intros _.
    assert (Hne : s <> []).
    { intros ->. apply Permutation_sym, Permutation_nil in Hperm.
      rewrite Hperm in Eews. discriminate. }
    destruct (sorted_last_max (entryTime P now) s e2 Hsorted Hne)
      as [Hlast Hmax].
    destruct (sorted_head_min (entryTime P now) s e2 Hsorted Hne)
      as [Hhead Hmin].
    assert (Hlast' : In (List.last s e2) ews)
      by (eapply Permutation_in;
          [apply Permutation_sym; exact Hperm|exact Hlast]).
    assert (Hhead' : In (List.hd e2 s) ews)
      by (eapply Permutation_in;
          [apply Permutation_sym; exact Hperm|exact Hhead]).
    apply Hews in Hlast', Hhead'.
    destruct Hlast' as [Hl1 Hl2], Hhead' as [Hh1 Hh2].
    destruct (weight (List.last s e2)) as [| | |w1| | |] eqn:Ew1;
      try discriminate.
    destruct (weight (List.hd e2 s)) as [| | |w0| | |] eqn:Ew0;
      try discriminate.
    exists (List.hd e2 s), (List.last s e2), w0, w1.
    split; [exact Hh1|]. split; [exact Hl1|].
    split; [exact Ew0|]. split; [exact Ew1|].
    split; [|split; reflexivity].
    intros e He Hwe.
    assert (Hs : In e s)
      by (eapply Permutation_in; [exact Hperm|]; apply Hews; auto).
    split; [apply Hmin|apply Hmax]; exact Hs.
Qed.

Lemma dashboard_figures_witness :
  exists dash,
    dashboardSummary samplePlatform 3 (Some sampleNow) streakEntries
    = Ok dash
    /\ shownEntriesWeek dash = 3%nat.
Proof.
  pose (today := DateObj.Day sampleNow).
  destruct (dashboard_figures samplePlatform sampleNow 3 streakEntries
              [today - 2; today; today - 1])
    as (dash & H1 & H2 & _).
  - vm_compute. split; discriminate.
  - vm_compute. split; discriminate.
  - repeat constructor; vm_compute; discriminate.
  - vm_compute. reflexivity.
  - simpl. lia.
  - exists dash. split; [exact H1|]. rewrite H2. vm_compute. reflexivity.
Defined.
(* ================================================================== *)
(** * The history table *)

Lemma StronglySorted_weaken {A : Type} (R R' : A -> A -> Prop)
  (l : list A) :
  (forall a b, R a b -> R' a b) ->
  StronglySorted R l -> StronglySorted R' l.
Proof.
  intros H. induction 1 as [|a l Hs IH Hall]; constructor; auto.
  eapply Forall_impl; [|exact Hall]. auto.
Qed.

Lemma StronglySorted_map {A B : Type} (f : A -> B) (R : B -> B -> Prop)
  (l : list A) :
  StronglySorted (fun a b => R (f a) (f b)) l ->
  StronglySorted R (List.map f l).
Proof.
  induction 1 as [|a l Hs IH Hall]; simpl; constructor; auto.
  apply Forall_forall. intros y Hy. apply in_map_iff in Hy.
  destruct Hy as [x [<- Hx]]. rewrite Forall_forall in Hall. auto.
Qed.

(** The pairs of the entries of a store of ISO date strings and their
    days. *)
Lemma combine_days (P : platform) (now : Date) (es : list entry)
  (ds : list Z) :
  Forall valid_day ds ->
  List.map date es = List.map (fun d => JStr (ymd_of_day d)) ds ->
  combine es ds
  = List.map (fun e => (e, entryTime P now e / Calendar.msPerDay)) es.
Proof.
  revert ds. induction es as [|e es IH]; intros [|z ds] Hv Hd;
    try discriminate; [reflexivity|].
  inversion Hv as [|? ? Hz Hv']; subst.
  simpl in Hd. injection Hd as Hd1 Hd2.
  simpl. rewrite (IH ds Hv' Hd2). do 2 f_equal.
  unfold entryTime, dateTime. rewrite Hd1.
  rewrite dateFromYMD_of_day by (unfold valid_day in Hz; lia).
  unfold Calendar.msPerDay. symmetry. apply Z.div_mul. discriminate.
Qed.

(** X16. The history table lists every entry of a store of ISO date
    strings once, the newer above the older: for a store whose dates are
    the strings of the days [ds], its rows are the entries of a
    rearrangement of the pairs of an entry and its day in which no pair
    stands above a pair of a later day. *)
Theorem history_newest_first (P : platform) (now : Date)
  (es : list entry) (ds : list Z) :
  Forall valid_day ds ->
  List.map date es = List.map (fun d => JStr (ymd_of_day d)) ds ->
  exists pairs,
    Permutation (combine es ds) pairs
    /\ StronglySorted (fun p q => snd q <= snd p) pairs
    /\ historyOrder P now es = Ok (List.map fst pairs).
Proof.
  intros Hv Hd. unfold historyOrder.
  destruct (sort_sorted
              (fun a b => compareByDateAsc P now (date b) (date a))
              (fun e => - entryTime P now e) es) with (l := es)
    as (s & Es & Hsorted & Hperm).
  { intros a b Ha Hb.
    apply (in_map date) in Ha, Hb. rewrite Hd in Ha, Hb.
    apply in_map_iff in Ha, Hb.
    destruct Ha as [za [Ea Hza]], Hb as [zb [Eb Hzb]].
    rewrite Forall_forall in Hv.
    pose proof (Hv za Hza) as Va. pose proof (Hv zb Hzb) as Vb.
    unfold compareByDateAsc, entryTime, dateTime. rewrite <- Ea, <- Eb.
    rewrite !dateFromYMD_of_day by (unfold valid_day in *; lia).
    simpl. do 2 f_equal. lia. }
  { apply incl_refl. }
  exists (List.map (fun e => (e, entryTime P now e / Calendar.msPerDay)) s).
  split; [|split].
  - rewrite (combine_days P now es ds Hv Hd).
    apply Permutation_map. exact Hperm.
  - apply StronglySorted_map. cbn [snd].
    eapply StronglySorted_weaken; [|exact Hsorted].
    intros a b H. simpl in H.
    apply Z.div_le_mono; [reflexivity|lia].
  - rewrite map_map. cbn [fst]. rewrite map_id.
    destruct es; [|exact Es]. simpl in Es. congruence.
Qed.

(** The sample store, dated 2024-01-01 (day 19723) and 2024-01-08 (day
    19730). *)
Lemma history_newest_first_witness :
  exists pairs,
    Permutation (combine (entries sampleState) [19723; 19730]) pairs
    /\ StronglySorted (fun p q => snd q <= snd p) pairs
    /\ historyOrder samplePlatform None (entries sampleState)
       = Ok (List.map fst pairs).
Proof.
  apply (history_newest_first samplePlatform None (entries sampleState)
           [19723; 19730]).
  - repeat constructor; vm_compute; discriminate.
  - vm_compute. reflexivity.
Defined.

(* ================================================================== *)
(** * The CSV export *)

Lemma mapR_ext {A B : Type} (f : A -> result B) (l l' : list A) :
  Forall2 (fun a b => f a = f b) l l' -> mapR f l = mapR f l'.
Proof.
  induction 1 as [|a b l l' H _ IH]; simpl; [reflexivity|].
  rewrite H, IH. reflexivity.
Qed.

(** X17. The CSV export does not read the duration of an entry that the
    form or a restore created: two stores whose entries agree on date,
    weight, activity and notes export the same text, whatever their
    durations (the columns "Duration (min)" and "Calories" are read from
    properties these objects do not have, and come out as 0). *)
Theorem csv_export_ignores_duration (F : formatting)
  (es es' : list entry) :
  Forall2 (fun a b => date a = date b /\ weight a = weight b
                      /\ activityType a = activityType b
                      /\ notes a = notes b) es es' ->
  exportToCsv F (List.map entry_to_js es)
  = exportToCsv F (List.map entry_to_js es').
Proof.
  intros H. unfold exportToCsv.
  assert (E : mapR (csvRow F) (List.map entry_to_js es)
              = mapR (csvRow F) (List.map entry_to_js es')).
  { apply mapR_ext. induction H as [|a b l l' Hab _ IH]; simpl.
    - constructor.
    - constructor; [|exact IH].
      destruct Hab as (H1 & H2 & H3 & H4).
      unfold csvRow, entry_to_js. simpl. rewrite H1, H2, H3, H4.
      reflexivity. }
  destruct H; simpl in *; [reflexivity|].
  rewrite E. reflexivity.
Qed.

Lemma csv_export_ignores_duration_witness :
  exportToCsv sampleFormatting (List.map entry_to_js [sampleEntry2])
  = exportToCsv sampleFormatting
      (List.map entry_to_js
         [mkEntry (JStr "2024-01-08") (JNum 78%float) (JStr "ריצה")
                  (JStr "") JNull]).
Proof.
  apply (csv_export_ignores_duration sampleFormatting).
  repeat constructor.
Defined.

(* ================================================================== *)
(** * The BMI card *)

(** X18. The BMI card is consistent with the data: the hint to enter a
    weight is shown only when the height is a positive number and no entry
    has a recorded weight, the hint to set the height only when the height
    is not a positive number, and the colour of the card always goes with
    the category text. *)
Theorem bmi_card_consistent (P : platform) (now : Date) (es : list entry)
  (settings : jsval) :
  match refreshBmiDisplay P now es settings with
  | Ok (inl HintEnterWeight) =>
      (exists h, JS.prop_of settings "heightCm" = JNum h
                 /\ PrimFloat.ltb 0%float h = true)
      /\ forall e, In e es -> JS.is_real_number (weight e) = false
  | Ok (inl HintSetHeight) =>
      forall h, JS.truthy settings = true ->
                JS.prop_of settings "heightCm" = JNum h ->
                PrimFloat.is_nan h = false ->
                PrimFloat.ltb 0%float h = false
  | Ok (inr (bmi, category, colour)) =>
      (colour = Yellow /\ category = cat_underweight)
      \/ (colour = Green /\ category = cat_normal)
      \/ (colour = Orange /\ category = cat_overweight)
      \/ (colour = Red /\ category = cat_obese)
  | _ => True
  end.
Proof.
  unfold refreshBmiDisplay.
  destruct (calculateCurrentBmi P now es settings) as [[[bmi cat]|]| |]
    eqn:Eb; cbn [rbind]; auto.
  - assert (cat = bmi_category bmi).
    { unfold calculateCurrentBmi in Eb.
      destruct es; [discriminate|].
      destruct (negb (JS.truthy settings)); [discriminate|].
      destruct (JS.prop_of settings "heightCm"); try discriminate.
      destruct (_ || _); [discriminate|].
      destruct (filter _ _); [discriminate|].
      destruct (JS.sort _ _); simpl in Eb; try discriminate.
      congruence. }
    subst cat. unfold bmi_category.
    destruct (PrimFloat.ltb bmi 18.5%float); auto.
    destruct (PrimFloat.ltb bmi 25%float); auto.
    destruct (PrimFloat.ltb bmi 30%float); auto 6.
  - destruct (JS.truthy settings) eqn:Ht; cbn [andb].
    + destruct (JS.prop_of settings "heightCm") as [| | |h| | |] eqn:Eh;
        try (intros h0 _ E; discriminate E).
      destruct (PrimFloat.is_nan h) eqn:En; cbn [negb andb].
      * intros h0 _ E Hn. injection E as <-. congruence.
      * destruct (PrimFloat.ltb 0%float h) eqn:El.
        -- split; [exists h; auto|].
           unfold calculateCurrentBmi in Eb.
           destruct es as [|e0 es0] eqn:Ees; [intros e []|].
           rewrite <- Ees in *. rewrite Ht, Eh, En in Eb.
           cbn [negb orb] in Eb.
           destruct (PrimFloat.leb h 0%float) eqn:Ele.
           { apply float_leb_ltb in Ele. congruence. }
           destruct (filter (fun e => JS.is_real_number (weight e)) es)
             as [|e1 l] eqn:Ef.
           ++ intros e He.
              destruct (JS.is_real_number (weight e)) eqn:Ew; auto.
              assert (Hin : In e (filter
                                    (fun e => JS.is_real_number (weight e))
                                    es))
                by (apply filter_In; auto).
              rewrite Ef in Hin. destruct Hin.
           ++ destruct (JS.sort _ _); simpl in Eb; discriminate.
        -- intros h0 _ E _. injection E as <-. exact El.
    + intros h Hh. discriminate.
Qed.

(* ================================================================== *)
(** * The settings as loaded *)

(** X19. Whatever the persisted settings item holds, [loadSettings]
    returns an object of the four settings, in which the height is [null]
    or a number other than zero and NaN, the weigh-in day is [null] or a
    number, and the name and picture address are truthy or the empty
    string. *)
Theorem loadSettings_normal_form (P : platform) (raw : option string) :
  exists firstName heightCm weighInDay profilePicUrl,
    fst (loadSettings P raw)
    = JObj [("firstName", firstName); ("heightCm", heightCm);
            ("weighInDay", weighInDay); ("profilePicUrl", profilePicUrl)]
    /\ (firstName = JStr "" \/ JS.truthy firstName = true)
    /\ (heightCm = JNull
        \/ exists h, heightCm = JNum h /\ PrimFloat.is_nan h = false
                     /\ PrimFloat.eqb h 0%float = false)
    /\ (weighInDay = JNull \/ exists d, weighInDay = JNum d)
    /\ (profilePicUrl = JStr "" \/ JS.truthy profilePicUrl = true).
Proof.
  assert (Hdef : exists firstName heightCm weighInDay profilePicUrl,
             defaultSettings
             = JObj [("firstName", firstName); ("heightCm", heightCm);
                     ("weighInDay", weighInDay);
                     ("profilePicUrl", profilePicUrl)]
             /\ (firstName = JStr "" \/ JS.truthy firstName = true)
             /\ (heightCm = JNull
                 \/ exists h, heightCm = JNum h
                              /\ PrimFloat.is_nan h = false
                              /\ PrimFloat.eqb h 0%float = false)
             /\ (weighInDay = JNull \/ exists d, weighInDay = JNum d)
             /\ (profilePicUrl = JStr ""
                 \/ JS.truthy profilePicUrl = true)).
  { exists (JStr ""), JNull, JNull, (JStr ""). unfold defaultSettings.
    auto 10. }
  assert (Hor : forall v, JS.or_else v (JStr "") = JStr ""
                          \/ JS.truthy (JS.or_else v (JStr "")) = true).
  { intros v. unfold JS.or_else. destruct (JS.truthy v) eqn:E; auto. }
  unfold loadSettings, try_catch_log, parseJson.
  destruct raw as [r|]; [|exact Hdef].
  destruct (String.eqb r ""); [exact Hdef|].
  destruct (JSON_parse P r) as [parsed|]; [|exact Hdef].
  cbn [rbind]. unfold JS.get_prop.
  destruct (JS.nullish parsed); cbn [rbind fst]; [exact Hdef|].
  eexists _, _, _, _. split; [reflexivity|].
  split; [apply Hor|]. split; [|split; [|apply Hor]].
  - unfold JS.or_else.
    destruct (JS.truthy (JNum (ToNumber P (JS.prop_of parsed "heightCm"))))
      eqn:E; [|left; reflexivity].
    right. eexists. split; [reflexivity|]. simpl in E.
    apply negb_true_iff in E. apply orb_false_iff in E. tauto.
  - destruct (JS.prop_of parsed "weighInDay"); eauto.
Qed.
(* ================================================================== *)
(** * Restoring twice *)

Lemma svz_primitive (v : jsval) :
  primitive v = true -> JS.same_value_zero v v = true.
Proof.
  destruct v; simpl; try discriminate; intros _; auto.
  - apply Bool.eqb_reflx.
  - unfold PrimFloat.is_nan. destruct (PrimFloat.eqb x x); reflexivity.
  - apply String.eqb_refl.
Qed.

Lemma svz_refl_l (a b : jsval) :
  JS.same_value_zero a b = true -> JS.same_value_zero b b = true.
Proof.
  intros H. apply svz_trans with a; auto. rewrite svz_sym. exact H.
Qed.

(** Setting a key that the map holds changes the value stored under it,
    and nothing else. *)
Lemma map_set_present (k : jsval) (v : entry) (m : list (jsval * entry)) :
  ForallOrdPairs
    (fun p q => JS.same_value_zero (fst p) (fst q) = false) m ->
  (exists p, In p m /\ JS.same_value_zero (fst p) k = true) ->
  JS.map_set k v m
  = List.map (fun p => if JS.same_value_zero (fst p) k then (fst p, v)
                       else p) m.
Proof.
  induction m as [|[k' v'] m IH]; intros Hu [p [Hin Hp]];
    [destruct Hin|].
  inversion Hu as [|? ? Hhd Htl]; subst. simpl.
  destruct (JS.same_value_zero k' k) eqn:E.
  - f_equal. rewrite <- (map_id m) at 1.
    apply map_ext_in. intros q Hq.
    destruct (JS.same_value_zero (fst q) k) eqn:Eq; [|reflexivity].
    rewrite Forall_forall in Hhd. specialize (Hhd q Hq). simpl in Hhd.
    rewrite (svz_congr_l _ _ (fst q) E) in Hhd.
    rewrite svz_sym in Hhd. congruence.
  - f_equal. apply IH; auto.
    destruct Hin as [<-|Hin]; [simpl in Hp; congruence|].
    exists p. auto.
Qed.

Section RestoreTwice.
Context (P : platform).

Lemma merged_pair_distinct (logs : list jsval) (m : list (jsval * entry)) :
  ForallOrdPairs
    (fun p q => JS.same_value_zero (fst p) (fst q) = false) m ->
  ForallOrdPairs
    (fun p q => JS.same_value_zero (fst p) (fst q) = false)
    (List.map (merged_pair P logs) m).
Proof.
  induction 1 as [|p m Hhd Htl IH]; simpl; constructor; auto.
  apply Forall_forall. intros q Hq. apply in_map_iff in Hq.
  destruct Hq as [q' [<- Hq']]. simpl.
  rewrite Forall_forall in Hhd. auto.
Qed.

Lemma lastLogFor_snoc (k : jsval) (logs : list jsval) (l : jsval) :
  lastLogFor k (logs ++ [l])%list
  = if for_date k l then Some l else lastLogFor k logs.
Proof.
  unfold lastLogFor. rewrite rev_app_distr. reflexivity.
Qed.

(** Merging records whose keys the map already holds keeps the keys and
    their order. *)
Lemma merged_present (logs : list jsval) (m : list (jsval * entry)) :
  ForallOrdPairs
    (fun p q => JS.same_value_zero (fst p) (fst q) = false) m ->
  (forall l, In l logs -> importable l = true ->
     exists p, In p m
               /\ JS.same_value_zero (fst p) (JS.prop_of l "date") = true) ->
  fold_left (mergeLog P) logs m = List.map (merged_pair P logs) m.
Proof.
  intros Hu. induction logs as [|l logs IH] using rev_ind; intros Hp.
  - simpl. rewrite <- (map_id m) at 1. apply map_ext.
    intros [k v]. reflexivity.
  - rewrite fold_left_app. simpl. rewrite IH
      by (intros l' Hl'; apply Hp; apply in_or_app; left; exact Hl').
    unfold mergeLog. destruct (importable l) eqn:El; cbn [negb].
    + rewrite map_set_present.
      * rewrite map_map. apply map_ext. intros [k v].
        unfold merged_pair. cbn [fst snd]. rewrite lastLogFor_snoc.
        unfold for_date. rewrite El. cbn [andb].
        rewrite (svz_sym (JS.prop_of l "date") k).
        destruct (JS.same_value_zero k (JS.prop_of l "date")); reflexivity.
      * apply merged_pair_distinct. exact Hu.
      * destruct (Hp l) as [p [Hin Hk]]; auto.
        { apply in_or_app. right. left. reflexivity. }
        exists (merged_pair P logs p). split; [apply in_map; exact Hin|].
        exact Hk.
    + apply map_ext. intros [k v]. unfold merged_pair. cbn [fst snd].
      rewrite lastLogFor_snoc. unfold for_date. rewrite El. reflexivity.
Qed.

Lemma mergeLogs_twice (es : list entry) (logs : list jsval) :
  Forall (fun l => importable l = true ->
                   primitive (JS.prop_of l "date") = true) logs ->
  Permutation (mergeLogs P (mergeLogs P es logs) logs)
              (mergeLogs P es logs).
Proof.
  intros Hprim. rewrite Forall_forall in Hprim.
  set (m0 := fold_left (fun m e => JS.map_set (date e) e m) es []).
  set (M1 := fold_left (mergeLog P) logs m0).
  set (es1 := mergeLogs P es logs).
  assert (Hm0 : map_ok m0) by (apply existing_map_ok, map_ok_nil).
  assert (HM1 : map_ok M1) by (apply merged_map_ok; exact Hm0).
  assert (Hes1 : forall e, In e es1 <-> exists k, In (k, e) M1).
  { intros e. split.
    - intros He. eapply Permutation_in in He;
        [|apply Permutation_sym, mergeLogs_perm].
      unfold JS.map_values in He. apply in_map_iff in He.
      destruct He as [[k v] [E Hin]]. simpl in E. subst v. eauto.
    - intros [k Hin]. eapply Permutation_in; [apply mergeLogs_perm|].
      unfold JS.map_values. apply in_map_iff. exists (k, e). auto. }
  assert (Hu1 : dates_unique es1) by apply mergeLogs_unique.
  eapply perm_trans; [apply Permutation_sym, mergeLogs_perm|].
  fold es1. rewrite (existing_map_unique es1 Hu1).
  rewrite merged_present.
  - unfold JS.map_values. rewrite !map_map.
    rewrite <- (map_id es1) at 2.
    replace (List.map
               (fun x => snd (merged_pair P logs (date x, x))) es1)
      with (List.map (fun x : entry => x) es1); [apply Permutation_refl|].
    apply map_ext_in. intros e He. unfold merged_pair. cbn [fst snd].
    destruct (lastLogFor (date e) logs) as [r|] eqn:Er; [|reflexivity].
    apply Hes1 in He. destruct He as [k Hin].
    destruct (merged_last_wins P logs m0 (date e) r Hm0 Er) as [_ Hall].
    apply (Hall k e Hin).
    destruct HM1 as [_ Hk]. rewrite Forall_forall in Hk.
    pose proof (Hk _ Hin (date e)) as Hke. cbn [fst snd] in Hke.
    rewrite Hke.
    unfold lastLogFor in Er. apply find_some in Er.
    destruct Er as [_ Er]. unfold for_date in Er.
    apply andb_true_iff in Er. destruct Er as [_ Er].
    eapply svz_refl_l. exact Er.
  - pose proof (map_ok_values _ (existing_map_ok es1 _ map_ok_nil)) as H.
    rewrite (existing_map_unique es1 Hu1) in H.
    clear - Hu1. unfold dates_unique in Hu1.
    induction Hu1 as [|e l Hhd Htl IH]; simpl; constructor; auto.
    apply Forall_forall. intros q Hq. apply in_map_iff in Hq.
    destruct Hq as [e' [<- He']]. simpl.
    rewrite Forall_forall in Hhd. auto.
  - intros l Hl Hi.
    pose proof (svz_primitive _ (Hprim l Hl Hi)) as Hrefl.
    destruct (lastLogFor_exists (JS.prop_of l "date") logs l Hl)
      as (r & Hr & Hin & Hf).
    { unfold for_date. rewrite Hi, Hrefl. reflexivity. }
    destruct (merged_last_wins P logs m0 _ r Hm0 Hr) as [[k [Hk _]] _].
    exists (date (importedEntry P r), importedEntry P r). split.
    + apply in_map_iff. exists (importedEntry P r). split; [reflexivity|].
      apply Hes1. exists k. exact Hk.
    + cbn [fst]. unfold for_date in Hf. apply andb_true_iff in Hf.
      destruct Hf as [_ Hf]. exact Hf.
Qed.

End RestoreTwice.

(** X20. Restoring the same backup a second time changes nothing more:
    the entries are those of the first restore, and so are the settings and
    the persisted settings.  The dates of the records of the backup are
    assumed not to be arrays or objects. *)
Theorem restore_twice_is_restore_once (P : platform) (jsonText : string)
  (st : state) :
  (forall parsed logs,
     JSON_parse P jsonText = Some parsed ->
     JS.prop_of parsed "logs" = JArr logs ->
     Forall (fun l => importable l = true ->
                      primitive (JS.prop_of l "date") = true) logs) ->
  let st1 := snd (restoreFullBackupJsonFromText P jsonText st) in
  let st2 := snd (restoreFullBackupJsonFromText P jsonText st1) in
  Permutation (entries st2) (entries st1)
  /\ userSettings st2 = userSettings st1
  /\ storedSettings st2 = storedSettings st1.
Proof.
  intros Hprim. cbv zeta.
  destruct (JSON_parse P jsonText) as [parsed|] eqn:Hp.
  - destruct (JS.nullish parsed) eqn:Hn.
    + unfold restoreFullBackupJsonFromText, JS.get_prop.
      repeat (rewrite ?Hp, ?Hn; cbn [snd]). auto.
    + set (st1 := snd (restoreFullBackupJsonFromText P jsonText st)).
      destruct (restore_parsed P jsonText parsed st Hp Hn)
        as (A1 & A2 & A3 & _).
      destruct (restore_parsed P jsonText parsed st1 Hp Hn)
        as (B1 & B2 & B3 & _).
      fold st1 in A1, A2, A3. cbv zeta in *.
      rewrite B1, B2, B3, A1, A2.
      split; [|destruct (JS.truthy _); auto].
      destruct (JS.prop_of parsed "logs") as [| | | | |logs|] eqn:El; auto.
      rewrite A3. apply mergeLogs_twice. apply (Hprim parsed); auto.
  - unfold restoreFullBackupJsonFromText.
    repeat (rewrite ?Hp; cbn [snd]). auto.
Qed.

Lemma restore_twice_is_restore_once_witness :
  let st1 :=
    snd (restoreFullBackupJsonFromText samplePlatform "logs-only"
           sampleState) in
  let st2 :=
    snd (restoreFullBackupJsonFromText samplePlatform "logs-only" st1) in
  Permutation (entries st2) (entries st1)
  /\ userSettings st2 = userSettings st1
  /\ storedSettings st2 = storedSettings st1.
Proof.
  apply (restore_twice_is_restore_once samplePlatform "logs-only"
           sampleState).
  intros parsed logs Hp Hl. simpl in Hp. injection Hp as <-.
  simpl in Hl. injection Hl as <-.
  repeat constructor.
Defined.

(* ================================================================== *)
(** * Adding and deleting *)

(** X21. Saving an entry for a date that has none, and then deleting the
    entry just added (the last of the store), leaves the entries that were
    there before. *)
Theorem submit_then_delete (P : platform) (now : Date) (f : entryForm)
  (st : state) :
  hasEntryOnDate (entries st) (JStr (submittedDate now f)) = false ->
  let st1 := submitEntryForm P now f st in
  alerts st1 = (alerts st ++ [AlertSaved])%list ->
  List.length (entries st1) = S (List.length (entries st))
  /\ entries (deleteEntry P true (List.length (entries st)) st1)
     = entries st.
Proof.
  intros Hno. cbv zeta.
  destruct (submitEntryForm_cases P now f st)
    as [[_ ->]|[n (Hd & _ & He & _)]].
  - simpl. intros E. apply app_inv_head in E. discriminate E.
  - intros _. unfold deleteEntry. cbn [negb entries saveEntries].
    rewrite He. unfold addOrReplace. rewrite Hd.
    assert (Hf : filter
                   (fun e => negb (JS.strict_eq (date e)
                                     (JStr (submittedDate now f))))
                   (entries st) = entries st).
    { unfold hasEntryOnDate in Hno. clear He.
      induction (entries st) as [|x l IH]; [reflexivity|].
      cbn [existsb] in Hno. apply orb_false_iff in Hno.
      destruct Hno as [H1 H2].
      cbn [filter]. rewrite H1. cbn [negb]. rewrite IH; auto. }
    rewrite Hf. rewrite length_app. simpl.
    split; [lia|].
    clear. induction (entries st) as [|x l IH]; simpl; auto.
    rewrite IH. reflexivity.
Qed.

Lemma submit_then_delete_witness :
  let f := mkEntryForm (Some "79.5") None "2024-01-05" "" "" in
  let st1 := submitEntryForm samplePlatform None f sampleState in
  List.length (entries st1) = S (List.length (entries sampleState))
  /\ entries (deleteEntry samplePlatform true
                (List.length (entries sampleState)) st1)
     = entries sampleState.
Proof.
  apply (submit_then_delete samplePlatform None
           (mkEntryForm (Some "79.5") None "2024-01-05" "" "")
           sampleState); reflexivity.
Defined.
(* ================================================================== *)
(** * Saving twice *)

Lemma formatDateToYMD_not_empty (d : Date) : formatDateToYMD d <> "".
Proof.
  unfold formatDateToYMD.
  destruct (string_of_num (DateObj.getFullYear d)); discriminate.
Qed.

Lemma submittedDate_not_empty (now : Date) (f : entryForm) :
  String.eqb (submittedDate now f) "" = false.
Proof.
  unfold submittedDate. destruct (String.eqb (dateInput f) "") eqn:E.
  - apply String.eqb_neq. apply formatDateToYMD_not_empty.
  - exact E.
Qed.

Lemma addOrReplace_twice (a b : entry) (es : list entry) :
  date a = date b ->
  (exists s, date b = JStr s) ->
  addOrReplace a (addOrReplace b es) = addOrReplace a es.
Proof.
  intros Hd [s Hs]. unfold addOrReplace. rewrite filter_app. cbn [filter].
  rewrite Hd, Hs, strict_eq_string_refl. cbn [negb].
  rewrite app_nil_r, <- Hs. rewrite filter_neg_idem. reflexivity.
Qed.

Section SubmitTwice.
Context (P : platform).

(** The weight taken over from the store for an entry saved without one
    is still the one taken over once that entry is in the store. *)
Lemma fallback_weight_stable (d : string) (a n dm : jsval)
  (es : list entry) :
  String.eqb d "" = false ->
  Forall (fun e => string_date e = true) es ->
  let w :=
    if JS.is_real_number (getLatestWeightUpToDate P es (JStr d))
    then getLatestWeightUpToDate P es (JStr d) else JNull in
  getLatestWeightUpToDate P (addOrReplace (mkEntry (JStr d) w a n dm) es)
    (JStr d)
  = w.
Proof.
  intros Hd Hs w.
  set (new := mkEntry (JStr d) w a n dm).
  assert (Hw : w = getLatestWeightUpToDate P es (JStr d)).
  { unfold w.
    destruct (getLatestWeightUpToDate_shape P es (JStr d)) as [E|E];
      rewrite E; reflexivity. }
  assert (Hold : forall e, In e (addOrReplace new es) ->
                           e = new
                           \/ (In e es
                               /\ JS.strict_eq (date e) (JStr d) = false)).
  { intros e He. unfold addOrReplace in He. apply in_app_or in He.
    destruct He as [He|[<-|[]]]; auto.
    apply filter_In in He. destruct He as [He1 He2].
    apply negb_true_iff in He2. auto. }
  destruct (JS.is_real_number w) eqn:Er.
  - assert (Hnew : eligible P (JStr d) new = true).
    { unfold eligible, new. cbn [weight date js_gt]. rewrite Er.
      rewrite string_lt_irrefl, andb_false_r. reflexivity. }
    destruct (latest_weight_fold_max P (JStr d) (addOrReplace new es))
      as [[_ Hnone]|(e & He1 & He2 & He3 & He4)].
    + unfold addOrReplace. apply Forall_app. split.
      * rewrite Forall_forall in *. intros e He.
        apply filter_In in He. apply Hs. tauto.
      * constructor; [|constructor]. unfold string_date, new.
        cbn [date is_string JS.truthy andb]. rewrite Hd. reflexivity.
    + rewrite Hnone in Hnew; [discriminate|].
      unfold addOrReplace. apply in_or_app. right. left. reflexivity.
    + unfold getLatestWeightUpToDate. cbv zeta in He3. rewrite He3.
      cbn [fst].
      destruct (Hold e He1) as [->|[Hin Hne]]; [reflexivity|].
      exfalso.
      assert (Hmax : js_gt P (date new) (date e) = false).
      { apply He4; auto. unfold addOrReplace. apply in_or_app.
        right. left. reflexivity. }
      rewrite Forall_forall in Hs. pose proof (Hs e Hin) as Hse.
      unfold string_date in Hse.
      destruct (date e) as [| | | |s| |] eqn:Ede; try discriminate.
      unfold eligible in He2. rewrite Ede in He2.
      cbn [JS.truthy js_gt] in He2. rewrite Hd in He2.
      apply andb_true_iff in He2. destruct He2 as [_ He2].
      cbn [negb andb] in He2. apply negb_true_iff in He2.
      unfold new in Hmax. cbn [date js_gt] in Hmax.
      pose proof (string_lt_antisym _ _ He2 Hmax) as E.
      simpl in Hne. rewrite E, String.eqb_refl in Hne. discriminate.
  - assert (Hnull : getLatestWeightUpToDate P es (JStr d) = JNull).
    { destruct (getLatestWeightUpToDate_shape P es (JStr d)) as [E|E];
        [exact E|congruence]. }
    assert (Ew : w = JNull) by congruence.
    rewrite Ew. apply (proj2 (latest_weight_null_iff_fold P (JStr d) _)).
    intros e He. destruct (Hold e He) as [->|[Hin _]].
    + unfold eligible, new. cbn [weight]. rewrite Er. reflexivity.
    + apply (proj1 (latest_weight_null_iff_fold P (JStr d) es)); auto.
Qed.

End SubmitTwice.

(** X22. Saving the same form twice in a row is saving it once: on a store
    whose dates are non-empty strings, the second submission leaves the
    entries, the persisted entries and the settings as the first one left
    them. *)
Theorem submit_twice_is_submit_once (P : platform) (now : Date)
  (f : entryForm) (st : state) :
  Forall (fun e => string_date e = true) (entries st) ->
  let st1 := submitEntryForm P now f st in
  let st2 := submitEntryForm P now f st1 in
  entries st2 = entries st1
  /\ storedEntries st2 = storedEntries st1
  /\ userSettings st2 = userSettings st1
  /\ storedSettings st2 = storedSettings st1.
Proof.
  intros Hs. cbv zeta. unfold submitEntryForm.
  match goal with
  | |- context [if ?c then show_alert AlertInvalidWeight st else _] =>
      destruct c
  end; [cbn [entries storedEntries userSettings storedSettings show_alert];
        auto|].
  cbv zeta.
  assert (E : forall w2 w1 a n dm es,
             w2 = w1 ->
             addOrReplace (mkEntry (JStr (submittedDate now f)) w2 a n dm)
               (addOrReplace
                  (mkEntry (JStr (submittedDate now f)) w1 a n dm) es)
             = addOrReplace
                 (mkEntry (JStr (submittedDate now f)) w1 a n dm) es).
  { intros w2 w1 a n dm es ->. apply addOrReplace_twice; [reflexivity|].
    cbn [date]. eauto. }
  repeat (match goal with
          | |- context [refreshAllUI P ?x] =>
              lazymatch x with
              | context [refreshAllUI] => fail
              | _ => destruct (refreshAllUI P x)
              end
          end;
          cbn [entries storedEntries userSettings storedSettings alerts
               show_alert saveEntries]).
  all: fold (submittedDate now f).
  all: match goal with
       | |- context [if ?h then JNum ?x else JNull] => destruct h
       end.
  all: try (rewrite E by reflexivity; auto; fail).
  all: rewrite E; [auto|];
    rewrite (fallback_weight_stable P (submittedDate now f))
      by (auto; apply submittedDate_not_empty);
    destruct (JS.is_real_number
                (getLatestWeightUpToDate P (entries st)
                   (JStr (submittedDate now f)))) eqn:Er;
    [rewrite Er|]; reflexivity.
Qed.

Lemma submit_twice_is_submit_once_witness :
  let f := mkEntryForm None (Some "30") "2024-01-05" "" "" in
  let st1 := submitEntryForm samplePlatform None f sampleState in
  let st2 := submitEntryForm samplePlatform None f st1 in
  entries st2 = entries st1
  /\ storedEntries st2 = storedEntries st1
  /\ userSettings st2 = userSettings st1
  /\ storedSettings st2 = storedSettings st1.
Proof.
  apply (submit_twice_is_submit_once samplePlatform None
           (mkEntryForm None (Some "30") "2024-01-05" "" "") sampleState).
  repeat constructor.
Defined.
